(** * HelpScoutClient: the resilient API-access layer

    A shallow embedding of [src/utils/helpscout-client.ts]: the retry
    executor, the token authenticator, the error normaliser, the cached
    read verb and the mutating verbs, and the connection-pool lifecycle.

    Conventions of the embedding.
    - An [async] method is a state-passing function: it takes the state it
      runs in and gives back how its promise settles ([Resolved] or
      [Rejected]) together with the state it leaves behind.  One call runs
      without interleaving with other calls.
    - JavaScript numbers that carry durations are exact rationals ([Q]) or
      [NaN]; rounding of IEEE doubles and overflow are not modelled, and
      the literal [0.1] is one tenth.  Counters, HTTP statuses and clock
      readings are integers ([Z]).
    - [Math.random], [Date.now], the network and the logger are effects on
      the state; what the network answers is an input of the model. *)

From Stdlib Require Import ZArith QArith Qminmax Qpower Qround.
From Stdlib Require Import List String Ascii Bool Lia DecimalString.
Import ListNotations.

#[local] Open Scope string_scope.
#[local] Open Scope Z_scope.

Set Warnings "-register-all".

(* ------------------------------------------------------------------ *)
(** ** JavaScript values *)

(** JavaScript numbers: an exact rational or [NaN]. *)
Module Num.

Inductive t : Type :=
| Finite (q : Q)
| NaN.

(** [a * b] *)
Definition mul (a b : t) : t :=
  match a, b with
  | Finite x, Finite y => Finite (x * y)
  | _, _ => NaN
  end.

(** [Math.min(a, b)] *)
Definition min (a b : t) : t :=
  match a, b with
  | Finite x, Finite y => Finite (Qmin x y)
  | _, _ => NaN
  end.

Definition of_Z (z : Z) : t := Finite (inject_Z z).

(** Template-literal rendering; exact on the integers that reach it. *)
Definition to_string (a : t) : string :=
  match a with
  | Finite q => NilZero.string_of_int (Z.to_int (Qfloor q))
  | NaN => "NaN"
  end.

End Num.

(** The payloads the client passes around without looking inside. *)
Inductive JsValue : Type :=
| JUndefined
| JNull
| JBool (b : bool)
| JNum (n : Num.t)
| JStr (s : string)
| JObj (fields : list (string * JsValue)).

(** [if (v)], [v || d], [!v]. *)
Definition truthy (v : JsValue) : bool :=
  match v with
  | JUndefined | JNull => false
  | JBool b => b
  | JNum (Num.Finite q) => negb (Qeq_bool q 0)
  | JNum Num.NaN => false
  | JStr s => negb (s =? "")%string
  | JObj _ => true
  end.

Definition falsy (v : JsValue) : bool := negb (truthy v).

Fixpoint assoc {A : Type} (k : string) (l : list (string * A)) : option A :=
  match l with
  | [] => None
  | (k', v) :: l' => if (k =? k')%string then Some v else assoc k l'
  end.

(** [v.name] on a value that may or may not be an object. *)
Definition prop (v : JsValue) (name : string) : JsValue :=
  match v with
  | JObj fields => match assoc name fields with Some x => x | None => JUndefined end
  | _ => JUndefined
  end.

Fixpoint JsValue_eqb (a b : JsValue) {struct a} : bool :=
  match a, b with
  | JUndefined, JUndefined => true
  | JNull, JNull => true
  | JBool x, JBool y => Bool.eqb x y
  | JNum (Num.Finite x), JNum (Num.Finite y) => Qeq_bool x y
  | JStr x, JStr y => (x =? y)%string
  | JObj fa, JObj fb =>
      (fix fields_eqb (l : list (string * JsValue)) (r : list (string * JsValue)) : bool :=
         match l, r with
         | [], [] => true
         | (k, v) :: l', (k', v') :: r' =>
             (k =? k')%string && JsValue_eqb v v' && fields_eqb l' r'
         | _, _ => false
         end) fa fb
  | _, _ => false
  end.


(** *** [parseInt(s, 10)] *)

Definition is_white_space (c : ascii) : bool :=
  let n := nat_of_ascii c in
  (Nat.eqb n 32 || Nat.eqb n 9 || Nat.eqb n 10 || Nat.eqb n 11
   || Nat.eqb n 12 || Nat.eqb n 13)%bool.

Fixpoint skip_white_space (s : string) : string :=
  match s with
  | String c s' => if is_white_space c then skip_white_space s' else s
  | EmptyString => s
  end.

Definition digit_of (c : ascii) : option Z :=
  let n := Z.of_nat (nat_of_ascii c) in
  if (48 <=? n) && (n <=? 57) then Some (n - 48) else None.

(** The longest prefix of decimal digits, read as a number; [None] when
    there is no digit at all. *)
Fixpoint read_digits (s : string) (acc : option Z) : option Z :=
  match s with
  | String c s' =>
      match digit_of c with
      | Some d =>
          read_digits s' (Some (10 * match acc with Some a => a | None => 0 end + d))
      | None => acc
      end
  | EmptyString => acc
  end.

Definition parseInt (s : string) : Num.t :=
  let s1 := skip_white_space s in
  let '(sign, s2) :=
    match s1 with
    | String "-" r => (-1, r)
    | String "+" r => (1, r)
    | _ => (1, s1)
    end in
  match read_digits s2 None with
  | Some n => Num.of_Z (sign * n)
  | None => Num.NaN
  end.

(** *** String helpers: [startsWith], [replace], [toUpperCase], [includes] *)

Definition startsWith (s p : string) : bool := String.prefix p s.

Fixpoint drop (n : nat) (s : string) : string :=
  match n, s with
  | O, _ => s
  | S n', String _ s' => drop n' s'
  | S _, EmptyString => EmptyString
  end.

(** [s.replace(pat, rep)] with a string pattern: the first occurrence only. *)
Fixpoint replace (pat rep s : string) : string :=
  if String.prefix pat s then (rep ++ drop (String.length pat) s)%string
  else match s with
       | String c s' => String c (replace pat rep s')
       | EmptyString => EmptyString
       end.

Definition upper (c : ascii) : ascii :=
  let n := nat_of_ascii c in
  if (Nat.leb 97 n && Nat.leb n 122)%bool then ascii_of_nat (n - 32) else c.

Fixpoint toUpperCase (s : string) : string :=
  match s with
  | String c s' => String (upper c) (toUpperCase s')
  | EmptyString => EmptyString
  end.

Fixpoint includes (s sub : string) : bool :=
  if String.prefix sub s then true
  else match s with
       | String _ s' => includes s' sub
       | EmptyString => false
       end.

(* ------------------------------------------------------------------ *)
(** ** Requests, responses and errors *)

Definition Headers : Type := list (string * string).

Definition Params : Type := option (list (string * JsValue)).

Definition Params_eqb (a b : Params) : bool :=
  match a, b with
  | None, None => true
  | Some x, Some y => JsValue_eqb (JObj x) (JObj y)
  | _, _ => false
  end.

(** [RequestMetadata].  The request id is
    [Math.random().toString(36).substring(7)]; the embedding keeps the
    draw it is derived from. *)
Record RequestMetadata : Type := {
  requestId : Q;
  startTime : Z
}.

(** Whether the request id made from [draw] is the empty string.
    [toString(36)] writes a draw as ['0.'] and its digits in base 36, and
    [substring(7)] drops these two characters and five digits: nothing is
    left when the digits end within five places, that is when
    [draw * 36^5] is a whole number. *)
Definition requestIdIsEmpty (draw : Q) : bool :=
  (Qden (Qred (draw * 60466176)) =? 1)%positive.

Module Config.
(** The part of axios' request configuration the client reads. *)
Record t : Type := {
  method : option string;
  url : option string;
  params : Params;
  data : JsValue;
  Authorization : option string;
  metadata : option RequestMetadata
}.
End Config.

Module Response.
(** [AxiosResponse]; header names are lower case, as axios gives them. *)
Record t : Type := {
  status : Z;
  headers : Headers;
  data : JsValue
}.
End Response.

Module AxiosError.
(** The raw transport error axios rejects with. *)
Record t : Type := {
  response : option Response.t;
  code : option string;
  message : string;
  config : option Config.t
}.
End AxiosError.

Inductive ErrorCode : Type :=
| INVALID_INPUT | NOT_FOUND | UNAUTHORIZED | RATE_LIMIT | UPSTREAM_ERROR.

Definition ErrorCode_name (c : ErrorCode) : string :=
  match c with
  | INVALID_INPUT => "INVALID_INPUT"
  | NOT_FOUND => "NOT_FOUND"
  | UNAUTHORIZED => "UNAUTHORIZED"
  | RATE_LIMIT => "RATE_LIMIT"
  | UPSTREAM_ERROR => "UPSTREAM_ERROR"
  end.

Module ApiError.
(** [details] of an [ApiError]; a field that a branch of
    [transformError] does not write is [None]. *)
Record Details : Type := {
  requestId : option Q;            (* [None] is the string 'unknown' *)
  url : option string;
  method : option string;
  suggestion : option string;
  statusCode : option Z;
  errorCode : option string;
  validationErrors : option JsValue;
  apiResponse : option JsValue
}.

(** [ApiError] of [schema/types.ts]. *)
Record t : Type := {
  code : ErrorCode;
  message : string;
  retryAfter : option Num.t;
  details : Details
}.
End ApiError.

(** Whatever a [catch] clause can receive. *)
Inductive Thrown : Type :=
| ThrownAxios (e : AxiosError.t)
| ThrownApi (a : ApiError.t)
| ThrownError (msg : string).

(** Property reads on a caught value, whatever object it is. *)
Definition error_response (e : Thrown) : option Response.t :=
  match e with
  | ThrownAxios x => AxiosError.response x
  | _ => None
  end.

Definition error_code (e : Thrown) : option string :=
  match e with
  | ThrownAxios x => AxiosError.code x
  | ThrownApi a => Some (ErrorCode_name (ApiError.code a))
  | ThrownError _ => None
  end.

Definition error_message (e : Thrown) : string :=
  match e with
  | ThrownAxios x => AxiosError.message x
  | ThrownApi a => ApiError.message a
  | ThrownError msg => msg
  end.

Definition error_config (e : Thrown) : option Config.t :=
  match e with
  | ThrownAxios x => AxiosError.config x
  | _ => None
  end.

(** [error.response?.status] *)
Definition error_status (e : Thrown) : option Z :=
  option_map Response.status (error_response e).

(** [error.response?.status === n] *)
Definition status_is (e : Thrown) (n : Z) : bool :=
  match error_status e with
  | Some s => s =? n
  | None => false
  end.

(** [headers['retry-after'] || '60'] *)
Definition retry_after_header (r : Response.t) : string :=
  match assoc "retry-after" (Response.headers r) with
  | Some s => if (s =? "")%string then "60" else s
  | None => "60"
  end.

(* ------------------------------------------------------------------ *)
(** ** Promises as state-passing computations *)

Inductive Settled (A : Type) : Type :=
| Resolved (a : A)
| Rejected (e : Thrown).
Arguments Resolved {A} a.
Arguments Rejected {A} e.

Definition Async (S A : Type) : Type := S -> Settled A * S.

Definition ret {S A} (a : A) : Async S A := fun s => (Resolved a, s).

Definition throw {S A} (e : Thrown) : Async S A := fun s => (Rejected e, s).

Definition bind {S A B} (c : Async S A) (k : A -> Async S B) : Async S B :=
  fun s =>
    match c s with
    | (Resolved a, s1) => k a s1
    | (Rejected e, s1) => (Rejected e, s1)
    end.

(** [try { c } catch (error) { h error }] *)
Definition try_catch {S A} (c : Async S A) (h : Thrown -> Async S A) : Async S A :=
  fun s =>
    match c s with
    | (Resolved a, s1) => (Resolved a, s1)
    | (Rejected e, s1) => h e s1
    end.

(** A step that cannot fail. *)
Definition effect {S} (f : S -> S) : Async S unit := fun s => (Resolved tt, f s).

Declare Scope async_scope.
Delimit Scope async_scope with async.
Notation "x <- c ;; k" := (bind c (fun x => k))
  (at level 61, c at next level, right associativity) : async_scope.
Notation "c ;; k" := (bind c (fun _ => k))
  (at level 61, right associativity) : async_scope.
#[local] Open Scope async_scope.

Inductive Level : Type := Debug | Info | Warn | Error.

(** What the retry executor needs from its surroundings: the timer behind
    [this.sleep], [Math.random] and the logger. *)
Class Runtime (S : Type) : Type := {
  sleep : Num.t -> S -> S;
  random : S -> Q * S;
  logger : Level -> string -> S -> S
}.

(* ------------------------------------------------------------------ *)
(** ** The retry executor *)

Record RetryConfig : Type := {
  retries : Z;
  retryDelay : Q;
  maxRetryDelay : Q;
  retryCondition : option (Thrown -> bool)
}.

(** [defaultRetryConfig.retryCondition] *)
Definition defaultRetryCondition (error : Thrown) : bool :=
  match error_response error with
  | None => true
  | Some response =>
      match error_code error with
      | Some c => (c =? "ECONNABORTED")%string
      | None => false
      end
      || ((500 <=? Response.status response) && (Response.status response <? 600))
      || (Response.status response =? 429)
  end.

Definition defaultRetryConfig : RetryConfig := {|
  retries := 3;
  retryDelay := 1000;
  maxRetryDelay := 10000;
  retryCondition := Some defaultRetryCondition
|}.

(** [retryConfig.retryCondition?.(error)], read as a condition. *)
Definition shouldRetry (retryConfig : RetryConfig) (error : Thrown) : bool :=
  match retryCondition retryConfig with
  | Some f => f error
  | None => false
  end.

(** The arithmetic of [calculateRetryDelay] once the random draw [r] is
    known. *)
Definition backoffDelay (r : Q) (attempt : Z) (baseDelay maxDelay : Q) : Q :=
  let exponentialDelay := (baseDelay * Qpower 2 attempt)%Q in
  let jitter := (r * (1 # 10) * exponentialDelay)%Q in
  Qmin (exponentialDelay + jitter) maxDelay.

(** The delay of the rate-limit branch. *)
Definition rateLimitDelay (response : Response.t) (maxRetryDelay : Q) : Num.t :=
  let retryAfter := Num.mul (parseInt (retry_after_header response)) (Num.of_Z 1000) in
  Num.min retryAfter (Num.Finite maxRetryDelay).

Section RetryExecutor.

Context {S : Type} `{Runtime S}.

Definition calculateRetryDelay (attempt : Z) (baseDelay maxDelay : Q) : Async S Q :=
  fun s =>
    let (r, s1) := random s in
    (Resolved (backoffDelay r attempt baseDelay maxDelay), s1).

(** The tail of the [catch] block: wait before the next attempt. *)
Definition waitBeforeRetry (retryConfig : RetryConfig) (attempt : Z)
    (lastError : Thrown) : Async S unit :=
  match error_response lastError with
  | Some response =>
      if Response.status response =? 429 then
        let delay := rateLimitDelay response (maxRetryDelay retryConfig) in
        effect (logger Warn "Rate limit hit, waiting before retry") ;;
        effect (sleep delay)
      else
        delay <- calculateRetryDelay attempt (retryDelay retryConfig)
                   (maxRetryDelay retryConfig) ;;
        effect (logger Warn "Request failed, retrying") ;;
        effect (sleep (Num.Finite delay))
  | None =>
      delay <- calculateRetryDelay attempt (retryDelay retryConfig)
                 (maxRetryDelay retryConfig) ;;
      effect (logger Warn "Request failed, retrying") ;;
      effect (sleep (Num.Finite delay))
  end.

(** [throw lastError || new Error(...)] after the loop. *)
Definition throwLast {A} (lastError : option Thrown) : Async S A :=
  match lastError with
  | Some e => throw e
  | None => throw (ThrownError "Request failed without error details")
  end.

(** The [for] loop from iteration [attempt] on.  [n] bounds the
    iterations still possible; [executeWithRetry] starts it with as many
    as the loop condition allows (see [retryLoop_O_exit]). *)
Fixpoint retryLoop (operation : Async S Response.t) (retryConfig : RetryConfig)
    (n : nat) (attempt : Z) (lastError : option Thrown) : Async S Response.t :=
  match n with
  | O => throwLast lastError
  | Datatypes.S n' =>
      if attempt <=? retries retryConfig then
        try_catch operation (fun error =>
          if attempt =? retries retryConfig then throwLast (Some error)
          else if negb (shouldRetry retryConfig error) then throwLast (Some error)
          else
            waitBeforeRetry retryConfig attempt error ;;
            retryLoop operation retryConfig n' (attempt + 1) (Some error))
      else throwLast lastError
  end.

Definition executeWithRetry (operation : Async S Response.t)
    (retryConfig : RetryConfig) : Async S Response.t :=
  retryLoop operation retryConfig (Z.to_nat (retries retryConfig + 1)) 0 None.

End RetryExecutor.

(* ------------------------------------------------------------------ *)
(** ** The world the client runs in *)

(** [ConnectionPoolConfig], also the options an agent is built with. *)
Record ConnectionPoolConfig : Type := {
  maxSockets : Z;
  maxFreeSockets : Z;
  timeout : Z;
  keepAlive : bool;
  keepAliveMsecs : Z
}.

(** [Partial<ConnectionPoolConfig>]: [None] is an absent property. *)
Record PartialPoolConfig : Type := {
  maxSockets' : option Z;
  maxFreeSockets' : option Z;
  timeout' : option Z;
  keepAlive' : option bool;
  keepAliveMsecs' : option Z
}.

Definition DEFAULT_POOL_CONFIG : ConnectionPoolConfig := {|
  maxSockets := 50;
  maxFreeSockets := 10;
  timeout := 30000;
  keepAlive := true;
  keepAliveMsecs := 1000
|}.

Definition emptyPoolConfig : PartialPoolConfig := {|
  maxSockets' := None;
  maxFreeSockets' := None;
  timeout' := None;
  keepAlive' := None;
  keepAliveMsecs' := None
|}.

Definition or_default {A} (o : option A) (d : A) : A :=
  match o with Some x => x | None => d end.

(** [{ ...base, ...over }] *)
Definition spread (base : ConnectionPoolConfig) (over : PartialPoolConfig)
  : ConnectionPoolConfig := {|
  maxSockets := or_default (maxSockets' over) (maxSockets base);
  maxFreeSockets := or_default (maxFreeSockets' over) (maxFreeSockets base);
  timeout := or_default (timeout' over) (timeout base);
  keepAlive := or_default (keepAlive' over) (keepAlive base);
  keepAliveMsecs := or_default (keepAliveMsecs' over) (keepAliveMsecs base)
|}.

(** An [http.Agent] or [https.Agent].  Agents are objects shared by
    reference: they live in the world's agent store and are named by
    their index in it.  Their socket tables are not modelled. *)
Record Agent : Type := {
  secure : bool;
  options : ConnectionPoolConfig;
  destroyed : bool
}.

(** [config.helpscout] of [utils/config.ts], which the client only reads. *)
Record HelpscoutConfig : Type := {
  baseUrl : string;
  apiKey : option string;
  clientId : option string;
  clientSecret : option string
}.

(** The fields of a [HelpScoutClient] instance; [axiosHttpAgent] and
    [axiosHttpsAgent] are the agents the axios instance was created with. *)
Record Client : Type := {
  accessToken : option string;
  tokenExpiresAt : Z;
  httpAgent : nat;
  httpsAgent : nat;
  axiosHttpAgent : nat;
  axiosHttpsAgent : nat
}.

(** What the network does with one request to the API. *)
Inductive Reply : Type :=
| Answer (response : Response.t)
| NoAnswer (code : option string) (message : string).

(** What the OAuth2 token endpoint does with one request. *)
Inductive TokenReply : Type :=
| Granted (access_token : string) (expires_in : Z)
| Refused (error : AxiosError.t).

Record CacheEntry : Type := {
  entryKey : string;
  entryParams : Params;
  entryValue : JsValue;
  entryExpires : Z
}.

(** What an observer of the client sees, newest first in the trace: the
    logger's lines, the timer, the requests put on the wire, the calls on
    the cache store, the agents' lifecycle, and each run of
    [transformError]. *)
Inductive Event : Type :=
| Logged (level : Level) (msg : string)
| Slept (delay : Num.t)
| Sent (request : Config.t)
| TokenRequested
| CacheRead (key : string) (params : Params)
| CacheWritten (key : string) (params : Params) (value : JsValue) (ttl : Z)
| Normalized (error : Thrown)
| AgentCreated (ref : nat)
| AgentDestroyed (ref : nat).

Record World : Type := {
  config : HelpscoutConfig;
  client : Client;
  agents : list Agent;
  cache : list CacheEntry;
  now : Z;
  randoms : list Q;
  api : list Reply;
  oauth : list TokenReply;
  trace : list Event
}.

Definition with_client (c : Client) (w : World) : World :=
  {| config := config w; client := c; agents := agents w; cache := cache w;
     now := now w; randoms := randoms w; api := api w; oauth := oauth w;
     trace := trace w |}.

Definition with_agents (a : list Agent) (w : World) : World :=
  {| config := config w; client := client w; agents := a; cache := cache w;
     now := now w; randoms := randoms w; api := api w; oauth := oauth w;
     trace := trace w |}.

Definition with_cache (c : list CacheEntry) (w : World) : World :=
  {| config := config w; client := client w; agents := agents w; cache := c;
     now := now w; randoms := randoms w; api := api w; oauth := oauth w;
     trace := trace w |}.

Definition with_now (t : Z) (w : World) : World :=
  {| config := config w; client := client w; agents := agents w; cache := cache w;
     now := t; randoms := randoms w; api := api w; oauth := oauth w;
     trace := trace w |}.

Definition with_randoms (r : list Q) (w : World) : World :=
  {| config := config w; client := client w; agents := agents w; cache := cache w;
     now := now w; randoms := r; api := api w; oauth := oauth w;
     trace := trace w |}.

Definition with_api (a : list Reply) (w : World) : World :=
  {| config := config w; client := client w; agents := agents w; cache := cache w;
     now := now w; randoms := randoms w; api := a; oauth := oauth w;
     trace := trace w |}.

Definition with_oauth (o : list TokenReply) (w : World) : World :=
  {| config := config w; client := client w; agents := agents w; cache := cache w;
     now := now w; randoms := randoms w; api := api w; oauth := o;
     trace := trace w |}.

Definition record (e : Event) (w : World) : World :=
  {| config := config w; client := client w; agents := agents w; cache := cache w;
     now := now w; randoms := randoms w; api := api w; oauth := oauth w;
     trace := e :: trace w |}.

Definition with_token (token : option string) (expires : Z) (w : World) : World :=
  with_client {| accessToken := token; tokenExpiresAt := expires;
                 httpAgent := httpAgent (client w);
                 httpsAgent := httpsAgent (client w);
                 axiosHttpAgent := axiosHttpAgent (client w);
                 axiosHttpsAgent := axiosHttpsAgent (client w) |} w.

(** [setTimeout(resolve, ms)]: the clock moves on by the whole
    milliseconds asked for; a negative or [NaN] delay fires at once. *)
Definition elapse (delay : Num.t) (t : Z) : Z :=
  match delay with
  | Num.Finite q => t + Z.max 0 (Qfloor q)
  | Num.NaN => t
  end.

#[export] Instance Runtime_World : Runtime World := {|
  sleep := fun delay w => with_now (elapse delay (now w)) (record (Slept delay) w);
  random := fun w =>
    match randoms w with
    | r :: rest => (r, with_randoms rest w)
    | [] => (0%Q, w)
    end;
  logger := fun level msg w => record (Logged level msg) w
|}.

(* ------------------------------------------------------------------ *)
(** ** The cache store *)

(** Modelled from the spec: the cache store of [utils/cache.ts], which is
    not among the sources.  Section 6 gives its interface,
    [get(key, params) -> value|absent] and [set(key, params, value, {ttl})],
    and section 3 its entries, keyed by (verb, path, parameter-set) and
    holding a value and an expiry.  The time to live is read in seconds. *)
Fixpoint cache_lookup (entries : list CacheEntry) (key : string) (params : Params)
    (t : Z) : JsValue :=
  match entries with
  | [] => JUndefined
  | e :: rest =>
      if (entryKey e =? key)%string && Params_eqb (entryParams e) params
      then if t <? entryExpires e then entryValue e else JUndefined
      else cache_lookup rest key params t
  end.

(** [cache.get(key, params)] *)
Definition cache_get (key : string) (params : Params) (w : World) : JsValue * World :=
  (cache_lookup (cache w) key params (now w), record (CacheRead key params) w).

(** [cache.set(key, params, value, { ttl })] *)
Definition cache_set (key : string) (params : Params) (value : JsValue) (ttl : Z)
    (w : World) : World :=
  let entry := {| entryKey := key; entryParams := params; entryValue := value;
                  entryExpires := now w + ttl * 1000 |} in
  with_cache (entry :: cache w) (record (CacheWritten key params value ttl) w).

(* ------------------------------------------------------------------ *)
(** ** The token authenticator *)

(** [if (s)] on a [string | null | undefined]. *)
Definition nonempty (s : option string) : bool :=
  match s with
  | Some x => negb (x =? "")%string
  | None => false
  end.

(** [axios.post('https://api.helpscout.net/v2/oauth2/token', ...)] on the
    global axios: no interceptor of the client runs. *)
Definition requestToken : Async World (string * Z) :=
  fun w =>
    let w1 := record TokenRequested w in
    match oauth w1 with
    | Granted access_token expires_in :: rest =>
        (Resolved (access_token, expires_in), with_oauth rest w1)
    | Refused error :: rest => (Rejected (ThrownAxios error), with_oauth rest w1)
    | [] =>
        (Rejected (ThrownAxios {| AxiosError.response := None;
                                  AxiosError.code := None;
                                  AxiosError.message := "Network Error";
                                  AxiosError.config := None |}), w1)
    end.

Definition authenticate : Async World unit :=
  try_catch
    (fun w =>
       if nonempty (apiKey (config w))
          && startsWith (or_default (apiKey (config w)) "") "Bearer "
       then
         let token := replace "Bearer " "" (or_default (apiKey (config w)) "") in
         (Resolved tt,
          logger Info "Using Personal Access Token for Help Scout API"
            (with_token (Some token) (now w + 24 * 60 * 60 * 1000) w))
       else if negb (nonempty (clientId (config w)))
               || negb (nonempty (clientSecret (config w)))
       then
         throw (ThrownError
           "OAuth2 authentication requires both client ID and secret. Set HELPSCOUT_CLIENT_ID and HELPSCOUT_CLIENT_SECRET, or use legacy HELPSCOUT_API_KEY and HELPSCOUT_APP_SECRET") w
       else
         (response <- requestToken ;;
          effect (fun w1 =>
            logger Info "Authenticated with Help Scout API using OAuth2"
              (with_token (Some (fst response))
                 (now w1 + snd response * 1000 - 60000) w1))) w)
    (fun error =>
       effect (logger Error "Authentication failed") ;;
       throw (ThrownError "Failed to authenticate with Help Scout API")).

Definition tokenIsValid (w : World) : bool :=
  nonempty (accessToken (client w)) && (now w <? tokenExpiresAt (client w)).

Definition ensureAuthenticated : Async World unit :=
  fun w => if tokenIsValid w then (Resolved tt, w) else authenticate w.

(* ------------------------------------------------------------------ *)
(** ** The error normaliser *)

(** A value inside a template literal. *)
Definition display (v : JsValue) : string :=
  match v with
  | JUndefined => "undefined"
  | JNull => "null"
  | JBool true => "true"
  | JBool false => "false"
  | JNum n => Num.to_string n
  | JStr s => s
  | JObj _ => "[object Object]"
  end.

(** [a || b] *)
Definition or_else (a b : JsValue) : JsValue := if truthy a then a else b.

Definition mkDetails (error : Thrown) : ApiError.Details := {|
  ApiError.requestId :=
    match error_config error with
    | Some c =>
        match Config.metadata c with
        | Some m =>
            if requestIdIsEmpty (requestId m) then None else Some (requestId m)
        | None => None
        end
    | None => None
    end;
  ApiError.url :=
    match error_config error with Some c => Config.url c | None => None end;
  ApiError.method :=
    match error_config error with
    | Some c => option_map toUpperCase (Config.method c)
    | None => None
    end;
  ApiError.suggestion := None;
  ApiError.statusCode := None;
  ApiError.errorCode := None;
  ApiError.validationErrors := None;
  ApiError.apiResponse := None
|}.

Definition suggesting (text : string) (d : ApiError.Details) : ApiError.Details := {|
  ApiError.requestId := ApiError.requestId d;
  ApiError.url := ApiError.url d;
  ApiError.method := ApiError.method d;
  ApiError.suggestion := Some text;
  ApiError.statusCode := ApiError.statusCode d;
  ApiError.errorCode := ApiError.errorCode d;
  ApiError.validationErrors := ApiError.validationErrors d;
  ApiError.apiResponse := ApiError.apiResponse d
|}.

Definition mkApiError (code : ErrorCode) (message : string)
    (retryAfter : option Num.t) (details : ApiError.Details) : ApiError.t := {|
  ApiError.code := code;
  ApiError.message := message;
  ApiError.retryAfter := retryAfter;
  ApiError.details := details
|}.

(** The branches of [transformError] for an error that carries a
    response, in the order of the source. *)
Definition transformResponseError (error : Thrown) (response : Response.t)
  : option ApiError.t :=
  let status := Response.status response in
  let d := mkDetails error in
  let responseData := or_else (Response.data response) (JObj []) in
  if status =? 403 then
    Some (mkApiError UNAUTHORIZED
      "Access forbidden. Insufficient permissions for this Help Scout resource."
      None
      (suggesting "Check if your API key has access to this mailbox or resource" d))
  else if status =? 404 then
    Some (mkApiError NOT_FOUND
      "Help Scout resource not found. The requested conversation, mailbox, or thread does not exist."
      None
      (suggesting "Verify the ID is correct and the resource exists" d))
  else if status =? 429 then
    let retryAfter := parseInt (retry_after_header response) in
    Some (mkApiError RATE_LIMIT
      ("Help Scout API rate limit exceeded. Please wait "
         ++ Num.to_string retryAfter ++ " seconds before retrying.")%string
      (Some retryAfter)
      (suggesting "Reduce request frequency or implement request batching" d))
  else if status =? 422 then
    Some (mkApiError INVALID_INPUT
      ("Help Scout API validation error: "
         ++ display (or_else (prop responseData "message") (JStr "Invalid request data")))%string
      None
      {| ApiError.requestId := ApiError.requestId d;
         ApiError.url := ApiError.url d;
         ApiError.method := ApiError.method d;
         ApiError.suggestion :=
           Some "Check the request parameters match Help Scout API requirements";
         ApiError.statusCode := None;
         ApiError.errorCode := None;
         ApiError.validationErrors :=
           Some (or_else (prop responseData "errors") responseData);
         ApiError.apiResponse := None |})
  else if negb (status =? 0) && (400 <=? status) && (status <? 500) then
    Some (mkApiError INVALID_INPUT
      ("Help Scout API client error: "
         ++ display (or_else (prop responseData "message") (JStr "Invalid request")))%string
      None
      {| ApiError.requestId := ApiError.requestId d;
         ApiError.url := ApiError.url d;
         ApiError.method := ApiError.method d;
         ApiError.suggestion := None;
         ApiError.statusCode := Some status;
         ApiError.errorCode := None;
         ApiError.validationErrors := None;
         ApiError.apiResponse := Some responseData |})
  else None.

(** The branches of [transformError] below the 4xx ones. *)
Definition transformUpstreamError (error : Thrown) : ApiError.t :=
  let d := mkDetails error in
  let timedOut :=
    match error_code error with
    | Some c => (c =? "ECONNABORTED")%string
    | None => false
    end in
  let with_code (d0 : ApiError.Details) (suggestion : string) := {|
    ApiError.requestId := ApiError.requestId d0;
    ApiError.url := ApiError.url d0;
    ApiError.method := ApiError.method d0;
    ApiError.suggestion := Some suggestion;
    ApiError.statusCode := None;
    ApiError.errorCode := error_code error;
    ApiError.validationErrors := None;
    ApiError.apiResponse := None |} in
  if timedOut then
    mkApiError UPSTREAM_ERROR
      "Help Scout API request timed out. The service may be experiencing high load."
      None
      (with_code d "Request will be automatically retried with exponential backoff")
  else
    match error_status error with
    | Some status =>
        if negb (status =? 0) && (500 <=? status) then
          mkApiError UPSTREAM_ERROR
            ("Help Scout API server error ("
               ++ NilZero.string_of_int (Z.to_int status)
               ++ "). The service is temporarily unavailable.")%string
            None
            {| ApiError.requestId := ApiError.requestId d;
               ApiError.url := ApiError.url d;
               ApiError.method := ApiError.method d;
               ApiError.suggestion :=
                 Some "Request will be automatically retried with exponential backoff";
               ApiError.statusCode := Some status;
               ApiError.errorCode := None;
               ApiError.validationErrors := None;
               ApiError.apiResponse := None |}
        else
          mkApiError UPSTREAM_ERROR
            ("Help Scout API error: "
               ++ (if (error_message error =? "")%string
                   then "Unknown upstream service error" else error_message error))%string
            None
            (with_code d "Check your network connection and Help Scout service status")
    | None =>
        mkApiError UPSTREAM_ERROR
          ("Help Scout API error: "
             ++ (if (error_message error =? "")%string
                 then "Unknown upstream service error" else error_message error))%string
          None
          (with_code d "Check your network connection and Help Scout service status")
    end.

Definition transformError (error : Thrown) : Async World ApiError.t :=
  fun w0 =>
    let w := record (Normalized error) w0 in
    if status_is error 401 then
      (Resolved (mkApiError UNAUTHORIZED
         "Help Scout authentication failed. Please check your API credentials."
         None
         (suggesting "Verify HELPSCOUT_API_KEY is valid and has proper permissions"
            (mkDetails error))),
       with_token None (tokenExpiresAt (client w)) w)
    else
      match error_response error with
      | Some response =>
          match transformResponseError error response with
          | Some apiError => (Resolved apiError, w)
          | None => (Resolved (transformUpstreamError error), w)
          end
      | None => (Resolved (transformUpstreamError error), w)
      end.

(* ------------------------------------------------------------------ *)
(** ** The axios instance and its interceptors *)

(** [validateStatus] given to [axios.create]. *)
Definition validateStatus (status : Z) : bool := status <? 500.

(** The [code] axios gives an error made from a response it rejects. *)
Definition settleCode (status : Z) : option string :=
  match status / 100 - 4 with
  | 0 => Some "ERR_BAD_REQUEST"
  | 1 => Some "ERR_BAD_RESPONSE"
  | _ => None
  end.

(** The behaviour of the axios library, from its documentation: the
    adapter sends the request; a reply whose status passes
    [validateStatus] resolves the promise, any other reply rejects it with
    an error that carries the response, and no reply at all (network
    failure, timeout) rejects it with an error without a response.  An
    empty [api] script is an unreachable network. *)
Definition dispatchRequest (request : Config.t) : Async World Response.t :=
  fun w =>
    let w1 := record (Sent request) w in
    let failed (response : option Response.t) (code : option string) (message : string) :=
      ThrownAxios {| AxiosError.response := response;
                     AxiosError.code := code;
                     AxiosError.message := message;
                     AxiosError.config := Some request |} in
    match api w1 with
    | [] => (Rejected (failed None None "Network Error"), w1)
    | Answer response :: rest =>
        if validateStatus (Response.status response)
        then (Resolved response, with_api rest w1)
        else (Rejected (failed (Some response) (settleCode (Response.status response))
                ("Request failed with status code "
                   ++ NilZero.string_of_int (Z.to_int (Response.status response)))%string),
              with_api rest w1)
    | NoAnswer code message :: rest =>
        (Rejected (failed None code message), with_api rest w1)
    end.

(** The request interceptor. *)
Definition onRequest (request : Config.t) : Async World Config.t :=
  ensureAuthenticated ;;
  (fun w =>
     let token := accessToken (client w) in
     let (draw, w1) := random w in
     (Resolved {| Config.method := Config.method request;
                  Config.url := Config.url request;
                  Config.params := Config.params request;
                  Config.data := Config.data request;
                  Config.Authorization :=
                    if nonempty token
                    then Some ("Bearer " ++ or_default token "")%string
                    else Config.Authorization request;
                  Config.metadata :=
                    Some {| requestId := draw; startTime := now w1 |} |},
      logger Debug "API request" w1)).

(** The response interceptor, success side. *)
Definition onResponse (response : Response.t) : Async World Response.t :=
  effect (logger Debug "API response") ;; ret response.

(** The response interceptor, failure side. *)
Definition onResponseError (error : Thrown) : Async World Response.t :=
  effect (logger Error "API error") ;;
  apiError <- transformError error ;;
  throw (ThrownApi apiError).

(** [promise.then(onFulfilled, onRejected)] *)
Definition then_ {S A B} (p : Async S A) (onFulfilled : A -> Async S B)
    (onRejected : Thrown -> Async S B) : Async S B :=
  fun s =>
    match p s with
    | (Resolved a, s1) => onFulfilled a s1
    | (Rejected e, s1) => onRejected e s1
    end.

(** [this.client.request(config)]: axios chains the request interceptor,
    the dispatch and the response interceptor with [then]; a rejection of
    the request interceptor or of the dispatch reaches the failure side of
    the response interceptor. *)
Definition clientRequest (request : Config.t) : Async World Response.t :=
  then_ (prepared <- onRequest request ;; dispatchRequest prepared)
    onResponse onResponseError.

Definition mkRequest (method endpoint : string) (params : Params) (data : JsValue)
  : Config.t := {|
  Config.method := Some method;
  Config.url := Some endpoint;
  Config.params := params;
  Config.data := data;
  Config.Authorization := None;
  Config.metadata := None
|}.

(** [this.client.get(endpoint, { params })] and its siblings. *)
Definition client_get (endpoint : string) (params : Params) : Async World Response.t :=
  clientRequest (mkRequest "get" endpoint params JUndefined).

Definition client_put (endpoint : string) (data : JsValue) : Async World Response.t :=
  clientRequest (mkRequest "put" endpoint None data).

Definition client_post (endpoint : string) (data : JsValue) : Async World Response.t :=
  clientRequest (mkRequest "post" endpoint None data).

Definition client_patch (endpoint : string) (data : JsValue) : Async World Response.t :=
  clientRequest (mkRequest "patch" endpoint None data).

(* ------------------------------------------------------------------ *)
(** ** The public verbs *)

Definition getDefaultCacheTtl (endpoint : string) : Z :=
  if includes endpoint "/conversations" then 300
  else if includes endpoint "/mailboxes" then 1440
  else if includes endpoint "/threads" then 300
  else 300.

(** [get(endpoint, params, cacheOptions)].  [cacheOptions] is [None] when
    the argument is left out; its [ttl] is [None] when the property is. *)
Definition get (endpoint : string) (params : Params) (cacheOptions : option (option Z))
  : Async World JsValue :=
  fun w =>
    let cacheKey := ("GET:" ++ endpoint)%string in
    let (cachedResult, w1) := cache_get cacheKey params w in
    if truthy cachedResult then (Resolved cachedResult, w1)
    else
      (response <- executeWithRetry (client_get endpoint params) defaultRetryConfig ;;
       match cacheOptions with
       | Some (Some ttl) =>
           effect (cache_set cacheKey params (Response.data response) ttl)
       | _ =>
           let defaultTtl := getDefaultCacheTtl endpoint in
           effect (cache_set cacheKey params (Response.data response) defaultTtl)
       end ;;
       ret (Response.data response)) w1.

(** [put(endpoint, data)]; a [void] return is [JUndefined]. *)
Definition put (endpoint : string) (data : JsValue) : Async World JsValue :=
  response <- executeWithRetry (client_put endpoint data) defaultRetryConfig ;;
  if Response.status response =? 204 then ret JUndefined
  else ret (Response.data response).

(** [{ ...v }]: the own enumerable properties of [v]. *)
Fixpoint indexed (i : nat) (s : string) : list (string * JsValue) :=
  match s with
  | String c s' =>
      (NilZero.string_of_uint (Nat.to_uint i), JStr (String c EmptyString))
        :: indexed (Datatypes.S i) s'
  | EmptyString => []
  end.

Definition ownProperties (v : JsValue) : list (string * JsValue) :=
  match v with
  | JObj fields => fields
  | JStr s => indexed 0 s
  | _ => []
  end.

Fixpoint setProperty (name : string) (v : JsValue) (fields : list (string * JsValue))
  : list (string * JsValue) :=
  match fields with
  | [] => [(name, v)]
  | (k, x) :: rest =>
      if (k =? name)%string then (k, v) :: rest else (k, x) :: setProperty name v rest
  end.

(** [post(endpoint, data)] *)
Definition post (endpoint : string) (data : JsValue) : Async World JsValue :=
  response <- executeWithRetry (client_post endpoint data) defaultRetryConfig ;;
  if nonempty (assoc "resource-id" (Response.headers response)) then
    let id := parseInt (or_default (assoc "resource-id" (Response.headers response)) "") in
    effect (logger Debug "Resource created with ID from header") ;;
    ret (JObj (setProperty "id" (JNum id) (ownProperties (Response.data response))))
  else ret (Response.data response).

(** [patch(endpoint, data)] *)
Definition patch (endpoint : string) (data : JsValue) : Async World JsValue :=
  response <- executeWithRetry (client_patch endpoint data) defaultRetryConfig ;;
  if Response.status response =? 204 then ret JUndefined
  else ret (Response.data response).

(** [getAttachmentData(conversationId, attachmentId)] *)
Definition getAttachmentData (conversationId attachmentId : string)
  : Async World JsValue :=
  let endpoint :=
    ("/conversations/" ++ conversationId ++ "/attachments/" ++ attachmentId ++ "/data")%string in
  effect (logger Info "Downloading attachment data") ;;
  response <- executeWithRetry (client_get endpoint None) defaultRetryConfig ;;
  ret (Response.data response).

(* ------------------------------------------------------------------ *)
(** ** The connection pool *)

(** [new HttpAgent(options)] / [new HttpsAgent(options)]: the new agent
    goes to the end of the store and is named by its index. *)
Definition newAgent (isSecure : bool) (opts : ConnectionPoolConfig) (w : World)
  : nat * World :=
  let ref := List.length (agents w) in
  (ref,
   record (AgentCreated ref)
     (with_agents (agents w ++ [{| secure := isSecure; options := opts;
                                    destroyed := false |}]) w)).

Fixpoint markDestroyed (ref : nat) (store : list Agent) : list Agent :=
  match store, ref with
  | [], _ => []
  | a :: rest, O =>
      {| secure := secure a; options := options a; destroyed := true |} :: rest
  | a :: rest, Datatypes.S ref' => a :: markDestroyed ref' rest
  end.

(** [agent.destroy()] *)
Definition destroy (ref : nat) (w : World) : World :=
  record (AgentDestroyed ref) (with_agents (markDestroyed ref (agents w)) w).

(** [new HelpScoutClient(poolConfig)], run in a world that holds the
    configuration; [None] is a missing argument. *)
Definition constructor (poolConfig : option PartialPoolConfig) (w : World) : World :=
  let finalPoolConfig := spread DEFAULT_POOL_CONFIG (or_default poolConfig emptyPoolConfig) in
  let agentOptions := {|
    keepAlive := keepAlive finalPoolConfig;
    keepAliveMsecs := keepAliveMsecs finalPoolConfig;
    maxSockets := maxSockets finalPoolConfig;
    maxFreeSockets := maxFreeSockets finalPoolConfig;
    timeout := timeout finalPoolConfig |} in
  let (http, w1) := newAgent false agentOptions w in
  let (https, w2) := newAgent true agentOptions w1 in
  logger Info "HTTP connection pool initialized"
    (with_client {| accessToken := None; tokenExpiresAt := 0;
                    httpAgent := http; httpsAgent := https;
                    axiosHttpAgent := http; axiosHttpsAgent := https |} w2).

(** [clearIdleConnections()] *)
Definition clearIdleConnections (w : World) : World :=
  let w1 := destroy (httpAgent (client w)) w in
  let w2 := destroy (httpsAgent (client w1)) w1 in
  let poolConfig := {|
    keepAlive := true;
    keepAliveMsecs := 1000;
    maxSockets := 50;
    maxFreeSockets := 10;
    timeout := 30000 |} in
  let (http, w3) := newAgent false poolConfig w2 in
  let (https, w4) := newAgent true poolConfig w3 in
  logger Debug "Cleared idle connections"
    (with_client {| accessToken := accessToken (client w4);
                    tokenExpiresAt := tokenExpiresAt (client w4);
                    httpAgent := http; httpsAgent := https;
                    axiosHttpAgent := axiosHttpAgent (client w4);
                    axiosHttpsAgent := axiosHttpsAgent (client w4) |} w4).

(** [closePool()] *)
Definition closePool : Async World unit :=
  effect (logger Info "Closing HTTP connection pool") ;;
  effect (fun w => destroy (httpAgent (client w)) w) ;;
  effect (fun w => destroy (httpsAgent (client w)) w) ;;
  effect (sleep (Num.of_Z 100)) ;;
  effect (logger Info "All HTTP connections closed").

(** The options of the agent a reference names. *)
Definition agentOptions (w : World) (ref : nat) : option ConnectionPoolConfig :=
  option_map options (nth_error (agents w) ref).

Definition agentDestroyed (w : World) (ref : nat) : option bool :=
  option_map destroyed (nth_error (agents w) ref).

(* ------------------------------------------------------------------ *)
(** ** Observations on a trace *)

Definition isSent (e : Event) : bool :=
  match e with Sent _ => true | _ => false end.

Definition isSlept (e : Event) : bool :=
  match e with Slept _ => true | _ => false end.

Definition isNormalized (e : Event) : bool :=
  match e with Normalized _ => true | _ => false end.

Definition isCacheEvent (e : Event) : bool :=
  match e with CacheRead _ _ | CacheWritten _ _ _ _ => true | _ => false end.

Definition isTokenRequested (e : Event) : bool :=
  match e with TokenRequested => true | _ => false end.

Definition count (p : Event -> bool) (w : World) : nat :=
  List.length (filter p (trace w)).

(** Requests put on the wire towards the API. *)
Definition networkCalls : World -> nat := count isSent.
(** Suspensions on the timer. *)
Definition sleeps : World -> nat := count isSlept.
(** Runs of [transformError]. *)
Definition normalizations : World -> nat := count isNormalized.
(** Reads and writes of the cache store. *)
Definition cacheAccesses : World -> nat := count isCacheEvent.
(** Requests to the OAuth2 token endpoint. *)
Definition tokenRequests : World -> nat := count isTokenRequested.

(** The delays slept, oldest first. *)
Definition delaysSlept (w : World) : list Num.t :=
  rev (flat_map (fun e => match e with Slept d => [d] | _ => [] end) (trace w)).

Definition isApiError {A} (r : Settled A) : bool :=
  match r with
  | Rejected (ThrownApi _) => true
  | _ => false
  end.

(** [Delta sent slept normalized w w']: between [w] and [w'] the client
    put [sent] requests on the wire, suspended [slept] times on the timer
    and ran [transformError] [normalized] times, and it neither read nor
    wrote the cache store. *)
Definition Delta (sent slept normalized : nat) (w w' : World) : Prop :=
  cache w' = cache w /\
  cacheAccesses w' = cacheAccesses w /\
  networkCalls w' = (networkCalls w + sent)%nat /\
  sleeps w' = (sleeps w + slept)%nat /\
  normalizations w' = (normalizations w + normalized)%nat.

(** [Quiet w w']: nothing went on the wire, on the timer or through
    [transformError] between [w] and [w']. *)
Definition Quiet (w w' : World) : Prop :=
  networkCalls w' = networkCalls w /\
  sleeps w' = sleeps w /\
  normalizations w' = normalizations w.

(* ------------------------------------------------------------------ *)
(** ** Counting the attempts of the retry executor *)

Section Counting.

Context {S : Type} `{Runtime S}.

(** The runtime of [S] next to a counter it never touches. *)
#[global] Instance Runtime_counted : Runtime (S * nat) := {|
  sleep := fun delay sn => (sleep delay (fst sn), snd sn);
  random := fun sn => let (r, s1) := random (fst sn) in (r, (s1, snd sn));
  logger := fun level msg sn => (logger level msg (fst sn), snd sn)
|}.

(** [operation] with a call counter, as a test double would wrap it. *)
Definition counted (operation : Async S Response.t) : Async (S * nat) Response.t :=
  fun sn =>
    let (r, s1) := operation (fst sn) in
    (r, (s1, Datatypes.S (snd sn))).

(** How often [executeWithRetry] calls [operation] when started in [s]. *)
Definition attempts (operation : Async S Response.t) (retryConfig : RetryConfig)
    (s : S) : nat :=
  snd (snd (executeWithRetry (counted operation) retryConfig (s, O))).

End Counting.

(** The iterations of the loop that end in a retry.
    [Retried operation retryConfig k s k' s']: the loop being at
    iteration [k] in state [s], each of the iterations [k] to [k' - 1]
    calls the operation, sees it fail with an error the policy retries
    before the last iteration, and waits; iteration [k'] then starts in
    state [s']. *)
Inductive Retried {S : Type} `{Runtime S} (operation : Async S Response.t)
    (retryConfig : RetryConfig) : Z -> S -> Z -> S -> Prop :=
| Retried_here : forall (k : Z) (s : S),
    Retried operation retryConfig k s k s
| Retried_again : forall (k : Z) (s : S) (e : Thrown) (s1 : S) (k' : Z) (s' : S),
    operation s = (Rejected e, s1) ->
    k < retries retryConfig ->
    shouldRetry retryConfig e = true ->
    Retried operation retryConfig (k + 1)
      (snd (waitBeforeRetry retryConfig k e s1)) k' s' ->
    Retried operation retryConfig k s k' s'.

(* ------------------------------------------------------------------ *)
(** ** Sample worlds *)

Definition sampleConfig : HelpscoutConfig := {|
  baseUrl := "https://api.helpscout.net/v2/";
  apiKey := Some "Bearer pat-123";
  clientId := Some "client-id";
  clientSecret := Some "client-secret"
|}.

Definition emptyWorld (cfg : HelpscoutConfig) : World := {|
  config := cfg;
  client := {| accessToken := None; tokenExpiresAt := 0; httpAgent := O;
               httpsAgent := O; axiosHttpAgent := O; axiosHttpsAgent := O |};
  agents := [];
  cache := [];
  now := 1700000000000;
  randoms := [];
  api := [];
  oauth := [];
  trace := []
|}.

(** A client built with the default pool, then facing the given replies. *)
Definition worldWith (replies : list Reply) : World :=
  with_api replies
    (with_randoms [1 # 2; 1 # 4; 3 # 4; 1 # 8; 1 # 3; 2 # 3; 1 # 5; 1 # 7]%Q
       (constructor None (emptyWorld sampleConfig))).

Definition reply (status : Z) (headers : Headers) (data : JsValue) : Reply :=
  Answer {| Response.status := status; Response.headers := headers;
            Response.data := data |}.

(** Four server errors in a row, then a success that comes too late. *)
Definition outageWorld : World :=
  worldWith [reply 500 [] JNull; reply 500 [] JNull; reply 503 [] JNull;
             reply 500 [] JNull; reply 200 [] (JStr "late")].

(** A rate-limit reply that asks for five seconds, then a success. *)
Definition rateLimitedWorld : World :=
  worldWith [reply 429 [("retry-after", "5")] (JStr "Too Many Requests");
             reply 200 [] (JStr "ok")].

(** The resource does not exist. *)
Definition notFoundWorld : World :=
  worldWith [reply 404 [] (JObj [("message", JStr "Not Found")])].

(** The upstream service turns the token down, then would accept a call. *)
Definition unauthorizedWorld : World :=
  worldWith [reply 401 [] (JObj [("error", JStr "invalid_token")]);
             reply 200 [] (JStr "ok")].

(** A client built with five sockets per pool. *)
Definition fiveSockets : PartialPoolConfig := {|
  maxSockets' := Some 5;
  maxFreeSockets' := None;
  timeout' := None;
  keepAlive' := None;
  keepAliveMsecs' := None
|}.

Definition customPoolWorld : World :=
  constructor (Some fiveSockets) (emptyWorld sampleConfig).

(** The cache holds an empty body for the conversation, still fresh. *)
Definition emptyBodyCached : World :=
  with_cache [{| entryKey := "GET:/conversations/1"; entryParams := None;
                 entryValue := JStr ""; entryExpires := 1700000300000 |}]
    (worldWith [reply 200 [] (JStr "fresh")]).

(** A raw transport error that carries a response. *)
Definition rawError (status : Z) (headers : Headers) : Thrown :=
  ThrownAxios {|
    AxiosError.response :=
      Some {| Response.status := status; Response.headers := headers;
              Response.data := JNull |};
    AxiosError.code := settleCode status;
    AxiosError.message := "Request failed";
    AxiosError.config := None
  |}.

(* ------------------------------------------------------------------ *)
(** ** Calls on the facade *)

(** The public verbs with their arguments. *)
Inductive Call : Type :=
| Get (endpoint : string) (params : Params) (cacheOptions : option (option Z))
| Put (endpoint : string) (data : JsValue)
| Post (endpoint : string) (data : JsValue)
| Patch (endpoint : string) (data : JsValue)
| GetAttachmentData (conversationId attachmentId : string).

Definition run (c : Call) : Async World JsValue :=
  match c with
  | Get endpoint params cacheOptions => get endpoint params cacheOptions
  | Put endpoint data => put endpoint data
  | Post endpoint data => post endpoint data
  | Patch endpoint data => patch endpoint data
  | GetAttachmentData conversationId attachmentId =>
      getAttachmentData conversationId attachmentId
  end.

(** What a call that went through the retry executor leaves behind:
    [failed] attempts were retried after a sleep each, and the attempt
    that settled the call was normalised too when it failed. *)
Definition Executed {A} (w : World) (out : Settled A * World) : Prop :=
  exists failed sent : nat,
    (failed <= 3)%nat /\
    (sent <= failed + 1)%nat /\
    networkCalls (snd out) = (networkCalls w + sent)%nat /\
    sleeps (snd out) = (sleeps w + failed)%nat /\
    match fst out with
    | Resolved _ =>
        (1 <= sent)%nat /\
        normalizations (snd out) = (normalizations w + failed)%nat
    | Rejected e =>
        (exists a, e = ThrownApi a) /\
        normalizations (snd out) = (normalizations w + failed + 1)%nat
    end.

(* ------------------------------------------------------------------ *)
(** ** The connection test *)

(** [testConnection()] *)
Definition testConnection : Async World bool :=
  try_catch
    (get "/mailboxes"
       (Some [("page", JNum (Num.of_Z 1)); ("size", JNum (Num.of_Z 1))]) None ;;
     ret true)
    (fun error =>
       effect (logger Error "Connection test failed") ;;
       ret false).

(* ------------------------------------------------------------------ *)
(** ** Further observations *)

(** The requests put on the wire, oldest first. *)
Definition sentRequests (w : World) : list Config.t :=
  rev (flat_map (fun e => match e with Sent r => [r] | _ => [] end) (trace w)).

(** The calls of [cache.set], oldest first. *)
Definition cacheWrites (w : World) : list (string * Params * JsValue * Z) :=
  rev (flat_map (fun e => match e with
                          | CacheWritten key params value ttl => [(key, params, value, ttl)]
                          | _ => []
                          end) (trace w)).

(** The test [authenticate] makes for a personal access token. *)
Definition staticToken (cfg : HelpscoutConfig) : bool :=
  nonempty (apiKey cfg) && startsWith (or_default (apiKey cfg) "") "Bearer ".

(** The test [authenticate] makes before it asks for a token. *)
Definition credentialsMissing (cfg : HelpscoutConfig) : bool :=
  negb (nonempty (clientId cfg)) || negb (nonempty (clientSecret cfg)).

(** A reply that makes axios reject: no answer at all, or a status that
    [validateStatus] turns down. *)
Definition isServerFailure (r : Reply) : bool :=
  match r with
  | Answer response => negb (validateStatus (Response.status response))
  | NoAnswer _ _ => true
  end.

(** The events a request handled by the axios instance can leave. *)
Definition isRequestEvent (e : Event) : bool :=
  match e with
  | Logged _ _ | Sent _ | TokenRequested | Normalized _ => true
  | _ => false
  end.

(** [Appends p w w']: the trace of [w'] is the trace of [w] with events
    in front that all satisfy [p]. *)
Definition Appends (p : Event -> bool) (w w' : World) : Prop :=
  exists new, trace w' = (new ++ trace w)%list /\ forallb p new = true.

(** [Untouched w w']: the configuration, the agent store and the agents
    the client and its axios instance hold are the same in [w] and [w']. *)
Definition Untouched (w w' : World) : Prop :=
  config w' = config w /\
  agents w' = agents w /\
  httpAgent (client w') = httpAgent (client w) /\
  httpsAgent (client w') = httpsAgent (client w) /\
  axiosHttpAgent (client w') = axiosHttpAgent (client w) /\
  axiosHttpsAgent (client w') = axiosHttpsAgent (client w).

(** A delay that is a number and at most [limit]. *)
Definition capped (limit : Q) (delay : Num.t) : Prop :=
  match delay with
  | Num.Finite q => (q <= limit)%Q
  | Num.NaN => False
  end.

(** [Math.random] answers in the interval from 0 (included) to 1
    (excluded). *)
Definition unitDraws (draws : list Q) : Prop :=
  Forall (fun r => (0 <= r)%Q /\ (r < 1)%Q) draws.

(** The delays of the default policy without the cap, from attempt index
    [i] on: the base doubled [i] times, and at most a tenth more. *)
Fixpoint banded (i : nat) (delays : list Q) : Prop :=
  match delays with
  | [] => True
  | d :: rest =>
      (1000 * 2 ^ Z.of_nat i <= d)%Q /\ (d <= 1100 * 2 ^ Z.of_nat i)%Q /\
      banded (Datatypes.S i) rest
  end.

(** A world whose client holds no token and has neither a personal
    access token nor OAuth2 credentials to get one. *)
Definition noCredentials : World :=
  emptyWorld {| baseUrl := "https://api.helpscout.net/v2/"; apiKey := None;
                clientId := None; clientSecret := None |}.

(** A client with OAuth2 credentials facing a token endpoint that grants
    a token for one hour. *)
Definition oauthWorld : World :=
  with_oauth [Granted "oauth-token" 3600]
    (emptyWorld {| baseUrl := "https://api.helpscout.net/v2/"; apiKey := None;
                   clientId := Some "client-id";
                   clientSecret := Some "client-secret" |}).

(** Two server errors, then a success. *)
Definition flakyWorld : World :=
  worldWith [reply 502 [] JNull; NoAnswer (Some "ECONNABORTED") "timeout of 30000ms exceeded";
             reply 200 [] (JStr "ok"); reply 200 [] (JStr "unused")].

(** The upstream service creates a resource and names it in a header. *)
Definition createdWorld : World :=
  worldWith [reply 201 [("resource-id", "4711")] (JObj [("subject", JStr "Hello")])].

(* ================================================================== *)
(** * Properties *)

(* ------------------------------------------------------------------ *)
(** ** The retry loop *)

Section RetryFacts.

Context {S : Type} `{Runtime S}.
Variable operation : Async S Response.t.
Variable retryConfig : RetryConfig.

Lemma waitBeforeRetry_resolves (attempt : Z) (e : Thrown) (s : S) :
  fst (waitBeforeRetry retryConfig attempt e s) = Resolved tt.
Proof.
  unfold waitBeforeRetry, calculateRetryDelay, bind, effect.
  destruct (error_response e) as [response|].
  - destruct (Response.status response =? 429); [reflexivity|].
    destruct (random s); reflexivity.
  - destruct (random s); reflexivity.
Qed.

(** One iteration of the loop, as an equation. *)
Lemma retryLoop_step (n : nat) (attempt : Z) (last : option Thrown) (s : S) :
  attempt <= retries retryConfig ->
  retryLoop operation retryConfig (Datatypes.S n) attempt last s =
  match operation s with
  | (Resolved r, s1) => (Resolved r, s1)
  | (Rejected e, s1) =>
      if attempt =? retries retryConfig then (Rejected e, s1)
      else if negb (shouldRetry retryConfig e) then (Rejected e, s1)
      else retryLoop operation retryConfig n (attempt + 1) (Some e)
             (snd (waitBeforeRetry retryConfig attempt e s1))
  end.
Proof.
  intros Hle. cbn [retryLoop].
  apply Z.leb_le in Hle. rewrite Hle.
  unfold try_catch. destruct (operation s) as [[r|e] s1]; [reflexivity|].
  destruct (attempt =? retries retryConfig); [reflexivity|].
  destruct (negb (shouldRetry retryConfig e)); [reflexivity|].
  unfold bind.
  pose proof (waitBeforeRetry_resolves attempt e s1) as Hw.
  destruct (waitBeforeRetry retryConfig attempt e s1) as [[[]|x] s2];
    cbn in Hw; [reflexivity | discriminate].
Qed.

(** The iterations handed to the loop are exactly those its condition
    [attempt <= retries] allows: they run out only when it is false. *)
Lemma retryLoop_O_exit (attempt : Z) :
  0 <= attempt ->
  Z.to_nat (retries retryConfig + 1 - attempt) = O ->
  (attempt <=? retries retryConfig) = false.
Proof.
  intros Hpos Hz. apply Z.leb_gt. lia.
Qed.

Lemma retryLoop_budget (n : nat) (attempt : Z) :
  attempt <= retries retryConfig ->
  Z.to_nat (retries retryConfig + 1 - attempt) = n ->
  exists n', n = Datatypes.S n' /\
             (attempt < retries retryConfig ->
              Z.to_nat (retries retryConfig + 1 - (attempt + 1)) = n').
Proof.
  intros Hle Hn. exists (Nat.pred n). split; lia.
Qed.

(** *** A proof rule for the executor

    [Inv k s]: [s] is a state in which iteration [k] may start.
    [Post r s]: the executor may settle with [r] in state [s]. *)
Section Rule.

Variable Inv : Z -> S -> Prop.
Variable Post : Settled Response.t -> S -> Prop.

Hypothesis on_success : forall k s r s1,
  Inv k s -> 0 <= k <= retries retryConfig ->
  operation s = (Resolved r, s1) -> Post (Resolved r) s1.

Hypothesis on_give_up : forall k s e s1,
  Inv k s -> 0 <= k <= retries retryConfig ->
  operation s = (Rejected e, s1) ->
  k = retries retryConfig \/ shouldRetry retryConfig e = false ->
  Post (Rejected e) s1.

Hypothesis on_retry : forall k s e s1,
  Inv k s -> 0 <= k < retries retryConfig ->
  operation s = (Rejected e, s1) ->
  shouldRetry retryConfig e = true ->
  Inv (k + 1) (snd (waitBeforeRetry retryConfig k e s1)).

Hypothesis on_no_attempt : forall s,
  Inv 0 s -> retries retryConfig < 0 ->
  Post (Rejected (ThrownError "Request failed without error details")) s.

Lemma retryLoop_rule (n : nat) :
  forall (k : Z) (last : option Thrown) (s : S),
    0 <= k <= retries retryConfig ->
    Z.to_nat (retries retryConfig + 1 - k) = n ->
    Inv k s ->
    Post (fst (retryLoop operation retryConfig n k last s))
         (snd (retryLoop operation retryConfig n k last s)).
Proof.
  induction n as [|n IH]; intros k last s Hk Hn Hinv.
  - lia.
  - rewrite retryLoop_step by lia.
    destruct (operation s) as [[r|e] s1] eqn:Hop.
    + cbn. eapply on_success; eauto.
    + destruct (Z.eqb_spec k (retries retryConfig)) as [Heq|Hne].
      * cbn. eapply on_give_up; eauto.
      * destruct (shouldRetry retryConfig e) eqn:Hsr; cbn [negb].
        -- apply IH; [lia | lia |].
           eapply on_retry; eauto. lia.
        -- cbn. eapply on_give_up; eauto.
Qed.

Lemma executeWithRetry_rule (s : S) :
  Inv 0 s ->
  Post (fst (executeWithRetry operation retryConfig s))
       (snd (executeWithRetry operation retryConfig s)).
Proof.
  intros Hinv. unfold executeWithRetry.
  destruct (Z_lt_le_dec (retries retryConfig) 0) as [Hneg|Hpos].
  - replace (Z.to_nat (retries retryConfig + 1)) with O by lia.
    cbn. apply on_no_attempt; assumption.
  - apply retryLoop_rule; [lia | f_equal; lia | assumption].
Qed.

End Rule.

End RetryFacts.

(* ------------------------------------------------------------------ *)
(** ** Counting attempts *)

Section CountingFacts.

Context {S : Type} `{Runtime S}.
Variable operation : Async S Response.t.
Variable retryConfig : RetryConfig.

(** Waiting works on the state and leaves the counter alone. *)
Lemma waitBeforeRetry_counted (k : Z) (e : Thrown) (s : S) (c : nat) :
  waitBeforeRetry retryConfig k e (s, c) =
  (Resolved tt, (snd (waitBeforeRetry retryConfig k e s), c)).
Proof.
  unfold waitBeforeRetry, calculateRetryDelay, bind, effect.
  destruct (error_response e) as [response|].
  - destruct (Response.status response =? 429); [reflexivity|].
    cbn. destruct (random s); reflexivity.
  - cbn. destruct (random s); reflexivity.
Qed.

(** The counter changes nothing in what the executor does. *)
Lemma counted_erasure (n : nat) :
  forall (k : Z) (last : option Thrown) (s : S) (c : nat),
    (fst (retryLoop (counted operation) retryConfig n k last (s, c)),
     fst (snd (retryLoop (counted operation) retryConfig n k last (s, c)))) =
    retryLoop operation retryConfig n k last s.
Proof.
  induction n as [|n IH]; intros k last s c.
  - destruct last; reflexivity.
  - cbn [retryLoop]. destruct (k <=? retries retryConfig).
    + unfold try_catch, counted. cbn [fst snd].
      destruct (operation s) as [[r|e] s1]; [reflexivity|].
      destruct (k =? retries retryConfig); [reflexivity|].
      destruct (negb (shouldRetry retryConfig e)); [reflexivity|].
      unfold bind. rewrite waitBeforeRetry_counted.
      rewrite IH.
      pose proof (waitBeforeRetry_resolves retryConfig k e s1) as Hw.
      destruct (waitBeforeRetry retryConfig k e s1) as [[[]|x] s2];
        cbn in Hw |- *; [reflexivity | discriminate].
    + destruct last; reflexivity.
Qed.

Lemma attempts_bounds (s : S) :
  (attempts operation retryConfig s <= Z.to_nat (retries retryConfig + 1))%nat /\
  (0 <= retries retryConfig -> (1 <= attempts operation retryConfig s)%nat).
Proof.
  unfold attempts.
  apply (executeWithRetry_rule (counted operation) retryConfig
           (fun k sn => snd sn = Z.to_nat k)
           (fun _ sn =>
              (snd sn <= Z.to_nat (retries retryConfig + 1))%nat /\
              (0 <= retries retryConfig -> (1 <= snd sn)%nat))).
  - intros k [s0 c] r s1 Hinv Hk Hop. unfold counted in Hop. cbn in Hinv, Hop.
    destruct (operation s0). inversion Hop; subst. cbn. lia.
  - intros k [s0 c] e s1 Hinv Hk Hop _. unfold counted in Hop. cbn in Hinv, Hop.
    destruct (operation s0). inversion Hop; subst. cbn. lia.
  - intros k [s0 c] e s1 Hinv Hk Hop _. unfold counted in Hop. cbn in Hinv, Hop.
    destruct (operation s0) as [x s0']. inversion Hop; subst.
    rewrite waitBeforeRetry_counted. cbn. lia.
  - intros [s0 c] Hinv Hneg. cbn in *. lia.
  - reflexivity.
Qed.

End CountingFacts.

(* ------------------------------------------------------------------ *)
(** ** The default retry predicate *)

Lemma defaultRetryCondition_spec (e : Thrown) :
  defaultRetryCondition e = true <->
  (error_response e = None
   \/ error_code e = Some "ECONNABORTED"
   \/ exists response,
        error_response e = Some response /\
        (500 <= Response.status response <= 599 \/ Response.status response = 429)).
Proof.
  unfold defaultRetryCondition.
  destruct (error_response e) as [response|] eqn:Hr.
  - rewrite !orb_true_iff, andb_true_iff, Z.leb_le, Z.ltb_lt, Z.eqb_eq.
    split.
    + intros [[Hc | Hs] | Hs].
      * right; left. destruct (error_code e) as [c|]; [|discriminate].
        apply String.eqb_eq in Hc. now subst.
      * right; right. exists response. split; [reflexivity | left; lia].
      * right; right. exists response. split; [reflexivity | right; assumption].
    + intros [Hn | [Hc | [r [Hr' Hs]]]].
      * discriminate.
      * left; left. rewrite Hc. apply String.eqb_refl.
      * inversion Hr'; subst r. destruct Hs as [Hs | Hs]; [left; right; lia | right; assumption].
  - split; [intros _; left; reflexivity | reflexivity].
Qed.

(* ------------------------------------------------------------------ *)
(** ** Backoff arithmetic *)

Lemma backoffDelay_spec (r : Q) (attempt : Z) (baseDelay maxDelay : Q) :
  (0 <= r)%Q -> (r < 1)%Q -> (0 <= baseDelay)%Q ->
  let exponentialDelay := (baseDelay * 2 ^ attempt)%Q in
  let jitter := (r * (1 # 10) * exponentialDelay)%Q in
  (0 <= jitter)%Q /\
  (jitter <= (1 # 10) * exponentialDelay)%Q /\
  backoffDelay r attempt baseDelay maxDelay = Qmin (exponentialDelay + jitter) maxDelay /\
  (backoffDelay r attempt baseDelay maxDelay <= maxDelay)%Q.
Proof.
  intros Hr0 Hr1 Hb exponentialDelay jitter.
  assert (Hp : (0 < 2 ^ attempt)%Q) by (apply Qpower_0_lt; reflexivity).
  assert (He : (0 <= exponentialDelay)%Q).
  { unfold exponentialDelay. apply Qmult_le_0_compat; [assumption | apply Qlt_le_weak; assumption]. }
  assert (Ht : (0 <= r * (1 # 10))%Q).
  { apply Qmult_le_0_compat; [assumption | discriminate]. }
  repeat split.
  - unfold jitter. apply Qmult_le_0_compat; assumption.
  - unfold jitter. apply Qmult_le_compat_r; [|assumption].
    setoid_replace (1 # 10)%Q with (1 * (1 # 10))%Q at 2 by ring.
    apply Qmult_le_compat_r; [apply Qlt_le_weak; assumption | discriminate].
  - apply Q.le_min_r.
Qed.

(* ------------------------------------------------------------------ *)
(** ** One request through the axios instance *)

Ltac break_match :=
  match goal with
  | |- context [match ?x with _ => _ end] => destruct x eqn:?
  end.

Ltac delta :=
  unfold Delta, cacheAccesses, networkCalls, sleeps, normalizations,
    tokenRequests, count;
  cbn; repeat split; lia.

Lemma Delta_refl (w : World) : Delta 0 0 0 w w.
Proof. delta. Qed.

Lemma Delta_trans (a b c a' b' c' x y z : nat) (w w1 w2 : World) :
  Delta a b c w w1 -> Delta a' b' c' w1 w2 ->
  x = (a + a')%nat -> y = (b + b')%nat -> z = (c + c')%nat ->
  Delta x y z w w2.
Proof.
  unfold Delta. intros (H1 & H2 & H3 & H4 & H5) (G1 & G2 & G3 & G4 & G5) -> -> ->.
  repeat split; try congruence; lia.
Qed.

(** Chain two segments of a run. *)
Ltac chain H1 H2 :=
  eapply Delta_trans; [exact H1 | exact H2 | reflexivity | reflexivity | reflexivity].

Lemma requestToken_Delta (w : World) : Delta 0 0 0 w (snd (requestToken w)).
Proof.
  unfold requestToken. cbn.
  destruct (oauth w) as [|[access_token expires_in|error] rest]; delta.
Qed.

Lemma authenticate_Delta (w : World) : Delta 0 0 0 w (snd (authenticate w)).
Proof.
  unfold authenticate, try_catch.
  destruct (nonempty (apiKey (config w))
            && startsWith (or_default (apiKey (config w)) "") "Bearer ").
  - delta.
  - destruct (negb (nonempty (clientId (config w)))
              || negb (nonempty (clientSecret (config w)))).
    + delta.
    + unfold bind, effect, throw.
      pose proof (requestToken_Delta w) as Ht.
      destruct (requestToken w) as [[[token expires]|e] w1]; cbn in Ht |- *.
      * eapply Delta_trans; [exact Ht | | reflexivity..]. delta.
      * eapply Delta_trans; [exact Ht | | reflexivity..]. delta.
Qed.

Lemma ensureAuthenticated_Delta (w : World) :
  Delta 0 0 0 w (snd (ensureAuthenticated w)).
Proof.
  unfold ensureAuthenticated. destruct (tokenIsValid w).
  - apply Delta_refl.
  - apply authenticate_Delta.
Qed.

Lemma onRequest_Delta (request : Config.t) (w : World) :
  Delta 0 0 0 w (snd (onRequest request w)).
Proof.
  unfold onRequest, bind.
  pose proof (ensureAuthenticated_Delta w) as Ha.
  destruct (ensureAuthenticated w) as [[[]|e] w1]; cbn in Ha |- *; [|exact Ha].
  eapply Delta_trans; [exact Ha | | reflexivity..].
  destruct (randoms w1) as [|r rest]; delta.
Qed.

Lemma dispatchRequest_Delta (request : Config.t) (w : World) :
  Delta 1 0 0 w (snd (dispatchRequest request w)).
Proof.
  unfold dispatchRequest. cbn.
  destruct (api w) as [|[response|code message] rest].
  - delta.
  - destruct (validateStatus (Response.status response)); delta.
  - delta.
Qed.

(** [transformError] always gives an [ApiError], and each run is seen in
    the trace. *)
Lemma transformError_Delta (e : Thrown) (w : World) :
  (exists a, fst (transformError e w) = Resolved a) /\
  Delta 0 0 1 w (snd (transformError e w)).
Proof.
  unfold transformError.
  destruct (status_is e 401).
  - split; [eexists; reflexivity | delta].
  - destruct (error_response e) as [response|].
    + destruct (transformResponseError e response);
        (split; [eexists; reflexivity | delta]).
    + split; [eexists; reflexivity | delta].
Qed.

Lemma onResponseError_spec (e : Thrown) (w : World) :
  (exists a, fst (onResponseError e w) = Rejected (ThrownApi a)) /\
  Delta 0 0 1 w (snd (onResponseError e w)).
Proof.
  unfold onResponseError, bind, effect, throw.
  destruct (transformError_Delta e (logger Error "API error" w)) as [[a Ha] Hd].
  destruct (transformError e (logger Error "API error" w)) as [[a'|x] w1];
    cbn in Ha, Hd |- *; [|discriminate].
  split; [eexists; reflexivity|].
  eapply (Delta_trans 0 0 0 0 0 1); [| exact Hd | reflexivity..]. delta.
Qed.

(** One attempt: a reply that axios resolves costs one request on the
    wire and no normalisation; a failure, wherever it arises, is
    normalised once and reaches the caller as an [ApiError]. *)
Lemma clientRequest_spec (request : Config.t) (w : World) :
  match fst (clientRequest request w) with
  | Resolved _ => Delta 1 0 0 w (snd (clientRequest request w))
  | Rejected e =>
      (exists a, e = ThrownApi a) /\
      exists sent, (sent <= 1)%nat /\ Delta sent 0 1 w (snd (clientRequest request w))
  end.
Proof.
  unfold clientRequest, then_, bind.
  pose proof (onRequest_Delta request w) as Hq.
  destruct (onRequest request w) as [[prepared|e] w1]; cbn in Hq.
  - pose proof (dispatchRequest_Delta prepared w1) as Hd.
    destruct (dispatchRequest prepared w1) as [[response|e] w2]; cbn in Hd.
    + cbn. pose proof (Delta_trans _ _ _ _ _ _ _ _ _ _ _ _ Hq Hd eq_refl eq_refl eq_refl) as Hqd.
      eapply Delta_trans; [exact Hqd | | reflexivity..]. delta.
    + destruct (onResponseError_spec e w2) as [[a Ha] Hn].
      destruct (onResponseError e w2) as [[x|e'] w3]; cbn in Ha, Hn |- *;
        [discriminate|].
      inversion Ha; subst e'. split; [eexists; reflexivity|].
      exists 1%nat. split; [lia|].
      pose proof (Delta_trans _ _ _ _ _ _ _ _ _ _ _ _ Hq Hd eq_refl eq_refl eq_refl) as Hqd.
      chain Hqd Hn.
  - destruct (onResponseError_spec e w1) as [[a Ha] Hn].
    destruct (onResponseError e w1) as [[x|e'] w3]; cbn in Ha, Hn |- *;
      [discriminate|].
    inversion Ha; subst e'. split; [eexists; reflexivity|].
    exists 0%nat. split; [lia|].
    chain Hq Hn.
Qed.

Lemma waitBeforeRetry_Delta (retryConfig : RetryConfig) (k : Z) (e : Thrown)
    (w : World) :
  Delta 0 1 0 w (snd (waitBeforeRetry retryConfig k e w)).
Proof.
  unfold waitBeforeRetry, calculateRetryDelay, bind, effect.
  destruct (error_response e) as [response|].
  - destruct (Response.status response =? 429); [delta|].
    cbn. destruct (randoms w); delta.
  - cbn. destruct (randoms w); delta.
Qed.

(* ------------------------------------------------------------------ *)
(** ** A request under the retry executor *)

(** [failed] attempts were retried, each after one sleep and one run of
    [transformError]; the attempt that settles the call adds one request
    at most, and one more normalisation when it fails too. *)
Lemma executeWithRetry_client_spec (request : Config.t) (retryConfig : RetryConfig)
    (w : World) :
  0 <= retries retryConfig ->
  exists failed sent : nat,
    (failed <= Z.to_nat (retries retryConfig))%nat /\
    (sent <= failed + 1)%nat /\
    match fst (executeWithRetry (clientRequest request) retryConfig w) with
    | Resolved _ =>
        (1 <= sent)%nat /\
        Delta sent failed failed w
          (snd (executeWithRetry (clientRequest request) retryConfig w))
    | Rejected e =>
        (exists a, e = ThrownApi a) /\
        Delta sent failed (failed + 1) w
          (snd (executeWithRetry (clientRequest request) retryConfig w))
    end.
Proof.
  intros Hretries.
  apply (executeWithRetry_rule (clientRequest request) retryConfig
           (fun k w' =>
              exists sent, (sent <= Z.to_nat k)%nat /\
                           Delta sent (Z.to_nat k) (Z.to_nat k) w w')
           (fun r w' =>
              exists failed sent : nat,
                (failed <= Z.to_nat (retries retryConfig))%nat /\
                (sent <= failed + 1)%nat /\
                match r with
                | Resolved _ => (1 <= sent)%nat /\ Delta sent failed failed w w'
                | Rejected e =>
                    (exists a, e = ThrownApi a) /\
                    Delta sent failed (failed + 1) w w'
                end)).
  - intros k s r s1 (sent & Hs & Hd) Hk Hop.
    pose proof (clientRequest_spec request s) as Hc. rewrite Hop in Hc. cbn in Hc.
    exists (Z.to_nat k), (sent + 1)%nat. split; [lia|]. split; [lia|].
    split; [lia|].
    eapply Delta_trans; [exact Hd | exact Hc | lia..].
  - intros k s e s1 (sent & Hs & Hd) Hk Hop _.
    pose proof (clientRequest_spec request s) as Hc. rewrite Hop in Hc. cbn in Hc.
    destruct Hc as (Ha & n & Hn & Hc).
    exists (Z.to_nat k), (sent + n)%nat. split; [lia|]. split; [lia|].
    split; [assumption|].
    eapply Delta_trans; [exact Hd | exact Hc | lia..].
  - intros k s e s1 (sent & Hs & Hd) Hk Hop _.
    pose proof (clientRequest_spec request s) as Hc. rewrite Hop in Hc. cbn in Hc.
    destruct Hc as (Ha & n & Hn & Hc).
    pose proof (waitBeforeRetry_Delta retryConfig k e s1) as Hw.
    exists (sent + n)%nat. split; [lia|].
    eapply Delta_trans;
      [exact Hd | eapply Delta_trans; [exact Hc | exact Hw | reflexivity..] | lia..].
  - intros s _ Hneg. lia.
  - exists 0%nat. split; [lia | apply Delta_refl].
Qed.

(* ------------------------------------------------------------------ *)
(** ** The verbs *)

Ltac quiet :=
  unfold Quiet, networkCalls, sleeps, normalizations, count;
  cbn; repeat split; lia.

Lemma defaultRetryConfig_retries : Z.to_nat (retries defaultRetryConfig) = 3%nat.
Proof. reflexivity. Qed.

(** A verb is the executor followed by steps that stay off the wire. *)
Lemma executed_then {A} (request : Config.t) (k : Response.t -> Async World A)
    (w0 w : World) :
  Quiet w0 w ->
  (forall r w1, (exists a, fst (k r w1) = Resolved a) /\ Quiet w1 (snd (k r w1))) ->
  Executed w0 (bind (executeWithRetry (clientRequest request) defaultRetryConfig) k w).
Proof.
  intros (Q1 & Q2 & Q3) Hk. unfold bind.
  destruct (executeWithRetry_client_spec request defaultRetryConfig w)
    as (failed & sent & Hf & Hs & Hm); [cbn; lia|].
  rewrite defaultRetryConfig_retries in Hf.
  destruct (executeWithRetry (clientRequest request) defaultRetryConfig w)
    as [[r|e] w1]; cbn [fst snd] in Hm.
  - destruct (Hk r w1) as [[a Ha] (K1 & K2 & K3)].
    destruct Hm as (Hone & _ & _ & M1 & M2 & M3).
    exists failed, sent. rewrite Ha. repeat split; try lia.
  - destruct Hm as [Hapi (_ & _ & M1 & M2 & M3)].
    exists failed, sent. cbn [fst snd]. repeat split; try lia. exact Hapi.
Qed.

Lemma cache_untouched_then {A} (request : Config.t)
    (k : Response.t -> Async World A) (w : World) :
  (forall r w1, cache (snd (k r w1)) = cache w1 /\
                cacheAccesses (snd (k r w1)) = cacheAccesses w1) ->
  cache (snd (bind (executeWithRetry (clientRequest request) defaultRetryConfig) k w))
    = cache w /\
  cacheAccesses
    (snd (bind (executeWithRetry (clientRequest request) defaultRetryConfig) k w))
    = cacheAccesses w.
Proof.
  intros Hk. unfold bind.
  destruct (executeWithRetry_client_spec request defaultRetryConfig w)
    as (failed & sent & _ & _ & Hm); [cbn; lia|].
  destruct (executeWithRetry (clientRequest request) defaultRetryConfig w)
    as [[r|e] w1]; cbn [fst snd] in Hm |- *.
  - destruct Hm as (_ & M1 & M2 & _). destruct (Hk r w1) as [K1 K2].
    split; congruence.
  - destruct Hm as [_ (M1 & M2 & _)]. split; assumption.
Qed.

Lemma Quiet_refl (w : World) : Quiet w w.
Proof. quiet. Qed.

Lemma put_Executed (endpoint : string) (data : JsValue) (w : World) :
  Executed w (put endpoint data w).
Proof.
  apply executed_then; [apply Quiet_refl|].
  intros r w1. destruct (Response.status r =? 204);
    (split; [eexists; reflexivity | quiet]).
Qed.

Lemma patch_Executed (endpoint : string) (data : JsValue) (w : World) :
  Executed w (patch endpoint data w).
Proof.
  apply executed_then; [apply Quiet_refl|].
  intros r w1. destruct (Response.status r =? 204);
    (split; [eexists; reflexivity | quiet]).
Qed.

Lemma post_Executed (endpoint : string) (data : JsValue) (w : World) :
  Executed w (post endpoint data w).
Proof.
  apply executed_then; [apply Quiet_refl|].
  intros r w1. destruct (nonempty (assoc "resource-id" (Response.headers r)));
    (split; [eexists; reflexivity | quiet]).
Qed.

Lemma getAttachmentData_Executed (conversationId attachmentId : string) (w : World) :
  Executed w (getAttachmentData conversationId attachmentId w).
Proof.
  unfold getAttachmentData, client_get.
  change (Executed w
    (bind (executeWithRetry
             (clientRequest
                (mkRequest "get"
                   ("/conversations/" ++ conversationId ++ "/attachments/"
                      ++ attachmentId ++ "/data")%string None JUndefined))
             defaultRetryConfig)
          (fun response => ret (Response.data response))
          (logger Info "Downloading attachment data" w))).
  apply executed_then; [quiet|].
  intros r w1. split; [eexists; reflexivity | quiet].
Qed.

(** [get]: a hit answers from the cache; a miss is a call through the
    executor, seen from the world the cache read leaves. *)
Lemma get_miss_Executed (endpoint : string) (params : Params)
    (cacheOptions : option (option Z)) (w : World) :
  truthy (fst (cache_get ("GET:" ++ endpoint) params w)) = false ->
  Executed w (get endpoint params cacheOptions w).
Proof.
  intros Hmiss. unfold get.
  destruct (cache_get ("GET:" ++ endpoint) params w) as [cachedResult w1] eqn:Hc.
  cbn [fst] in Hmiss. rewrite Hmiss.
  assert (Hq : Quiet w w1).
  { unfold cache_get in Hc. inversion Hc; subst. quiet. }
  apply executed_then; [exact Hq|].
  intros r w2. destruct cacheOptions as [[ttl|]|];
    (split; [eexists; reflexivity | quiet]).
Qed.

Lemma get_hit (endpoint : string) (params : Params)
    (cacheOptions : option (option Z)) (w : World) :
  truthy (fst (cache_get ("GET:" ++ endpoint) params w)) = true ->
  get endpoint params cacheOptions w =
  (Resolved (fst (cache_get ("GET:" ++ endpoint) params w)),
   snd (cache_get ("GET:" ++ endpoint) params w)).
Proof.
  intros Hhit. unfold get.
  destruct (cache_get ("GET:" ++ endpoint) params w) as [cachedResult w1].
  cbn [fst snd] in *. rewrite Hhit. reflexivity.
Qed.

(* ================================================================== *)
(** * The retry executor: attempts, predicate, backoff *)

(** C1.  Whatever operation the retry executor wraps, in whatever state:
    it calls the operation at most [retries + 1] times, four with the
    default policy; a failure at attempt index [retries], the last one
    allowed, settles the call with that failure in the very state the
    operation left, so nothing runs after it; so does, at any attempt, a
    failure that the retry predicate turns down; and the default predicate
    holds exactly when the error has no response, or its code is
    ['ECONNABORTED'], or its status lies in 500..599, or its status is
    429.  ([retryLoop op cfg n k last] is the loop of [executeWithRetry]
    at attempt index [k].) *)
Theorem executeWithRetry_attempt_budget :
  forall (S : Type) (R : Runtime S) (operation : Async S Response.t)
         (retryConfig : RetryConfig),
    (forall s : S,
        (attempts operation retryConfig s <= Z.to_nat (retries retryConfig + 1))%nat)
    /\ Z.to_nat (retries defaultRetryConfig + 1) = 4%nat
    /\ (forall (n : nat) (last : option Thrown) (s s1 : S) (e : Thrown),
          operation s = (Rejected e, s1) ->
          retryLoop operation retryConfig (Datatypes.S n) (retries retryConfig) last s
          = (Rejected e, s1))
    /\ (forall (n : nat) (attempt : Z) (last : option Thrown) (s s1 : S) (e : Thrown),
          attempt <= retries retryConfig ->
          operation s = (Rejected e, s1) ->
          shouldRetry retryConfig e = false ->
          retryLoop operation retryConfig (Datatypes.S n) attempt last s
          = (Rejected e, s1))
    /\ retryCondition defaultRetryConfig = Some defaultRetryCondition
    /\ (forall e : Thrown,
          defaultRetryCondition e = true <->
          (error_response e = None
           \/ error_code e = Some "ECONNABORTED"
           \/ exists response,
                error_response e = Some response /\
                (500 <= Response.status response <= 599
                 \/ Response.status response = 429))).
Proof.
  intros S R operation retryConfig.
  split; [intros s; apply attempts_bounds|].
  split; [reflexivity|].
  split.
  { intros n last s s1 e Hop.
    rewrite retryLoop_step by lia. rewrite Hop, Z.eqb_refl. reflexivity. }
  split.
  { intros n attempt last s s1 e Hle Hop Hno.
    rewrite retryLoop_step by assumption. rewrite Hop, Hno.
    destruct (attempt =? retries retryConfig); reflexivity. }
  split; [reflexivity|].
  apply defaultRetryCondition_spec.
Qed.

Lemma executeWithRetry_attempt_budget_witness :
  (attempts (client_get "/conversations/1" None) defaultRetryConfig outageWorld <= 4)%nat
  /\ defaultRetryCondition (rawError 503 []) = true.
Proof.
  split.
  - exact (proj1 (executeWithRetry_attempt_budget World Runtime_World
                    (client_get "/conversations/1" None) defaultRetryConfig)
                 outageWorld).
  - apply (proj2 (proj2 (proj2 (proj2 (proj2
             (executeWithRetry_attempt_budget World Runtime_World
                (client_get "/conversations/1" None) defaultRetryConfig)))))).
    right; right. eexists. split; [reflexivity|]. left. cbn. lia.
Defined.

(** Seen on a whole run: when the first failure is one the predicate
    turns down, the call ends there after a single attempt. *)
Lemma executeWithRetry_rejected_at_once {S : Type} `{Runtime S}
    (operation : Async S Response.t) (retryConfig : RetryConfig)
    (s s1 : S) (e : Thrown) :
  0 <= retries retryConfig ->
  operation s = (Rejected e, s1) ->
  shouldRetry retryConfig e = false ->
  executeWithRetry operation retryConfig s = (Rejected e, s1) /\
  attempts operation retryConfig s = 1%nat.
Proof.
  intros Hpos Hop Hno.
  destruct (retryLoop_budget retryConfig (Z.to_nat (retries retryConfig + 1)) 0)
    as (n & Hn & _); [lia | f_equal; lia |].
  unfold attempts, executeWithRetry. rewrite Hn.
  rewrite !retryLoop_step by lia.
  unfold counted. cbn [fst snd]. rewrite Hop, Hno.
  destruct (0 =? retries retryConfig); split; reflexivity.
Qed.

(** C3.  For a failure that is backed off at attempt index [attempt], the
    delay [calculateRetryDelay] computes is
    [min(baseDelay * 2^attempt + jitter, maxDelay)] for a jitter between
    zero and one tenth of [baseDelay * 2^attempt], and it never exceeds
    [maxDelay].  [Math.random] is taken to answer in the interval from 0
    (included) to 1 (excluded), and the base delay not to be negative. *)
Theorem calculateRetryDelay_backoff :
  forall (S : Type) (R : Runtime S) (s : S) (attempt : Z) (baseDelay maxDelay : Q),
    (0 <= fst (random s))%Q ->
    (fst (random s) < 1)%Q ->
    (0 <= baseDelay)%Q ->
    exists delay jitter : Q,
      fst (calculateRetryDelay attempt baseDelay maxDelay s) = Resolved delay /\
      (0 <= jitter)%Q /\
      (jitter <= (1 # 10) * (baseDelay * 2 ^ attempt))%Q /\
      delay = Qmin (baseDelay * 2 ^ attempt + jitter) maxDelay /\
      (delay <= maxDelay)%Q.
Proof.
  intros S R s attempt baseDelay maxDelay Hr0 Hr1 Hb.
  unfold calculateRetryDelay.
  destruct (random s) as [r s1]. cbn [fst] in *.
  destruct (backoffDelay_spec r attempt baseDelay maxDelay Hr0 Hr1 Hb)
    as (Hj0 & Hj1 & Heq & Hmax).
  exists (backoffDelay r attempt baseDelay maxDelay),
         (r * (1 # 10) * (baseDelay * 2 ^ attempt))%Q.
  repeat split; assumption.
Qed.

Lemma calculateRetryDelay_backoff_witness :
  exists delay jitter : Q,
    fst (calculateRetryDelay 2 1000 10000 outageWorld) = Resolved delay /\
    (0 <= jitter)%Q /\
    (jitter <= (1 # 10) * (1000 * 2 ^ 2))%Q /\
    delay = Qmin (1000 * 2 ^ 2 + jitter) 10000 /\
    (delay <= 10000)%Q.
Proof.
  apply (calculateRetryDelay_backoff World Runtime_World outageWorld 2 1000 10000).
  - vm_compute. intro H. discriminate H.
  - vm_compute. reflexivity.
  - vm_compute. intro H. discriminate H.
Defined.

(** In the executor, a failure without status 429 is followed by a sleep
    of exactly the delay [calculateRetryDelay] gives. *)
Lemma waitBeforeRetry_backoff (retryConfig : RetryConfig) (attempt : Z)
    (e : Thrown) (w : World) :
  status_is e 429 = false ->
  delaysSlept (snd (waitBeforeRetry retryConfig attempt e w)) =
  (delaysSlept w ++
   [Num.Finite (backoffDelay (fst (random w)) attempt (retryDelay retryConfig)
                  (maxRetryDelay retryConfig))])%list.
Proof.
  unfold status_is, error_status, waitBeforeRetry, calculateRetryDelay, bind, effect.
  destruct (error_response e) as [response|]; cbn [option_map].
  - intros ->. destruct (random w) as [r w1] eqn:Hr. cbn.
    unfold delaysSlept. cbn.
    replace (trace w1) with (trace w); [reflexivity|].
    cbn in Hr. destruct (randoms w); inversion Hr; reflexivity.
  - intros _. destruct (random w) as [r w1] eqn:Hr. cbn.
    unfold delaysSlept. cbn.
    replace (trace w1) with (trace w); [reflexivity|].
    cbn in Hr. destruct (randoms w); inversion Hr; reflexivity.
Qed.

(** The rate-limit branch of the executor: a failure that carries a 429
    response is followed by a sleep of the header's seconds in
    milliseconds, sixty seconds without the header, at most the policy's
    maximum. *)
Lemma waitBeforeRetry_rate_limit (retryConfig : RetryConfig) (attempt : Z)
    (e : Thrown) (response : Response.t) (w : World) :
  error_response e = Some response ->
  Response.status response = 429 ->
  delaysSlept (snd (waitBeforeRetry retryConfig attempt e w)) =
  (delaysSlept w ++ [rateLimitDelay response (maxRetryDelay retryConfig)])%list.
Proof.
  intros Hr Hs. unfold waitBeforeRetry. rewrite Hr, Hs. reflexivity.
Qed.

Lemma rateLimitDelay_five_seconds (data : JsValue) :
  rateLimitDelay {| Response.status := 429;
                    Response.headers := [("retry-after", "5")];
                    Response.data := data |} (maxRetryDelay defaultRetryConfig)
  = Num.Finite (Qmin (5 * 1000) 10000).
Proof. reflexivity. Qed.

(* ================================================================== *)
(** * The token authenticator *)

(** C7.  When the configured API key is a static bearer token
    (['Bearer '] followed by the token), authentication takes the
    static-token path whatever the client id and secret are: it succeeds,
    the token is adopted as it stands, the expiry is set twenty-four hours
    ahead, and no request leaves the client, neither to the token endpoint
    nor to the API. *)
Theorem authenticate_static_token :
  forall (w : World) (token : string),
    apiKey (config w) = Some ("Bearer " ++ token)%string ->
    fst (authenticate w) = Resolved tt /\
    accessToken (client (snd (authenticate w))) = Some token /\
    tokenExpiresAt (client (snd (authenticate w))) = now w + 24 * 60 * 60 * 1000 /\
    tokenRequests (snd (authenticate w)) = tokenRequests w /\
    networkCalls (snd (authenticate w)) = networkCalls w /\
    oauth (snd (authenticate w)) = oauth w /\
    api (snd (authenticate w)) = api w.
Proof.
  intros w token Hkey.
  unfold authenticate, try_catch. rewrite Hkey.
  destruct token; cbn; repeat split.
Qed.

Lemma authenticate_static_token_witness :
  fst (authenticate (emptyWorld sampleConfig)) = Resolved tt /\
  accessToken (client (snd (authenticate (emptyWorld sampleConfig)))) = Some "pat-123" /\
  tokenExpiresAt (client (snd (authenticate (emptyWorld sampleConfig))))
    = now (emptyWorld sampleConfig) + 24 * 60 * 60 * 1000 /\
  tokenRequests (snd (authenticate (emptyWorld sampleConfig)))
    = tokenRequests (emptyWorld sampleConfig) /\
  networkCalls (snd (authenticate (emptyWorld sampleConfig)))
    = networkCalls (emptyWorld sampleConfig) /\
  oauth (snd (authenticate (emptyWorld sampleConfig))) = oauth (emptyWorld sampleConfig) /\
  api (snd (authenticate (emptyWorld sampleConfig))) = api (emptyWorld sampleConfig).
Proof.
  apply (authenticate_static_token (emptyWorld sampleConfig) "pat-123").
  reflexivity.
Defined.

(** What is in the trace does not change how authentication goes. *)
Lemma ensureAuthenticated_record (e : Event) (w : World) :
  fst (ensureAuthenticated (record e w)) = fst (ensureAuthenticated w).
Proof.
  unfold ensureAuthenticated, tokenIsValid. cbn.
  destruct (nonempty (accessToken (client w)) && (now w <? tokenExpiresAt (client w)));
    [reflexivity|].
  unfold authenticate, try_catch. cbn.
  destruct (nonempty (apiKey (config w))
            && startsWith (or_default (apiKey (config w)) "") "Bearer ");
    [reflexivity|].
  destruct (negb (nonempty (clientId (config w)))
            || negb (nonempty (clientSecret (config w)))); [reflexivity|].
  unfold bind, requestToken. cbn.
  destruct (oauth w) as [|[access_token expires_in|error] rest]; reflexivity.
Qed.

(* ================================================================== *)
(** * The cache and the verbs *)

Lemma put_cache (endpoint : string) (data : JsValue) (w : World) :
  cache (snd (put endpoint data w)) = cache w /\
  cacheAccesses (snd (put endpoint data w)) = cacheAccesses w.
Proof.
  apply cache_untouched_then.
  intros r w1. destruct (Response.status r =? 204); split; reflexivity.
Qed.

Lemma patch_cache (endpoint : string) (data : JsValue) (w : World) :
  cache (snd (patch endpoint data w)) = cache w /\
  cacheAccesses (snd (patch endpoint data w)) = cacheAccesses w.
Proof.
  apply cache_untouched_then.
  intros r w1. destruct (Response.status r =? 204); split; reflexivity.
Qed.

Lemma post_cache (endpoint : string) (data : JsValue) (w : World) :
  cache (snd (post endpoint data w)) = cache w /\
  cacheAccesses (snd (post endpoint data w)) = cacheAccesses w.
Proof.
  apply cache_untouched_then.
  intros r w1. destruct (nonempty (assoc "resource-id" (Response.headers r)));
    split; reflexivity.
Qed.

Lemma get_reads_cache (endpoint : string) (params : Params)
    (cacheOptions : option (option Z)) (w : World) :
  (cacheAccesses w < cacheAccesses (snd (get endpoint params cacheOptions w)))%nat.
Proof.
  unfold get, cache_get.
  destruct (truthy (cache_lookup (cache w) ("GET:" ++ endpoint) params (now w))).
  - unfold cacheAccesses, count. cbn. lia.
  - unfold bind, client_get.
    set (w1 := record (CacheRead ("GET:" ++ endpoint) params) w).
    assert (H1 : cacheAccesses w1 = Datatypes.S (cacheAccesses w)) by reflexivity.
    destruct (executeWithRetry_client_spec
                (mkRequest "get" endpoint params JUndefined) defaultRetryConfig w1)
      as (failed & sent & _ & _ & Hm); [cbn; lia|].
    destruct (executeWithRetry
                (clientRequest (mkRequest "get" endpoint params JUndefined))
                defaultRetryConfig w1) as [[r|e] w2]; cbn [fst snd] in Hm |- *.
    + destruct Hm as (_ & _ & M2 & _).
      destruct cacheOptions as [[ttl|]|]; unfold cacheAccesses, count in *; cbn; lia.
    + destruct Hm as (_ & _ & M2 & _). lia.
Qed.

(** C8.  Whatever the endpoint, the body and the state of the world,
    [put], [post] and [patch] leave the cache store as it was and make no
    call on it, neither a read nor a write; [get] always makes one. *)
Theorem mutating_verbs_never_touch_cache :
  forall (endpoint : string) (data : JsValue) (w : World),
    (cache (snd (put endpoint data w)) = cache w /\
     cacheAccesses (snd (put endpoint data w)) = cacheAccesses w) /\
    (cache (snd (post endpoint data w)) = cache w /\
     cacheAccesses (snd (post endpoint data w)) = cacheAccesses w) /\
    (cache (snd (patch endpoint data w)) = cache w /\
     cacheAccesses (snd (patch endpoint data w)) = cacheAccesses w) /\
    (forall (params : Params) (cacheOptions : option (option Z)),
        (cacheAccesses w < cacheAccesses (snd (get endpoint params cacheOptions w)))%nat).
Proof.
  intros endpoint data w.
  split; [apply put_cache|].
  split; [apply post_cache|].
  split; [apply patch_cache|].
  intros params cacheOptions. apply get_reads_cache.
Qed.

(** When the request interceptor can authenticate, the attempt reaches
    the wire. *)
Lemma clientRequest_sends (request : Config.t) (w : World) :
  fst (ensureAuthenticated w) = Resolved tt ->
  networkCalls (snd (clientRequest request w)) = Datatypes.S (networkCalls w).
Proof.
  intros Hauth. unfold clientRequest, then_, bind.
  pose proof (onRequest_Delta request w) as Hq.
  assert (Hres : exists prepared, fst (onRequest request w) = Resolved prepared).
  { unfold onRequest, bind.
    destruct (ensureAuthenticated w) as [[[]|x] w1]; cbn in Hauth; [|discriminate].
    destruct (random w1). eexists. reflexivity. }
  destruct Hres as [prepared Hres].
  destruct (onRequest request w) as [[p|x] w1]; cbn in Hres, Hq; [|discriminate].
  pose proof (dispatchRequest_Delta p w1) as Hd.
  destruct (dispatchRequest p w1) as [[response|e] w2]; cbn in Hd.
  - cbn. destruct Hq as (_ & _ & Q & _). destruct Hd as (_ & _ & D & _).
    unfold networkCalls, count in *. cbn. lia.
  - destruct (onResponseError_spec e w2) as [_ Hn].
    destruct Hq as (_ & _ & Q & _). destruct Hd as (_ & _ & D & _).
    destruct Hn as (_ & _ & N & _). lia.
Qed.

Lemma executeWithRetry_sends (request : Config.t) (retryConfig : RetryConfig)
    (w : World) :
  0 <= retries retryConfig ->
  fst (ensureAuthenticated w) = Resolved tt ->
  (networkCalls w <
   networkCalls (snd (executeWithRetry (clientRequest request) retryConfig w)))%nat.
Proof.
  intros Hretries Hauth.
  apply (executeWithRetry_rule (clientRequest request) retryConfig
           (fun k s => (k = 0 /\ s = w) \/ (0 < k /\ (networkCalls w < networkCalls s)%nat))
           (fun _ s => (networkCalls w < networkCalls s)%nat)).
  - intros k s r s1 [[-> ->] | [Hk Hlt]] _ Hop.
    + pose proof (clientRequest_sends request w Hauth) as Hs.
      rewrite Hop in Hs. cbn in Hs. lia.
    + pose proof (clientRequest_spec request s) as Hc. rewrite Hop in Hc.
      cbn in Hc. destruct Hc as (_ & _ & C & _). lia.
  - intros k s e s1 [[-> ->] | [Hk Hlt]] _ Hop _.
    + pose proof (clientRequest_sends request w Hauth) as Hs.
      rewrite Hop in Hs. cbn in Hs. lia.
    + pose proof (clientRequest_spec request s) as Hc. rewrite Hop in Hc.
      cbn in Hc. destruct Hc as (_ & n & _ & (_ & _ & C & _)). lia.
  - intros k s e s1 Hinv Hk Hop _. right. split; [lia|].
    pose proof (waitBeforeRetry_Delta retryConfig k e s1) as (_ & _ & W & _).
    destruct Hinv as [[-> ->] | [_ Hlt]].
    + pose proof (clientRequest_sends request w Hauth) as Hs.
      rewrite Hop in Hs. cbn in Hs. lia.
    + pose proof (clientRequest_spec request s) as Hc. rewrite Hop in Hc.
      cbn in Hc. destruct Hc as (_ & n & _ & (_ & _ & C & _)). lia.
  - intros s _ Hneg. lia.
  - left. split; reflexivity.
Qed.

(* ================================================================== *)
(** * Error normalisation and retries *)

Lemma run_rejected_Executed (c : Call) (w : World) (e : Thrown) :
  fst (run c w) = Rejected e -> Executed w (run c w).
Proof.
  destruct c as [endpoint params cacheOptions | endpoint data | endpoint data
                | endpoint data | conversationId attachmentId]; cbn [run]; intros Hrej.
  - destruct (truthy (fst (cache_get ("GET:" ++ endpoint) params w))) eqn:Ht.
    + rewrite (get_hit endpoint params cacheOptions w Ht) in Hrej. discriminate.
    + apply get_miss_Executed. exact Ht.
  - apply put_Executed.
  - apply post_Executed.
  - apply patch_Executed.
  - apply getAttachmentData_Executed.
Qed.

(** C4, as the code has it.  [transformError] runs inside the response
    interceptor, hence once for each attempt that fails and never for one
    that succeeds; a call on the facade that fails has made between one
    and four attempts, has run [transformError] once for each of them, one
    more than the sleeps between them, and hands its caller an
    [ApiError], never a raw transport error. *)
Theorem failures_normalized_on_each_attempt :
  (forall (request : Config.t) (w : World),
      match fst (clientRequest request w) with
      | Resolved _ =>
          normalizations (snd (clientRequest request w)) = normalizations w
      | Rejected e =>
          (exists apiError, e = ThrownApi apiError) /\
          normalizations (snd (clientRequest request w))
          = Datatypes.S (normalizations w)
      end)
  /\
  (forall (c : Call) (w : World) (e : Thrown),
      fst (run c w) = Rejected e ->
      (exists apiError, e = ThrownApi apiError) /\
      exists n : nat,
        (1 <= n <= 4)%nat /\
        normalizations (snd (run c w)) = (normalizations w + n)%nat /\
        sleeps (snd (run c w)) = (sleeps w + (n - 1))%nat).
Proof.
  split.
  - intros request w. pose proof (clientRequest_spec request w) as Hc.
    destruct (fst (clientRequest request w)) as [r|e].
    + destruct Hc as (_ & _ & _ & _ & Hn). lia.
    + destruct Hc as (Ha & n & _ & (_ & _ & _ & _ & Hn)). split; [exact Ha | lia].
  - intros c w e Hrej.
    destruct (run_rejected_Executed c w e Hrej)
      as (failed & sent & Hf & _ & _ & Hs & Hm).
    rewrite Hrej in Hm. destruct Hm as [Ha Hn].
    split; [exact Ha|].
    exists (failed + 1)%nat. repeat split; lia.
Qed.

Lemma failures_normalized_on_each_attempt_witness :
  exists n : nat,
    (1 <= n <= 4)%nat /\
    normalizations (snd (run (Get "/conversations/1" None None) outageWorld))
    = (normalizations outageWorld + n)%nat /\
    sleeps (snd (run (Get "/conversations/1" None None) outageWorld))
    = (sleeps outageWorld + (n - 1))%nat.
Proof.
  destruct (proj2 failures_normalized_on_each_attempt
              (Get "/conversations/1" None None) outageWorld
              (match fst (run (Get "/conversations/1" None None) outageWorld) with
               | Rejected e => e
               | Resolved _ => ThrownError ""
               end)) as [_ H].
  - vm_compute. reflexivity.
  - exact H.
Defined.

(** C4, the claim as stated, fails: during an outage that outlasts the
    retry budget a read fails for good after four attempts; by then
    [transformError] has run four times, not once, and already the first
    failure, the one the retry predicate is asked about, is an [ApiError]
    and not a raw transport error. *)
Lemma outage_normalizes_four_times :
  isApiError (fst (get "/conversations/1" None None outageWorld)) = true /\
  networkCalls (snd (get "/conversations/1" None None outageWorld)) = 4%nat /\
  normalizations outageWorld = 0%nat /\
  normalizations (snd (get "/conversations/1" None None outageWorld)) = 4%nat /\
  normalizations (snd (get "/conversations/1" None None outageWorld))
    <> (normalizations outageWorld + 1)%nat /\
  isApiError (fst (client_get "/conversations/1" None outageWorld)) = true.
Proof.
  vm_compute. repeat split; try reflexivity. intro H. discriminate H.
Qed.

(** What the retry predicate answers on an [ApiError]: it has no
    [response], so the answer is always yes. *)
Lemma defaultRetryCondition_ApiError (a : ApiError.t) :
  defaultRetryCondition (ThrownApi a) = true.
Proof. reflexivity. Qed.

(* ================================================================== *)
(** * Replies below 500 *)

(** A reply whose status is below 500 passes [validateStatus]: the
    attempt resolves with it, [transformError] does not run, and the
    access token stays as the request interceptor left it. *)
Lemma reply_below_500_resolves (request : Config.t) (response : Response.t)
    (rest : list Reply) (w : World) :
  tokenIsValid w = true ->
  api w = Answer response :: rest ->
  Response.status response < 500 ->
  fst (clientRequest request w) = Resolved response /\
  normalizations (snd (clientRequest request w)) = normalizations w /\
  accessToken (client (snd (clientRequest request w))) = accessToken (client w) /\
  api (snd (clientRequest request w)) = rest.
Proof.
  intros Hvalid Hapi Hlt.
  unfold clientRequest, then_, bind, onRequest, bind, ensureAuthenticated.
  rewrite Hvalid. cbn.
  apply Z.ltb_lt in Hlt.
  destruct (randoms w) as [|r rs]; unfold dispatchRequest; cbn;
    rewrite Hapi; unfold validateStatus; rewrite Hlt; cbn; repeat split.
Qed.

(** The normaliser itself does clear the token when it is given a 401. *)
Lemma transformError_401_clears_token (headers : Headers) (w : World) :
  accessToken (client (snd (transformError (rawError 401 headers) w))) = None /\
  tokenIsValid (snd (transformError (rawError 401 headers) w)) = false.
Proof. split; reflexivity. Qed.

(** The normaliser itself maps a 404 to [NOT_FOUND]. *)
Lemma transformError_404_NOT_FOUND (headers : Headers) (w : World) :
  exists a, fst (transformError (rawError 404 headers) w) = Resolved a /\
            ApiError.code a = NOT_FOUND.
Proof. eexists. split; reflexivity. Qed.

(** C2, on the client as built.  The upstream service answers 429 with
    [Retry-After: 5]: the read resolves with the body of the 429 at once,
    after one request and without any sleep; the reply that would have
    answered a retry is never asked for. *)
Theorem rate_limited_reply_is_not_retried :
  fst (get "/conversations/1" None None rateLimitedWorld)
    = Resolved (JStr "Too Many Requests") /\
  networkCalls (snd (get "/conversations/1" None None rateLimitedWorld)) = 1%nat /\
  delaysSlept (snd (get "/conversations/1" None None rateLimitedWorld)) = [] /\
  api (snd (get "/conversations/1" None None rateLimitedWorld))
    = [reply 200 [] (JStr "ok")].
Proof. vm_compute. repeat split. Qed.

(** C5, on the client as built.  The upstream service answers 404: one
    request is made, but the read resolves with the body of the 404 as
    its result (and stores it in the cache); no error reaches the caller
    and [transformError] does not run. *)
Theorem not_found_reply_is_returned_as_success :
  fst (get "/conversations/1" None None notFoundWorld)
    = Resolved (JObj [("message", JStr "Not Found")]) /\
  networkCalls (snd (get "/conversations/1" None None notFoundWorld)) = 1%nat /\
  normalizations (snd (get "/conversations/1" None None notFoundWorld)) = 0%nat /\
  cache_lookup (cache (snd (get "/conversations/1" None None notFoundWorld)))
    "GET:/conversations/1" None (now notFoundWorld)
    = JObj [("message", JStr "Not Found")].
Proof. vm_compute. repeat split. Qed.

(** C6, on the client as built.  The upstream service answers 401: the
    read resolves with the body of the 401, [transformError] does not
    run, the access token is still the one in use, and the next call
    finds it valid and does not authenticate again. *)
Theorem unauthorized_reply_keeps_token :
  let afterFirst := snd (get "/conversations/1" None None unauthorizedWorld) in
  fst (get "/conversations/1" None None unauthorizedWorld)
    = Resolved (JObj [("error", JStr "invalid_token")]) /\
  normalizations afterFirst = 0%nat /\
  accessToken (client afterFirst) = Some "pat-123" /\
  tokenIsValid afterFirst = true /\
  ensureAuthenticated afterFirst = (Resolved tt, afterFirst).
Proof. vm_compute. repeat split. Qed.

(* ================================================================== *)
(** * The connection pool *)

Lemma nth_error_snoc {A} (l : list A) (x : A) :
  nth_error (l ++ [x]) (List.length l) = Some x.
Proof.
  rewrite nth_error_app2 by lia. rewrite Nat.sub_diag. reflexivity.
Qed.

(** The agents [clearIdleConnections] builds always have the default
    options, whatever the client was constructed with; the agents the
    axios instance holds are the old ones. *)
Lemma clearIdleConnections_agents (w : World) :
  let w' := clearIdleConnections w in
  agentOptions w' (httpAgent (client w')) = Some DEFAULT_POOL_CONFIG /\
  agentOptions w' (httpsAgent (client w')) = Some DEFAULT_POOL_CONFIG /\
  axiosHttpAgent (client w') = axiosHttpAgent (client w) /\
  axiosHttpsAgent (client w') = axiosHttpsAgent (client w).
Proof.
  cbn zeta. unfold clearIdleConnections, newAgent, destroy, agentOptions.
  cbn [client with_agents record with_client agents httpAgent httpsAgent
       axiosHttpAgent axiosHttpsAgent logger Runtime_World fst snd].
  repeat split.
  - rewrite nth_error_app1 by (rewrite length_app; cbn; lia).
    rewrite nth_error_snoc. reflexivity.
  - rewrite nth_error_snoc. reflexivity.
Qed.

(** C9, on the client as built.  A client constructed with five sockets
    per pool has agents with [maxSockets = 5]; after
    [clearIdleConnections] its agents have [maxSockets = 50], the
    default, and the axios instance still holds the destroyed ones. *)
Theorem clearIdleConnections_forgets_pool_config :
  let before := customPoolWorld in
  let after := clearIdleConnections customPoolWorld in
  option_map maxSockets (agentOptions before (httpAgent (client before))) = Some 5 /\
  option_map maxSockets (agentOptions before (httpsAgent (client before))) = Some 5 /\
  option_map maxSockets (agentOptions after (httpAgent (client after))) = Some 50 /\
  option_map maxSockets (agentOptions after (httpsAgent (client after))) = Some 50 /\
  agentOptions after (httpAgent (client after))
    <> agentOptions before (httpAgent (client before)) /\
  agentDestroyed after (axiosHttpAgent (client after)) = Some true /\
  agentDestroyed after (axiosHttpsAgent (client after)) = Some true.
Proof.
  vm_compute. repeat split; try reflexivity. intro H. discriminate H.
Qed.

(* ================================================================== *)
(** * Further properties of the retry executor *)

(** A first attempt that succeeds ends the call at once. *)
Lemma executeWithRetry_resolved_at_once {S : Type} `{Runtime S}
    (operation : Async S Response.t) (retryConfig : RetryConfig)
    (s s1 : S) (r : Response.t) :
  0 <= retries retryConfig ->
  operation s = (Resolved r, s1) ->
  executeWithRetry operation retryConfig s = (Resolved r, s1) /\
  attempts operation retryConfig s = 1%nat.
Proof.
  intros Hpos Hop.
  destruct (retryLoop_budget retryConfig (Z.to_nat (retries retryConfig + 1)) 0)
    as (n & Hn & _); [lia | f_equal; lia |].
  unfold attempts, executeWithRetry. rewrite Hn.
  rewrite !retryLoop_step by lia.
  unfold counted. cbn [fst snd]. rewrite Hop. split; reflexivity.
Qed.

Lemma retryLoop_last_attempt {S : Type} `{Runtime S}
    (operation : Async S Response.t) (retryConfig : RetryConfig) (n : nat) :
  forall (k : Z) (last : option Thrown) (s : S) (c : nat),
    k <= retries retryConfig ->
    Z.to_nat (retries retryConfig + 1 - k) = n ->
    exists (k' : Z) (s0 : S),
      k <= k' <= retries retryConfig /\
      Retried operation retryConfig k s k' s0 /\
      retryLoop operation retryConfig n k last s = operation s0 /\
      (forall e, fst (operation s0) = Rejected e ->
                 k' = retries retryConfig \/ shouldRetry retryConfig e = false) /\
      snd (snd (retryLoop (counted operation) retryConfig n k last (s, c)))
      = (c + Z.to_nat (k' - k) + 1)%nat.
Proof.
  induction n as [|n IH]; intros k last s c Hk Hn; [lia|].
  rewrite !retryLoop_step by lia.
  unfold counted at 1. cbn [fst snd].
  destruct (operation s) as [[r|e] s1] eqn:Hop.
  - exists k, s. split; [lia|]. split; [constructor|].
    split; [symmetry; exact Hop|]. split.
    + intros e He. rewrite Hop in He. discriminate He.
    + cbn [snd]. lia.
  - destruct (k =? retries retryConfig) eqn:Hlast.
    + exists k, s. split; [lia|]. split; [constructor|].
      split; [symmetry; exact Hop|]. split.
      * intros e' _. left. apply Z.eqb_eq. exact Hlast.
      * cbn [snd]. lia.
    + apply Z.eqb_neq in Hlast.
      destruct (shouldRetry retryConfig e) eqn:Hretry; cbn [negb].
      * rewrite waitBeforeRetry_counted. cbn [snd].
        destruct (IH (k + 1) (Some e)
                    (snd (waitBeforeRetry retryConfig k e s1)) (Datatypes.S c))
          as (k' & s0 & Hk' & Hrun & Heq & Hend & Hcount); [lia | lia |].
        exists k', s0. split; [lia|]. split.
        { apply (Retried_again operation retryConfig k s e s1 k' s0);
            [exact Hop | lia | exact Hretry | exact Hrun]. }
        split; [exact Heq|]. split; [exact Hend|].
        rewrite Hcount. lia.
      * exists k, s. split; [lia|]. split; [constructor|].
        split; [symmetry; exact Hop|]. split.
        { intros e' He'. rewrite Hop in He'. cbn in He'.
          right. congruence. }
        { cbn [snd]. lia. }
Qed.

(** X1.  With a policy that allows at least one attempt, the executor
    settles with what its last call of the operation settled with, and
    ends in the state that call left: it makes up no result and no error
    of its own, and does nothing after the attempt that ends the call.
    That last call is iteration [k] of the loop, and the state it starts
    in is the one the run itself has reached: from the initial state, by
    [k] calls that failed with an error the policy retries, each followed
    by its wait.  When the last call fails, either the retries are used
    up or the policy refuses the error.  The operation has then been
    called [k + 1] times. *)
Theorem executeWithRetry_returns_last_attempt :
  forall (S : Type) (R : Runtime S) (operation : Async S Response.t)
         (retryConfig : RetryConfig) (s : S),
    0 <= retries retryConfig ->
    exists (k : Z) (s0 : S),
      0 <= k <= retries retryConfig /\
      Retried operation retryConfig 0 s k s0 /\
      executeWithRetry operation retryConfig s = operation s0 /\
      (forall e, fst (operation s0) = Rejected e ->
                 k = retries retryConfig \/ shouldRetry retryConfig e = false) /\
      attempts operation retryConfig s = Z.to_nat (k + 1).
Proof.
  intros S R operation retryConfig s Hpos.
  destruct (retryLoop_last_attempt operation retryConfig
              (Z.to_nat (retries retryConfig + 1)) 0 None s O)
    as (k & s0 & Hk & Hrun & Heq & Hend & Hcount); [lia | f_equal; lia |].
  exists k, s0. split; [exact Hk|]. split; [exact Hrun|].
  split; [exact Heq|]. split; [exact Hend|].
  unfold attempts, executeWithRetry. rewrite Hcount. lia.
Qed.

Lemma executeWithRetry_returns_last_attempt_witness :
  exists (k : Z) (s0 : World),
    0 <= k <= 3 /\
    Retried (client_get "/conversations/1" None) defaultRetryConfig 0 flakyWorld k s0 /\
    executeWithRetry (client_get "/conversations/1" None) defaultRetryConfig flakyWorld
    = client_get "/conversations/1" None s0 /\
    (forall e, fst (client_get "/conversations/1" None s0) = Rejected e ->
               k = 3 \/ shouldRetry defaultRetryConfig e = false) /\
    attempts (client_get "/conversations/1" None) defaultRetryConfig flakyWorld
    = Z.to_nat (k + 1).
Proof.
  apply (executeWithRetry_returns_last_attempt World Runtime_World
           (client_get "/conversations/1" None) defaultRetryConfig flakyWorld).
  vm_compute. intro H. discriminate H.
Defined.

(** X2.  With a negative [retries] the loop body never runs: the
    operation is not called at all, the state is left as it was, and the
    call fails with the executor's own error, 'Request failed without
    error details'. *)
Theorem executeWithRetry_negative_retries :
  forall (S : Type) (R : Runtime S) (operation : Async S Response.t)
         (retryConfig : RetryConfig) (s : S),
    retries retryConfig < 0 ->
    executeWithRetry operation retryConfig s
      = (Rejected (ThrownError "Request failed without error details"), s) /\
    attempts operation retryConfig s = 0%nat.
Proof.
  intros S R operation retryConfig s Hneg.
  unfold attempts, executeWithRetry.
  replace (Z.to_nat (retries retryConfig + 1)) with O by lia.
  split; reflexivity.
Qed.

Lemma executeWithRetry_negative_retries_witness :
  executeWithRetry (client_get "/conversations/1" None)
    {| retries := -1; retryDelay := 1000; maxRetryDelay := 10000;
       retryCondition := None |} flakyWorld
    = (Rejected (ThrownError "Request failed without error details"), flakyWorld) /\
  attempts (client_get "/conversations/1" None)
    {| retries := -1; retryDelay := 1000; maxRetryDelay := 10000;
       retryCondition := None |} flakyWorld = 0%nat.
Proof.
  apply (executeWithRetry_negative_retries World Runtime_World).
  reflexivity.
Defined.

(* ================================================================== *)
(** * Further properties of the error normaliser *)

(** The branches of [transformError], read as a table. *)
Lemma transformError_cases :
  forall (e : Thrown) (w : World),
    exists a : ApiError.t,
      transformError e w =
        (Resolved a,
         record (Normalized e)
           (if status_is e 401
            then with_token None (tokenExpiresAt (client w)) w
            else w)) /\
      ApiError.code a =
        match error_status e with
        | Some s =>
            if (s =? 401) || (s =? 403) then UNAUTHORIZED
            else if s =? 404 then NOT_FOUND
            else if s =? 429 then RATE_LIMIT
            else if (400 <=? s) && (s <? 500) then INVALID_INPUT
            else UPSTREAM_ERROR
        | None => UPSTREAM_ERROR
        end /\
      ApiError.retryAfter a =
        match error_response e with
        | Some response =>
            if Response.status response =? 429
            then Some (parseInt (retry_after_header response))
            else None
        | None => None
        end.
Proof.
  intros e w.
  unfold transformError, status_is, error_status.
  destruct (error_response e) as [response|] eqn:Hresp; cbn [option_map].
  2:{ unfold transformUpstreamError, error_status. rewrite Hresp. cbn [option_map].
      destruct (match error_code e with
                | Some c => (c =? "ECONNABORTED")%string
                | None => false
                end); eexists; repeat split. }
  destruct (Z.eqb_spec (Response.status response) 401) as [H401|H401].
  { rewrite H401. eexists. repeat split. }
  unfold transformResponseError.
  destruct (Z.eqb_spec (Response.status response) 403) as [H403|H403].
  { rewrite H403. eexists. repeat split. }
  destruct (Z.eqb_spec (Response.status response) 404) as [H404|H404].
  { rewrite H404. eexists. repeat split. }
  destruct (Z.eqb_spec (Response.status response) 429) as [H429|H429].
  { eexists. repeat split. }
  cbn [orb].
  destruct (Z.eqb_spec (Response.status response) 422) as [H422|H422].
  { rewrite H422. eexists. repeat split. }
  destruct (Z.eqb_spec (Response.status response) 0) as [H0|H0].
  { rewrite H0. cbn [negb andb].
    unfold transformUpstreamError, error_status. rewrite Hresp. cbn [option_map].
    rewrite H0. cbn.
    destruct (match error_code e with
              | Some c => (c =? "ECONNABORTED")%string
              | None => false
              end); eexists; repeat split. }
  cbn [negb andb].
  destruct ((400 <=? Response.status response) && (Response.status response <? 500))
    eqn:H4xx.
  { eexists. repeat split. }
  unfold transformUpstreamError, error_status. rewrite Hresp. cbn [option_map].
  destruct (Z.eqb_spec (Response.status response) 0) as [H0'|_]; [contradiction|].
  cbn [negb andb].
  destruct (match error_code e with
            | Some c => (c =? "ECONNABORTED")%string
            | None => false
            end);
    [eexists; repeat split|].
  destruct (500 <=? Response.status response); eexists; repeat split.
Qed.

(** X3.  [transformError] never fails, and the kind it gives depends on
    the status of the response alone: 401 and 403 are [UNAUTHORIZED], 404
    is [NOT_FOUND], 429 is [RATE_LIMIT] and carries the seconds parsed
    from [retry-after] (60 without the header), every other status from
    400 to 499 is [INVALID_INPUT], and anything else, with or without a
    response, is [UPSTREAM_ERROR]; a timeout code does not override a 4xx
    status.  It changes the world in one way only: a 401 clears the
    access token; 403 and all others leave it. *)
Theorem transformError_table :
  forall (e : Thrown) (w : World),
    exists a : ApiError.t,
      transformError e w =
        (Resolved a,
         record (Normalized e)
           (if status_is e 401
            then with_token None (tokenExpiresAt (client w)) w
            else w)) /\
      ApiError.code a =
        match error_status e with
        | Some s =>
            if (s =? 401) || (s =? 403) then UNAUTHORIZED
            else if s =? 404 then NOT_FOUND
            else if s =? 429 then RATE_LIMIT
            else if (400 <=? s) && (s <? 500) then INVALID_INPUT
            else UPSTREAM_ERROR
        | None => UPSTREAM_ERROR
        end /\
      ApiError.retryAfter a =
        match error_response e with
        | Some response =>
            if Response.status response =? 429
            then Some (parseInt (retry_after_header response))
            else None
        | None => None
        end.
Proof.
  intros e w.
  destruct (transformError_cases e w) as (a & Hworld & Hkind & Hretry).
  exists a. split; [exact Hworld|]. split; [exact Hkind | exact Hretry].
Qed.

(* ================================================================== *)
(** * Further properties of the token authenticator *)

Ltac appends :=
  unfold Appends; cbn;
  first [ exists []; split; reflexivity
        | eexists [_]; split; reflexivity
        | eexists [_; _]; split; reflexivity
        | eexists [_; _; _]; split; reflexivity
        | eexists [_; _; _; _]; split; reflexivity ].

Lemma Appends_refl (p : Event -> bool) (w : World) : Appends p w w.
Proof. exists []. split; reflexivity. Qed.

Lemma Appends_trans (p : Event -> bool) (w w1 w2 : World) :
  Appends p w w1 -> Appends p w1 w2 -> Appends p w w2.
Proof.
  intros (n1 & H1 & P1) (n2 & H2 & P2). exists (n2 ++ n1)%list. split.
  - rewrite H2, H1. apply app_assoc.
  - rewrite forallb_app, P1, P2. reflexivity.
Qed.

Lemma Untouched_refl (w : World) : Untouched w w.
Proof. repeat split. Qed.

Lemma Untouched_trans (w w1 w2 : World) :
  Untouched w w1 -> Untouched w1 w2 -> Untouched w w2.
Proof.
  unfold Untouched. intros (A1 & A2 & A3 & A4 & A5 & A6) (B1 & B2 & B3 & B4 & B5 & B6).
  repeat split; congruence.
Qed.

(** What [authenticate] leaves alone, and how it ends. *)
Lemma authenticate_frame (w : World) :
  Untouched w (snd (authenticate w)) /\
  api (snd (authenticate w)) = api w /\
  cache (snd (authenticate w)) = cache w /\
  now (snd (authenticate w)) = now w /\
  randoms (snd (authenticate w)) = randoms w /\
  Appends isRequestEvent w (snd (authenticate w)) /\
  match fst (authenticate w) with
  | Resolved _ => accessToken (client (snd (authenticate w))) <> None
  | Rejected e =>
      e = ThrownError "Failed to authenticate with Help Scout API" /\
      client (snd (authenticate w)) = client w
  end.
Proof.
  unfold authenticate, try_catch.
  destruct (nonempty (apiKey (config w))
            && startsWith (or_default (apiKey (config w)) "") "Bearer ").
  { cbn. repeat split; [appends | discriminate]. }
  destruct (negb (nonempty (clientId (config w)))
            || negb (nonempty (clientSecret (config w)))).
  { cbn. repeat split. appends. }
  unfold bind, requestToken. cbn.
  destruct (oauth w) as [|[access_token expires_in|error] rest]; cbn;
    repeat split; try appends; discriminate.
Qed.

(** Without a personal access token and without both credentials,
    [authenticate] fails before it asks for anything. *)
Lemma authenticate_without_credentials (w : World) :
  staticToken (config w) = false ->
  credentialsMissing (config w) = true ->
  authenticate w =
    (Rejected (ThrownError "Failed to authenticate with Help Scout API"),
     logger Error "Authentication failed" w).
Proof.
  unfold staticToken, credentialsMissing. intros Hs Hm.
  unfold authenticate, try_catch. rewrite Hs, Hm. reflexivity.
Qed.

(** X4.  When there is no personal access token and the client id or the
    client secret is missing or empty, [authenticate] fails without
    asking the token endpoint, and all it leaves behind is one line of
    the error log.  However [authenticate] fails, its caller gets the one
    error 'Failed to authenticate with Help Scout API' (the message that
    names the missing variables goes to the log only), and the token the
    client held and its expiry are unchanged. *)
Theorem authenticate_failure :
  forall w : World,
    (staticToken (config w) = false ->
     credentialsMissing (config w) = true ->
     authenticate w =
       (Rejected (ThrownError "Failed to authenticate with Help Scout API"),
        logger Error "Authentication failed" w)) /\
    (forall e : Thrown,
        fst (authenticate w) = Rejected e ->
        e = ThrownError "Failed to authenticate with Help Scout API" /\
        client (snd (authenticate w)) = client w /\
        staticToken (config w) = false).
Proof.
  intros w. split.
  - apply authenticate_without_credentials.
  - intros e Hrej.
    pose proof (authenticate_frame w) as (_ & _ & _ & _ & _ & _ & Hend).
    rewrite Hrej in Hend. destruct Hend as [He Hc].
    split; [exact He|]. split; [exact Hc|].
    unfold staticToken. unfold authenticate, try_catch in Hrej.
    destruct (nonempty (apiKey (config w))
              && startsWith (or_default (apiKey (config w)) "") "Bearer ");
      [discriminate | reflexivity].
Qed.

Lemma authenticate_failure_witness :
  authenticate noCredentials =
    (Rejected (ThrownError "Failed to authenticate with Help Scout API"),
     logger Error "Authentication failed" noCredentials).
Proof.
  apply (proj1 (authenticate_failure noCredentials)); reflexivity.
Defined.

(** X5.  With no personal access token, both credentials present and a
    token endpoint that grants a token, [authenticate] asks the endpoint
    once and nothing else, stores the token it is given, and sets the
    expiry to the granted lifetime less one minute.  The token then
    passes the validity check exactly when it is not empty and the
    lifetime granted is more than sixty seconds: a shorter-lived token is
    stored already expired. *)
Theorem authenticate_client_credentials :
  forall (w : World) (access_token : string) (expires_in : Z) (rest : list TokenReply),
    staticToken (config w) = false ->
    credentialsMissing (config w) = false ->
    oauth w = Granted access_token expires_in :: rest ->
    fst (authenticate w) = Resolved tt /\
    accessToken (client (snd (authenticate w))) = Some access_token /\
    tokenExpiresAt (client (snd (authenticate w))) = now w + expires_in * 1000 - 60000 /\
    tokenRequests (snd (authenticate w)) = Datatypes.S (tokenRequests w) /\
    networkCalls (snd (authenticate w)) = networkCalls w /\
    oauth (snd (authenticate w)) = rest /\
    (tokenIsValid (snd (authenticate w)) = true <->
     access_token <> "" /\ 60 < expires_in).
Proof.
  intros w access_token expires_in rest Hs Hm Ho.
  unfold staticToken, credentialsMissing in *.
  unfold authenticate, try_catch. rewrite Hs, Hm.
  unfold bind, requestToken. cbn. rewrite Ho. cbn.
  repeat split.
  - unfold tokenIsValid in H. cbn in H. apply andb_true_iff in H. destruct H as [H _].
    intros ->. discriminate H.
  - unfold tokenIsValid in H. cbn in H. apply andb_true_iff in H. destruct H as [_ H].
    apply Z.ltb_lt in H. lia.
  - intros [Hne Hlt]. unfold tokenIsValid. cbn. apply andb_true_iff. split.
    + destruct (String.eqb_spec access_token ""); [contradiction | reflexivity].
    + apply Z.ltb_lt. lia.
Qed.

Lemma authenticate_client_credentials_witness :
  fst (authenticate oauthWorld) = Resolved tt /\
  accessToken (client (snd (authenticate oauthWorld))) = Some "oauth-token" /\
  tokenExpiresAt (client (snd (authenticate oauthWorld)))
    = now oauthWorld + 3600 * 1000 - 60000 /\
  tokenRequests (snd (authenticate oauthWorld)) = Datatypes.S (tokenRequests oauthWorld) /\
  networkCalls (snd (authenticate oauthWorld)) = networkCalls oauthWorld /\
  oauth (snd (authenticate oauthWorld)) = [] /\
  (tokenIsValid (snd (authenticate oauthWorld)) = true <->
   "oauth-token" <> "" /\ 60 < 3600).
Proof.
  apply (authenticate_client_credentials oauthWorld "oauth-token" 3600 []);
    reflexivity.
Defined.

(* ================================================================== *)
(** * Further properties of one request *)

Lemma ensureAuthenticated_frame (w : World) :
  Untouched w (snd (ensureAuthenticated w)) /\
  api (snd (ensureAuthenticated w)) = api w /\
  cache (snd (ensureAuthenticated w)) = cache w /\
  now (snd (ensureAuthenticated w)) = now w /\
  randoms (snd (ensureAuthenticated w)) = randoms w /\
  Appends isRequestEvent w (snd (ensureAuthenticated w)) /\
  match fst (ensureAuthenticated w) with
  | Resolved _ => accessToken (client (snd (ensureAuthenticated w))) <> None
  | Rejected e =>
      e = ThrownError "Failed to authenticate with Help Scout API" /\
      client (snd (ensureAuthenticated w)) = client w
  end.
Proof.
  unfold ensureAuthenticated. destruct (tokenIsValid w) eqn:Hv.
  - cbn. repeat split. { apply Appends_refl. }
    unfold tokenIsValid in Hv. apply andb_true_iff in Hv. destruct Hv as [Hv _].
    intros Hnone. rewrite Hnone in Hv. discriminate Hv.
  - apply authenticate_frame.
Qed.

(** The failure side of the response interceptor, for an error that is
    not a 4xx response: the caller gets an [UPSTREAM_ERROR] and nothing
    changes but the trace. *)
Lemma onResponseError_upstream (e : Thrown) (w : World) :
  (forall s, error_status e = Some s -> 500 <= s) ->
  exists a : ApiError.t,
    onResponseError e w =
      (Rejected (ThrownApi a), record (Normalized e) (logger Error "API error" w)) /\
    ApiError.code a = UPSTREAM_ERROR.
Proof.
  intros Hs. unfold onResponseError, bind, effect, throw.
  destruct (transformError_cases e (logger Error "API error" w)) as (a & Heq & Hcode & _).
  rewrite Heq. exists a.
  assert (H401 : status_is e 401 = false).
  { unfold status_is. destruct (error_status e) as [s|] eqn:Hst; [|reflexivity].
    specialize (Hs s eq_refl). apply Z.eqb_neq. lia. }
  rewrite H401. split; [reflexivity|].
  rewrite Hcode. destruct (error_status e) as [s|]; [|reflexivity].
  specialize (Hs s eq_refl).
  replace (s =? 401) with false by (symmetry; apply Z.eqb_neq; lia).
  replace (s =? 403) with false by (symmetry; apply Z.eqb_neq; lia).
  replace (s =? 404) with false by (symmetry; apply Z.eqb_neq; lia).
  replace (s =? 429) with false by (symmetry; apply Z.eqb_neq; lia).
  replace (s <? 500) with false by (symmetry; apply Z.ltb_ge; lia).
  rewrite andb_false_r. reflexivity.
Qed.

Lemma onRequest_frame (request : Config.t) (w : World) :
  Untouched w (snd (onRequest request w)) /\
  api (snd (onRequest request w)) = api w /\
  cache (snd (onRequest request w)) = cache w /\
  now (snd (onRequest request w)) = now w /\
  Appends isRequestEvent w (snd (onRequest request w)) /\
  match fst (onRequest request w) with
  | Resolved _ => accessToken (client (snd (onRequest request w))) <> None
  | Rejected e =>
      e = ThrownError "Failed to authenticate with Help Scout API" /\
      client (snd (onRequest request w)) = client w
  end.
Proof.
  unfold onRequest, bind.
  pose proof (ensureAuthenticated_frame w) as (U1 & A1 & C1 & N1 & R1 & P1 & E1).
  destruct (ensureAuthenticated w) as [[[]|e] w1]; cbn [fst snd] in *.
  - assert (Hstep : Untouched w1 (snd (random w1)) /\
                    api (snd (random w1)) = api w1 /\
                    cache (snd (random w1)) = cache w1 /\
                    now (snd (random w1)) = now w1 /\
                    trace (snd (random w1)) = trace w1 /\
                    client (snd (random w1)) = client w1).
    { cbn. destruct (randoms w1); repeat split. }
    destruct (random w1) as [draw w2]. cbn [fst snd] in *.
    destruct Hstep as (U2 & A2 & C2 & N2 & T2 & K2).
    split; [eapply Untouched_trans; [exact U1 | exact U2]|].
    split; [cbn; congruence|]. split; [cbn; congruence|]. split; [cbn; congruence|].
    split.
    + destruct P1 as (new & Ht & Hp).
      exists (Logged Debug "API request" :: new)%list. split.
      * cbn. rewrite T2, Ht. reflexivity.
      * cbn. exact Hp.
    + cbn. rewrite K2. exact E1.
  - split; [exact U1|]. split; [exact A1|]. split; [exact C1|].
    split; [exact N1|]. split; [exact P1|]. exact E1.
Qed.

Lemma dispatchRequest_frame (prepared : Config.t) (w : World) :
  Untouched w (snd (dispatchRequest prepared w)) /\
  cache (snd (dispatchRequest prepared w)) = cache w /\
  now (snd (dispatchRequest prepared w)) = now w /\
  client (snd (dispatchRequest prepared w)) = client w /\
  trace (snd (dispatchRequest prepared w)) = Sent prepared :: trace w /\
  api (snd (dispatchRequest prepared w)) = tl (api w) /\
  match fst (dispatchRequest prepared w) with
  | Resolved r =>
      Response.status r < 500 /\ exists rest, api w = Answer r :: rest
  | Rejected e => forall s, error_status e = Some s -> 500 <= s
  end.
Proof.
  unfold dispatchRequest.
  destruct (api w) as [|[response|code message] rest] eqn:Hapi; cbn; rewrite ?Hapi.
  - cbn. repeat split; [exact Hapi|]. intros s Hs. discriminate Hs.
  - unfold validateStatus.
    destruct (Z.ltb_spec (Response.status response) 500) as [Hlt|Hge]; cbn;
      repeat split.
    + exact Hlt.
    + exists rest. reflexivity.
    + intros s Hs. unfold error_status in Hs. cbn in Hs. inversion Hs; subst. exact Hge.
  - cbn. repeat split. intros s Hs. discriminate Hs.
Qed.

(** How one request through the axios instance ends and what it leaves
    alone. *)
Lemma clientRequest_frame (request : Config.t) (w : World) :
  Untouched w (snd (clientRequest request w)) /\
  cache (snd (clientRequest request w)) = cache w /\
  now (snd (clientRequest request w)) = now w /\
  Appends isRequestEvent w (snd (clientRequest request w)) /\
  (accessToken (client w) <> None ->
   accessToken (client (snd (clientRequest request w))) <> None) /\
  match fst (clientRequest request w) with
  | Resolved r =>
      Response.status r < 500 /\
      api w = Answer r :: api (snd (clientRequest request w))
  | Rejected e => exists a, e = ThrownApi a /\ ApiError.code a = UPSTREAM_ERROR
  end.
Proof.
  unfold clientRequest, then_, bind.
  pose proof (onRequest_frame request w) as (U1 & A1 & C1 & N1 & P1 & E1).
  destruct (onRequest request w) as [[prepared|e] w1]; cbn [fst snd] in *.
  - pose proof (dispatchRequest_frame prepared w1) as (U2 & C2 & N2 & K2 & T2 & A2 & E2).
    pose proof (Untouched_trans _ _ _ U1 U2) as U12.
    destruct P1 as (new & Ht & Hp).
    destruct (dispatchRequest prepared w1) as [[r|e] w2]; cbn [fst snd] in *.
    + unfold onResponse, bind, effect, ret. cbn [fst snd].
      destruct E2 as (Hlt & rest & Hrest).
      split; [exact U12|]. split; [cbn; congruence|]. split; [cbn; congruence|].
      split.
      { exists (Logged Debug "API response" :: Sent prepared :: new)%list. split.
        - cbn. rewrite T2, Ht. reflexivity.
        - cbn. exact Hp. }
      split; [intros _; cbn; rewrite K2; exact E1|].
      split; [exact Hlt|]. cbn. rewrite A2, <- A1, Hrest. reflexivity.
    + destruct (onResponseError_upstream e w2 E2) as (a & Heq & Hcode).
      rewrite Heq. cbn [fst snd].
      split; [exact U12|]. split; [cbn; congruence|]. split; [cbn; congruence|].
      split.
      { exists (Normalized e :: Logged Error "API error" :: Sent prepared :: new)%list.
        split.
        - cbn. rewrite T2, Ht. reflexivity.
        - cbn. exact Hp. }
      split; [intros _; cbn; rewrite K2; exact E1|].
      exists a. split; [reflexivity | exact Hcode].
  - destruct E1 as [-> K1].
    destruct (onResponseError_upstream
                (ThrownError "Failed to authenticate with Help Scout API") w1)
      as (a & Heq & Hcode); [cbn; discriminate|].
    rewrite Heq. cbn [fst snd].
    destruct P1 as (new & Ht & Hp).
    split; [exact U1|]. split; [cbn; congruence|]. split; [cbn; congruence|].
    split.
    { exists (Normalized (ThrownError "Failed to authenticate with Help Scout API")
              :: Logged Error "API error" :: new)%list.
      split; [cbn; rewrite Ht; reflexivity | cbn; exact Hp]. }
    split; [intros Hn; cbn; rewrite K1; exact Hn|].
    exists a. split; [reflexivity | exact Hcode].
Qed.

(** Request events are no sleeps and no cache calls. *)
Lemma Appends_request (w w' : World) :
  Appends isRequestEvent w w' ->
  delaysSlept w' = delaysSlept w /\
  cacheWrites w' = cacheWrites w /\
  sleeps w' = sleeps w /\
  cacheAccesses w' = cacheAccesses w.
Proof.
  intros (new & Ht & Hp).
  unfold delaysSlept, cacheWrites, sleeps, cacheAccesses, count. rewrite Ht.
  clear Ht. induction new as [|e new IH]; [repeat split|].
  cbn in Hp. apply andb_true_iff in Hp. destruct Hp as [He Hp].
  destruct (IH Hp) as (I1 & I2 & I3 & I4).
  destruct e; try discriminate He; cbn; repeat split; assumption.
Qed.

(** The wait after a failure that carries no response. *)
Lemma waitBeforeRetry_frame (retryConfig : RetryConfig) (k : Z) (e : Thrown)
    (w : World) :
  error_response e = None ->
  Untouched w (snd (waitBeforeRetry retryConfig k e w)) /\
  cache (snd (waitBeforeRetry retryConfig k e w)) = cache w /\
  api (snd (waitBeforeRetry retryConfig k e w)) = api w /\
  client (snd (waitBeforeRetry retryConfig k e w)) = client w /\
  cacheWrites (snd (waitBeforeRetry retryConfig k e w)) = cacheWrites w /\
  sentRequests (snd (waitBeforeRetry retryConfig k e w)) = sentRequests w /\
  exists delay : Q,
    (delay <= maxRetryDelay retryConfig)%Q /\
    delaysSlept (snd (waitBeforeRetry retryConfig k e w))
    = (delaysSlept w ++ [Num.Finite delay])%list.
Proof.
  intros Hnone. unfold waitBeforeRetry, calculateRetryDelay, bind, effect.
  rewrite Hnone. cbn.
  destruct (randoms w) as [|r rest]; cbn; repeat split;
    (eexists; split; [apply Q.le_min_r | reflexivity]).
Qed.

(** What a request under the retry executor leaves alone and how it can
    end, for any policy that allows an attempt. *)
Lemma executeWithRetry_client_frame (request : Config.t) (retryConfig : RetryConfig)
    (w : World) :
  0 <= retries retryConfig ->
  Untouched w (snd (executeWithRetry (clientRequest request) retryConfig w)) /\
  cache (snd (executeWithRetry (clientRequest request) retryConfig w)) = cache w /\
  cacheWrites (snd (executeWithRetry (clientRequest request) retryConfig w))
    = cacheWrites w /\
  (accessToken (client w) <> None ->
   accessToken (client (snd (executeWithRetry (clientRequest request) retryConfig w)))
   <> None) /\
  (exists delays : list Q,
      delaysSlept (snd (executeWithRetry (clientRequest request) retryConfig w))
      = (delaysSlept w ++ map Num.Finite delays)%list /\
      (List.length delays <= Z.to_nat (retries retryConfig))%nat /\
      Forall (fun d => (d <= maxRetryDelay retryConfig)%Q) delays) /\
  match fst (executeWithRetry (clientRequest request) retryConfig w) with
  | Resolved r => Response.status r < 500
  | Rejected e => exists a, e = ThrownApi a /\ ApiError.code a = UPSTREAM_ERROR
  end.
Proof.
  intros Hpos.
  pose (Keeps := fun (s : World) (n : nat -> Prop) =>
          Untouched w s /\ cache s = cache w /\ cacheWrites s = cacheWrites w /\
          (accessToken (client w) <> None -> accessToken (client s) <> None) /\
          exists delays : list Q,
            delaysSlept s = (delaysSlept w ++ map Num.Finite delays)%list /\
            n (List.length delays) /\
            Forall (fun d => (d <= maxRetryDelay retryConfig)%Q) delays).
  assert (Hstep : forall (s : World) (n : nat -> Prop),
             Keeps s n ->
             Keeps (snd (clientRequest request s)) n).
  { intros s n (U & C & CW & T & delays & D & L & F).
    pose proof (clientRequest_frame request s) as (U' & C' & _ & P' & T' & _).
    destruct (Appends_request _ _ P') as (D' & CW' & _ & _).
    split; [eapply Untouched_trans; eassumption|].
    split; [congruence|]. split; [congruence|].
    split; [intros Hn; apply T', T, Hn|].
    exists delays. split; [congruence|]. split; assumption. }
  enough (Hall :
            Keeps (snd (executeWithRetry (clientRequest request) retryConfig w))
              (fun n => (n <= Z.to_nat (retries retryConfig))%nat) /\
            match fst (executeWithRetry (clientRequest request) retryConfig w) with
            | Resolved r => Response.status r < 500
            | Rejected e => exists a, e = ThrownApi a /\ ApiError.code a = UPSTREAM_ERROR
            end).
  { destruct Hall as [(U & C & CW & T & D) E]. repeat (split; [assumption|]). exact E. }
  apply (executeWithRetry_rule (clientRequest request) retryConfig
           (fun k s => Keeps s (fun n => n = Z.to_nat k))
           (fun r s =>
              Keeps s (fun n => (n <= Z.to_nat (retries retryConfig))%nat) /\
              match r with
              | Resolved r => Response.status r < 500
              | Rejected e => exists a, e = ThrownApi a /\ ApiError.code a = UPSTREAM_ERROR
              end)).
  - intros k s r s1 Hinv Hk Hop.
    pose proof (Hstep s _ Hinv) as Hs. rewrite Hop in Hs. cbn [snd] in Hs.
    pose proof (clientRequest_frame request s) as (_ & _ & _ & _ & _ & E).
    rewrite Hop in E. cbn [fst] in E.
    split; [|apply E].
    destruct Hs as (U & C & CW & T & delays & D & L & F).
    repeat (split; [assumption|]). exists delays. repeat split; try assumption. lia.
  - intros k s e s1 Hinv Hk Hop _.
    pose proof (Hstep s _ Hinv) as Hs. rewrite Hop in Hs. cbn [snd] in Hs.
    pose proof (clientRequest_frame request s) as (_ & _ & _ & _ & _ & E).
    rewrite Hop in E. cbn [fst] in E.
    split; [|apply E].
    destruct Hs as (U & C & CW & T & delays & D & L & F).
    repeat (split; [assumption|]). exists delays. repeat split; try assumption. lia.
  - intros k s e s1 Hinv Hk Hop _.
    pose proof (Hstep s _ Hinv) as Hs. rewrite Hop in Hs. cbn [snd] in Hs.
    pose proof (clientRequest_frame request s) as (_ & _ & _ & _ & _ & E).
    rewrite Hop in E. cbn [fst] in E. destruct E as (a & -> & _).
    destruct (waitBeforeRetry_frame retryConfig k (ThrownApi a) s1 eq_refl)
      as (U' & C' & _ & K' & CW' & _ & delay & Hle & D').
    destruct Hs as (U & C & CW & T & delays & D & L & F).
    split; [eapply Untouched_trans; eassumption|].
    split; [congruence|]. split; [congruence|].
    split; [intros Hn; rewrite K'; apply T, Hn|].
    exists (delays ++ [delay])%list. split; [|split].
    + rewrite D', D, map_app, <- app_assoc. reflexivity.
    + rewrite length_app. cbn. lia.
    + apply Forall_app. split; [assumption | constructor; [assumption | constructor]].
  - intros s _ Hneg. lia.
  - split; [apply Untouched_refl|]. split; [reflexivity|]. split; [reflexivity|].
    split; [intros Hn; exact Hn|].
    exists []. split; [cbn; rewrite app_nil_r; reflexivity|]. split; [reflexivity | constructor].
Qed.

(* ================================================================== *)
(** * Further properties of the verbs *)

(** A verb is a quiet step, the executor, and a quiet step that cannot
    fail. *)
Lemma verb_frame {A} (request : Config.t) (k : Response.t -> Async World A)
    (w0 w : World) :
  Untouched w0 w -> client w = client w0 -> delaysSlept w = delaysSlept w0 ->
  cache w = cache w0 -> cacheWrites w = cacheWrites w0 ->
  (forall r w1,
      (exists a, fst (k r w1) = Resolved a) /\
      Untouched w1 (snd (k r w1)) /\
      client (snd (k r w1)) = client w1 /\
      delaysSlept (snd (k r w1)) = delaysSlept w1) ->
  Untouched w0
    (snd (bind (executeWithRetry (clientRequest request) defaultRetryConfig) k w)) /\
  (accessToken (client w0) <> None ->
   accessToken
     (client (snd (bind (executeWithRetry (clientRequest request) defaultRetryConfig) k w)))
   <> None) /\
  (exists delays : list Q,
      delaysSlept
        (snd (bind (executeWithRetry (clientRequest request) defaultRetryConfig) k w))
      = (delaysSlept w0 ++ map Num.Finite delays)%list /\
      (List.length delays <= 3)%nat /\
      Forall (fun d => (d <= 10000)%Q) delays) /\
  (forall e,
      fst (bind (executeWithRetry (clientRequest request) defaultRetryConfig) k w)
      = Rejected e ->
      (exists a, e = ThrownApi a /\ ApiError.code a = UPSTREAM_ERROR) /\
      cache (snd (bind (executeWithRetry (clientRequest request) defaultRetryConfig) k w))
      = cache w0 /\
      cacheWrites
        (snd (bind (executeWithRetry (clientRequest request) defaultRetryConfig) k w))
      = cacheWrites w0).
Proof.
  intros U0 K0 D0 C0 CW0 Hk. unfold bind.
  destruct (executeWithRetry_client_frame request defaultRetryConfig w)
    as (U & C & CW & T & (delays & D & L & F) & E); [cbn; lia|].
  rewrite defaultRetryConfig_retries in L. cbn [maxRetryDelay defaultRetryConfig] in F.
  destruct (executeWithRetry (clientRequest request) defaultRetryConfig w)
    as [[r|e] w1]; cbn [fst snd] in *.
  - destruct (Hk r w1) as ((a & Ha) & U1 & K1 & D1).
    split; [eapply Untouched_trans; [exact U0 | eapply Untouched_trans; eassumption]|].
    split; [intros Hn; rewrite K1; apply T; rewrite K0; exact Hn|].
    split; [exists delays; repeat split; try assumption; congruence|].
    intros e He. rewrite Ha in He. discriminate He.
  - split; [eapply Untouched_trans; eassumption|].
    split; [intros Hn; apply T; rewrite K0; exact Hn|].
    split; [exists delays; repeat split; try assumption; congruence|].
    intros e' He. inversion He; subst e'.
    split; [exact E|]. split; congruence.
Qed.

Ltac untouched := unfold Untouched; cbn; repeat split.

Lemma run_frame (c : Call) (w : World) :
  Untouched w (snd (run c w)) /\
  (accessToken (client w) <> None -> accessToken (client (snd (run c w))) <> None) /\
  (exists delays : list Q,
      delaysSlept (snd (run c w)) = (delaysSlept w ++ map Num.Finite delays)%list /\
      (List.length delays <= 3)%nat /\
      Forall (fun d => (d <= 10000)%Q) delays) /\
  (forall e,
      fst (run c w) = Rejected e ->
      (exists a, e = ThrownApi a /\ ApiError.code a = UPSTREAM_ERROR) /\
      cache (snd (run c w)) = cache w /\
      cacheWrites (snd (run c w)) = cacheWrites w).
Proof.
  destruct c as [endpoint params cacheOptions | endpoint data | endpoint data
                | endpoint data | conversationId attachmentId]; cbn [run].
  - unfold get, cache_get.
    destruct (truthy (cache_lookup (cache w) ("GET:" ++ endpoint) params (now w))).
    + cbn. split; [untouched|]. split; [intros Hn; exact Hn|].
      split; [exists []; cbn; rewrite app_nil_r; repeat split; [lia | constructor]|].
      intros e He. discriminate He.
    + apply verb_frame; try reflexivity; [untouched|].
      intros r w1.
      destruct cacheOptions as [[ttl|]|]; cbn;
        (split; [eexists; reflexivity | split; [untouched | split; reflexivity]]).
  - apply verb_frame; try reflexivity; [untouched|].
    intros r w1. destruct (Response.status r =? 204); cbn;
      (split; [eexists; reflexivity | split; [untouched | split; reflexivity]]).
  - apply verb_frame; try reflexivity; [untouched|].
    intros r w1. destruct (nonempty (assoc "resource-id" (Response.headers r))); cbn;
      (split; [eexists; reflexivity | split; [untouched | split; reflexivity]]).
  - apply verb_frame; try reflexivity; [untouched|].
    intros r w1. destruct (Response.status r =? 204); cbn;
      (split; [eexists; reflexivity | split; [untouched | split; reflexivity]]).
  - unfold getAttachmentData, client_get.
    change (bind (effect (logger Info "Downloading attachment data")) _ w)
      with (bind (executeWithRetry
                    (clientRequest
                       (mkRequest "get"
                          ("/conversations/" ++ conversationId ++ "/attachments/"
                             ++ attachmentId ++ "/data")%string None JUndefined))
                    defaultRetryConfig)
                 (fun response => ret (Response.data response))
                 (logger Info "Downloading attachment data" w)).
    apply verb_frame; try reflexivity; [untouched|].
    intros r w1. cbn.
    split; [eexists; reflexivity | split; [untouched | split; reflexivity]].
Qed.

(** X6.  Whatever verb is called and however the upstream service
    behaves, an error that reaches the caller is an [ApiError] of kind
    [UPSTREAM_ERROR]: with the client as built, no call fails with
    [UNAUTHORIZED], [NOT_FOUND], [RATE_LIMIT] or [INVALID_INPUT]. *)
Theorem facade_errors_are_upstream_errors :
  forall (c : Call) (w : World) (e : Thrown),
    fst (run c w) = Rejected e ->
    exists a : ApiError.t, e = ThrownApi a /\ ApiError.code a = UPSTREAM_ERROR.
Proof.
  intros c w e He.
  destruct (run_frame c w) as (_ & _ & _ & Hrej).
  apply (Hrej e He).
Qed.

Lemma facade_errors_are_upstream_errors_witness :
  exists a : ApiError.t,
    match fst (run (Put "/conversations/1" JNull) outageWorld) with
    | Rejected e => e
    | Resolved _ => ThrownError ""
    end = ThrownApi a /\ ApiError.code a = UPSTREAM_ERROR.
Proof.
  apply (facade_errors_are_upstream_errors (Put "/conversations/1" JNull) outageWorld).
  vm_compute. reflexivity.
Defined.

(** X7.  No call on a verb changes the configuration, the agent store or
    the agents the client and its axios instance use; and no call takes
    away the access token: a client that holds one before a call holds
    one after it, whatever the upstream service answered. *)
Theorem calls_keep_setup_and_token :
  forall (c : Call) (w : World),
    Untouched w (snd (run c w)) /\
    (accessToken (client w) <> None ->
     accessToken (client (snd (run c w))) <> None).
Proof.
  intros c w. destruct (run_frame c w) as (U & T & _). split; assumption.
Qed.

Lemma calls_keep_setup_and_token_witness :
  accessToken
    (client (snd (run (Get "/conversations/1" None None)
                    (snd (run (Get "/conversations/1" None None) unauthorizedWorld)))))
  <> None.
Proof.
  apply (calls_keep_setup_and_token (Get "/conversations/1" None None)
           (snd (run (Get "/conversations/1" None None) unauthorizedWorld))).
  vm_compute. intro H. discriminate H.
Defined.

(** X8.  During a call on a verb the client sleeps at most three times,
    and never longer than ten seconds at a time, the default policy's
    maximum delay, whatever the random jitter. *)
Theorem calls_sleep_at_most_three_capped_delays :
  forall (c : Call) (w : World),
    exists delays : list Q,
      delaysSlept (snd (run c w)) = (delaysSlept w ++ map Num.Finite delays)%list /\
      (List.length delays <= 3)%nat /\
      Forall (fun d => (d <= 10000)%Q) delays.
Proof.
  intros c w. destruct (run_frame c w) as (_ & _ & D & _). exact D.
Qed.

(* ================================================================== *)
(** * Cache misses *)

(** C10, as the code has it.  [get] looks the key up and tests what it
    finds for truthiness.  When the value found is falsy (nothing, an
    expired entry, an empty string, zero, false, null), the call is a
    miss and goes through the retry executor.  A request is then put on
    the wire whenever the request interceptor can authenticate, and a
    miss never returns a value without one; a miss that puts nothing on
    the wire fails, with an [UPSTREAM_ERROR], after [transformError] has
    run, and leaves the cache as it was.  [get] answers from the cache
    alone, leaving nothing behind but the cache read, exactly when the
    value found is truthy. *)
Theorem get_falsy_cached_value_is_miss :
  forall (endpoint : string) (params : Params) (cacheOptions : option (option Z))
         (w : World),
    let cachedResult := fst (cache_get ("GET:" ++ endpoint) params w) in
    let afterRead := snd (cache_get ("GET:" ++ endpoint) params w) in
    let out := get endpoint params cacheOptions w in
    (truthy cachedResult = false ->
       Executed w out /\
       (fst (ensureAuthenticated w) = Resolved tt ->
        (networkCalls w < networkCalls (snd out))%nat) /\
       (forall v, fst out = Resolved v ->
                  (networkCalls w < networkCalls (snd out))%nat) /\
       (networkCalls (snd out) = networkCalls w ->
        exists a : ApiError.t,
          fst out = Rejected (ThrownApi a) /\
          ApiError.code a = UPSTREAM_ERROR /\
          (normalizations w < normalizations (snd out))%nat /\
          cache (snd out) = cache w))
    /\ (out = (Resolved cachedResult, afterRead) <-> truthy cachedResult = true).
Proof.
  intros endpoint params cacheOptions w cachedResult afterRead out.
  assert (Hmiss : truthy cachedResult = false -> Executed w out).
  { intros Hf. apply get_miss_Executed. exact Hf. }
  split.
  - intros Hf. split; [apply Hmiss; exact Hf|]. split; [|split].
    + intros Hauth. unfold out, get.
      fold cachedResult afterRead.
      change (cache_get ("GET:" ++ endpoint) params w) with (cachedResult, afterRead).
      cbn iota. rewrite Hf. unfold bind.
      assert (Hauth' : fst (ensureAuthenticated afterRead) = Resolved tt).
      { unfold afterRead, cache_get. cbn [snd].
        rewrite ensureAuthenticated_record. exact Hauth. }
      pose proof (executeWithRetry_sends (mkRequest "get" endpoint params JUndefined)
                    defaultRetryConfig afterRead ltac:(cbn; lia) Hauth') as Hs.
      assert (Hn : networkCalls afterRead = networkCalls w) by reflexivity.
      unfold client_get.
      destruct (executeWithRetry
                  (clientRequest (mkRequest "get" endpoint params JUndefined))
                  defaultRetryConfig afterRead) as [[r|e] w2]; cbn [fst snd] in Hs |- *.
      * destruct cacheOptions as [[ttl|]|]; unfold networkCalls, count in *; cbn; lia.
      * lia.
    + intros v Hv.
      destruct (Hmiss Hf) as (failed & sent & _ & _ & Hn & _ & Hm).
      rewrite Hv in Hm. destruct Hm as [Hone _]. lia.
    + intros Hsame.
      destruct (Hmiss Hf) as (failed & sent & _ & _ & Hn & _ & Hm).
      destruct (run_frame (Get endpoint params cacheOptions) w) as (_ & _ & _ & Hrej).
      cbn [run] in Hrej. fold out in Hrej.
      destruct (fst out) as [v|e] eqn:Hout.
      * destruct Hm as [Hone _]. lia.
      * destruct (Hrej e eq_refl) as ((a & -> & Hcode) & Hcache & _).
        destruct Hm as [_ Hnorm].
        exists a. split; [reflexivity|]. split; [exact Hcode|].
        split; [lia | exact Hcache].
  - split.
    + intros Heq. destruct (truthy cachedResult) eqn:Ht; [reflexivity|].
      destruct (Hmiss eq_refl) as (failed & sent & _ & _ & Hn & _ & Hm).
      rewrite Heq in Hn, Hm. cbn [fst snd] in Hn, Hm.
      destruct Hm as [Hone _].
      assert (Hsame : networkCalls afterRead = networkCalls w) by reflexivity.
      lia.
    + intros Ht. apply get_hit. exact Ht.
Qed.

Lemma get_falsy_cached_value_is_miss_witness :
  truthy (fst (cache_get "GET:/conversations/1" None emptyBodyCached)) = false /\
  (networkCalls emptyBodyCached <
   networkCalls (snd (get "/conversations/1" None None emptyBodyCached)))%nat.
Proof.
  split; [reflexivity|].
  destruct (get_falsy_cached_value_is_miss "/conversations/1" None None emptyBodyCached)
    as [Hmiss _].
  destruct (Hmiss eq_refl) as (_ & Hsent & _).
  apply Hsent. reflexivity.
Defined.

(** C10, the claim as stated, fails: a miss does not always issue a
    network call.  A client with neither a personal access token nor
    OAuth2 credentials finds nothing in the cache, and its read fails
    after the retries without one request to the API and without one to
    the token endpoint. *)
Lemma get_miss_without_credentials_sends_nothing :
  truthy (fst (cache_get "GET:/conversations/1" None noCredentials)) = false /\
  networkCalls (snd (get "/conversations/1" None None noCredentials))
    = networkCalls noCredentials /\
  tokenRequests (snd (get "/conversations/1" None None noCredentials))
    = tokenRequests noCredentials /\
  isApiError (fst (get "/conversations/1" None None noCredentials)) = true /\
  ~ (forall (endpoint : string) (params : Params)
            (cacheOptions : option (option Z)) (w : World),
        truthy (fst (cache_get ("GET:" ++ endpoint) params w)) = false ->
        (networkCalls w < networkCalls (snd (get endpoint params cacheOptions w)))%nat).
Proof.
  split; [reflexivity|]. split; [vm_compute; reflexivity|].
  split; [vm_compute; reflexivity|]. split; [vm_compute; reflexivity|].
  intros Hall.
  pose proof (Hall "/conversations/1" None None noCredentials eq_refl) as Hlt.
  vm_compute in Hlt. lia.
Qed.

(* ================================================================== *)
(** * Retries against a scripted upstream service *)

(** With a personal access token configured the request interceptor can
    always authenticate. *)
Lemma staticToken_authenticates (w : World) :
  staticToken (config w) = true ->
  fst (ensureAuthenticated w) = Resolved tt.
Proof.
  unfold staticToken. intros Hs.
  unfold ensureAuthenticated. destruct (tokenIsValid w); [reflexivity|].
  unfold authenticate, try_catch. rewrite Hs. reflexivity.
Qed.

Lemma dispatchRequest_head (prepared : Config.t) (first : Reply)
    (rest : list Reply) (w : World) :
  api w = first :: rest ->
  api (snd (dispatchRequest prepared w)) = rest /\
  match first with
  | Answer r =>
      if validateStatus (Response.status r)
      then fst (dispatchRequest prepared w) = Resolved r
      else exists e, fst (dispatchRequest prepared w) = Rejected e
  | NoAnswer _ _ => exists e, fst (dispatchRequest prepared w) = Rejected e
  end.
Proof.
  intros Hapi. unfold dispatchRequest. cbn. rewrite Hapi.
  destruct first as [r|code message].
  - destruct (validateStatus (Response.status r)); cbn; split;
      try reflexivity; eexists; reflexivity.
  - cbn. split; [reflexivity | eexists; reflexivity].
Qed.

Lemma onResponseError_api (e : Thrown) (w : World) :
  api (snd (onResponseError e w)) = api w.
Proof.
  unfold onResponseError, bind, effect, throw.
  destruct (transformError_cases e (logger Error "API error" w)) as (a & Heq & _).
  rewrite Heq. cbn. destruct (status_is e 401); reflexivity.
Qed.

(** One attempt that the network answers: which reply it takes from the
    script and how it ends. *)
Lemma clientRequest_takes_reply (request : Config.t) (first : Reply)
    (rest : list Reply) (w : World) :
  fst (ensureAuthenticated w) = Resolved tt ->
  api w = first :: rest ->
  api (snd (clientRequest request w)) = rest /\
  match first with
  | Answer r =>
      if validateStatus (Response.status r)
      then fst (clientRequest request w) = Resolved r
      else exists a, fst (clientRequest request w) = Rejected (ThrownApi a)
  | NoAnswer _ _ => exists a, fst (clientRequest request w) = Rejected (ThrownApi a)
  end.
Proof.
  intros Hauth Hapi. unfold clientRequest, then_, bind.
  pose proof (onRequest_frame request w) as (_ & A1 & _ & _ & _ & _).
  assert (Hres : exists prepared, fst (onRequest request w) = Resolved prepared).
  { unfold onRequest, bind.
    destruct (ensureAuthenticated w) as [[[]|x] w1]; cbn in Hauth; [|discriminate].
    destruct (random w1). eexists. reflexivity. }
  destruct Hres as [prepared Hres].
  destruct (onRequest request w) as [[p|x] w1]; cbn [fst snd] in *; [|discriminate].
  rewrite Hapi in A1.
  destruct (dispatchRequest_head p first rest w1 A1) as [Hrest Hhead].
  destruct (dispatchRequest p w1) as [[r'|e] w2]; cbn [fst snd] in *.
  - split; [exact Hrest|].
    destruct first as [r|code message].
    + destruct (validateStatus (Response.status r)).
      * inversion Hhead; subst. reflexivity.
      * destruct Hhead as [e He]. discriminate He.
    + destruct Hhead as [e He]. discriminate He.
  - split; [rewrite onResponseError_api; exact Hrest|].
    destruct (onResponseError_spec e w2) as [[a Ha] _].
    destruct first as [r|code message].
    + destruct (validateStatus (Response.status r)).
      * discriminate Hhead.
      * exists a. exact Ha.
    + exists a. exact Ha.
Qed.

Lemma validateStatus_below_500 (r : Response.t) :
  Response.status r < 500 -> validateStatus (Response.status r) = true.
Proof. intros H. unfold validateStatus. apply Z.ltb_lt. exact H. Qed.

(** One failed attempt against a scripted reply, and the wait after it. *)
Lemma failed_attempt_then_wait (request : Config.t) (k : Z) (f : Reply)
    (rest : list Reply) (w : World) :
  staticToken (config w) = true ->
  isServerFailure f = true ->
  api w = f :: rest ->
  exists (a : ApiError.t) (w1 : World),
    clientRequest request w = (Rejected (ThrownApi a), w1) /\
    staticToken (config (snd (waitBeforeRetry defaultRetryConfig k (ThrownApi a) w1)))
    = true /\
    api (snd (waitBeforeRetry defaultRetryConfig k (ThrownApi a) w1)) = rest /\
    Delta 1 1 1 w (snd (waitBeforeRetry defaultRetryConfig k (ThrownApi a) w1)) /\
    Delta 1 0 1 w w1 /\ api w1 = rest.
Proof.
  intros Hs Hf Hapi.
  pose proof (staticToken_authenticates w Hs) as Hauth.
  destruct (clientRequest_takes_reply request f rest w Hauth Hapi) as [Hrest Hout].
  assert (Hrej : exists a, fst (clientRequest request w) = Rejected (ThrownApi a)).
  { destruct f as [r|code message]; [|exact Hout].
    cbn in Hf. destruct (validateStatus (Response.status r)); [discriminate | exact Hout]. }
  destruct Hrej as [a Ha].
  pose proof (clientRequest_spec request w) as Hspec.
  pose proof (clientRequest_sends request w Hauth) as Hsent.
  pose proof (clientRequest_frame request w) as ((Hcfg & _) & _).
  destruct (clientRequest request w) as [x w1]. cbn [fst snd] in *. subst x.
  destruct Hspec as (_ & sent & Hle & Hd).
  assert (Hd1 : Delta 1 0 1 w w1).
  { destruct Hd as (D1 & D2 & D3 & D4 & D5). repeat split; try assumption. lia. }
  destruct (waitBeforeRetry_frame defaultRetryConfig k (ThrownApi a) w1 eq_refl)
    as ((Hcfg' & _) & _ & Hapi' & _).
  pose proof (waitBeforeRetry_Delta defaultRetryConfig k (ThrownApi a) w1) as Hw.
  exists a, w1. split; [reflexivity|].
  split; [rewrite Hcfg', Hcfg; exact Hs|].
  split; [rewrite Hapi'; exact Hrest|].
  split; [eapply Delta_trans; [exact Hd1 | exact Hw | reflexivity..]|].
  split; [exact Hd1 | exact Hrest].
Qed.

Lemma retryLoop_until_success (request : Config.t) (r : Response.t)
    (rest : list Reply) (failures : list Reply) :
  forall (k : Z) (last : option Thrown) (w : World),
    0 <= k -> k + Z.of_nat (List.length failures) <= 3 ->
    staticToken (config w) = true ->
    forallb isServerFailure failures = true ->
    Response.status r < 500 ->
    api w = (failures ++ Answer r :: rest)%list ->
    fst (retryLoop (clientRequest request) defaultRetryConfig (Z.to_nat (4 - k)) k last w)
      = Resolved r /\
    api (snd (retryLoop (clientRequest request) defaultRetryConfig
                (Z.to_nat (4 - k)) k last w)) = rest /\
    Delta (List.length failures + 1) (List.length failures) (List.length failures) w
      (snd (retryLoop (clientRequest request) defaultRetryConfig
              (Z.to_nat (4 - k)) k last w)).
Proof.
  induction failures as [|f failures IH]; intros k last w Hk Hlen Hs Hf Hr Hapi.
  - cbn [List.length app] in *.
    replace (Z.to_nat (4 - k)) with (Datatypes.S (Z.to_nat (3 - k))) by lia.
    rewrite retryLoop_step by (cbn; lia).
    pose proof (staticToken_authenticates w Hs) as Hauth.
    destruct (clientRequest_takes_reply request (Answer r) rest w Hauth Hapi)
      as [Hrest Hout].
    rewrite (validateStatus_below_500 r Hr) in Hout.
    pose proof (clientRequest_spec request w) as Hspec.
    destruct (clientRequest request w) as [x w1]. cbn [fst snd] in *. subst x.
    cbn [fst snd]. split; [reflexivity|]. split; [exact Hrest | exact Hspec].
  - cbn [List.length app forallb] in *.
    apply andb_true_iff in Hf. destruct Hf as [Hf Hfs].
    replace (Z.to_nat (4 - k)) with (Datatypes.S (Z.to_nat (4 - (k + 1)))) by lia.
    rewrite retryLoop_step by (cbn; lia).
    destruct (failed_attempt_then_wait request k f (failures ++ Answer r :: rest)%list
                w Hs Hf Hapi) as (a & w1 & Hop & Hs2 & Hapi2 & Hd2 & _).
    rewrite Hop.
    replace (k =? retries defaultRetryConfig) with false
      by (symmetry; apply Z.eqb_neq; cbn; lia).
    cbn [shouldRetry defaultRetryConfig retryCondition negb].
    rewrite defaultRetryCondition_ApiError. cbn [negb].
    destruct (IH (k + 1) (Some (ThrownApi a))
                (snd (waitBeforeRetry defaultRetryConfig k (ThrownApi a) w1)))
      as (I1 & I2 & I3); try assumption; try lia.
    split; [exact I1|]. split; [exact I2|].
    eapply Delta_trans; [exact Hd2 | exact I3 | lia..].
Qed.

(** X9.  Retry until the first success.  A personal access token being
    configured, let the upstream service fail at most three times in a
    row (no answer, or a status of 500 or more) and then answer with a
    status below 500: the request under the retry executor resolves with
    that answer, having put one request on the wire for each failure and
    one for the success, slept once after each failure, and left the
    replies after the success untouched. *)
Theorem retries_until_first_success :
  forall (request : Config.t) (failures : list Reply) (r : Response.t)
         (rest : list Reply) (w : World),
    staticToken (config w) = true ->
    forallb isServerFailure failures = true ->
    (List.length failures <= 3)%nat ->
    Response.status r < 500 ->
    api w = (failures ++ Answer r :: rest)%list ->
    fst (executeWithRetry (clientRequest request) defaultRetryConfig w) = Resolved r /\
    api (snd (executeWithRetry (clientRequest request) defaultRetryConfig w)) = rest /\
    networkCalls (snd (executeWithRetry (clientRequest request) defaultRetryConfig w))
      = (networkCalls w + List.length failures + 1)%nat /\
    sleeps (snd (executeWithRetry (clientRequest request) defaultRetryConfig w))
      = (sleeps w + List.length failures)%nat.
Proof.
  intros request failures r rest w Hs Hf Hlen Hr Hapi.
  unfold executeWithRetry.
  change (Z.to_nat (retries defaultRetryConfig + 1)) with (Z.to_nat (4 - 0)).
  destruct (retryLoop_until_success request r rest failures 0 None w)
    as (H1 & H2 & (_ & _ & D3 & D4 & _)); try assumption; try lia.
  repeat split; try assumption; lia.
Qed.

Lemma retries_until_first_success_witness :
  fst (executeWithRetry (client_get "/conversations/1" None) defaultRetryConfig flakyWorld)
    = Resolved {| Response.status := 200; Response.headers := [];
                  Response.data := JStr "ok" |} /\
  api (snd (executeWithRetry (client_get "/conversations/1" None) defaultRetryConfig
              flakyWorld)) = [reply 200 [] (JStr "unused")] /\
  networkCalls (snd (executeWithRetry (client_get "/conversations/1" None)
                       defaultRetryConfig flakyWorld))
    = (networkCalls flakyWorld + 2 + 1)%nat /\
  sleeps (snd (executeWithRetry (client_get "/conversations/1" None)
                 defaultRetryConfig flakyWorld))
    = (sleeps flakyWorld + 2)%nat.
Proof.
  apply (retries_until_first_success
           (mkRequest "get" "/conversations/1" None JUndefined)
           [reply 502 [] JNull;
            NoAnswer (Some "ECONNABORTED") "timeout of 30000ms exceeded"]
           {| Response.status := 200; Response.headers := [];
              Response.data := JStr "ok" |}
           [reply 200 [] (JStr "unused")] flakyWorld).
  - reflexivity.
  - reflexivity.
  - cbn. lia.
  - cbn. lia.
  - reflexivity.
Defined.

Lemma retryLoop_exhausted (request : Config.t) (rest : list Reply)
    (failures : list Reply) :
  forall (k : Z) (last : option Thrown) (w : World),
    0 <= k <= 3 -> Z.of_nat (List.length failures) = 4 - k ->
    staticToken (config w) = true ->
    forallb isServerFailure failures = true ->
    api w = (failures ++ rest)%list ->
    (exists a,
        fst (retryLoop (clientRequest request) defaultRetryConfig
               (Z.to_nat (4 - k)) k last w) = Rejected (ThrownApi a)) /\
    api (snd (retryLoop (clientRequest request) defaultRetryConfig
                (Z.to_nat (4 - k)) k last w)) = rest /\
    Delta (List.length failures) (List.length failures - 1) (List.length failures) w
      (snd (retryLoop (clientRequest request) defaultRetryConfig
              (Z.to_nat (4 - k)) k last w)).
Proof.
  induction failures as [|f failures IH]; intros k last w Hk Hlen Hs Hf Hapi.
  - cbn [List.length] in Hlen. lia.
  - cbn [List.length app forallb] in *.
    apply andb_true_iff in Hf. destruct Hf as [Hf Hfs].
    replace (Z.to_nat (4 - k)) with (Datatypes.S (Z.to_nat (4 - (k + 1)))) by lia.
    rewrite retryLoop_step by (cbn; lia).
    destruct (failed_attempt_then_wait request k f (failures ++ rest)%list
                w Hs Hf Hapi) as (a & w1 & Hop & Hs2 & Hapi2 & Hd2 & Hd1 & Hapi1).
    rewrite Hop.
    destruct (Z.eqb_spec k (retries defaultRetryConfig)) as [Heq|Hne].
    + cbn in Heq. subst k.
      assert (Hnil : failures = [])
        by (destruct failures; [reflexivity | cbn [List.length] in Hlen; lia]).
      subst failures. cbn [fst snd List.length app] in *.
      split; [exists a; reflexivity|]. split; [exact Hapi1 | exact Hd1].
    + cbn in Hne.
      cbn [shouldRetry defaultRetryConfig retryCondition negb].
      rewrite defaultRetryCondition_ApiError. cbn [negb].
      destruct (IH (k + 1) (Some (ThrownApi a))
                  (snd (waitBeforeRetry defaultRetryConfig k (ThrownApi a) w1)))
        as (I1 & I2 & I3); try assumption; try lia.
      split; [exact I1|]. split; [exact I2|].
      eapply Delta_trans; [exact Hd2 | exact I3 | lia..].
Qed.

(** X10.  Giving up.  A personal access token being configured, when the
    upstream service fails four times in a row (no answer, or a status of
    500 or more), the request under the retry executor fails with an
    [UPSTREAM_ERROR] after exactly four requests and three sleeps, and
    whatever the service would have answered next is never asked for. *)
Theorem gives_up_after_four_failures :
  forall (request : Config.t) (failures rest : list Reply) (w : World),
    staticToken (config w) = true ->
    forallb isServerFailure failures = true ->
    List.length failures = 4%nat ->
    api w = (failures ++ rest)%list ->
    (exists a : ApiError.t,
        fst (executeWithRetry (clientRequest request) defaultRetryConfig w)
        = Rejected (ThrownApi a) /\ ApiError.code a = UPSTREAM_ERROR) /\
    api (snd (executeWithRetry (clientRequest request) defaultRetryConfig w)) = rest /\
    networkCalls (snd (executeWithRetry (clientRequest request) defaultRetryConfig w))
      = (networkCalls w + 4)%nat /\
    sleeps (snd (executeWithRetry (clientRequest request) defaultRetryConfig w))
      = (sleeps w + 3)%nat.
Proof.
  intros request failures rest w Hs Hf Hlen Hapi.
  pose proof (executeWithRetry_client_frame request defaultRetryConfig w
                ltac:(cbn; lia)) as (_ & _ & _ & _ & _ & Hend).
  unfold executeWithRetry in *.
  change (Z.to_nat (retries defaultRetryConfig + 1)) with (Z.to_nat (4 - 0)) in *.
  destruct (retryLoop_exhausted request rest failures 0 None w)
    as ((a & H1) & H2 & (_ & _ & D3 & D4 & _)); try assumption; try lia.
  rewrite H1 in Hend. destruct Hend as (a' & Ha' & Hcode). inversion Ha'; subst a'.
  split; [exists a; split; [exact H1 | exact Hcode]|].
  split; [exact H2|]. rewrite Hlen in *. split; [exact D3 | exact D4].
Qed.

Lemma gives_up_after_four_failures_witness :
  api (snd (executeWithRetry (client_get "/conversations/1" None) defaultRetryConfig
              outageWorld)) = [reply 200 [] (JStr "late")] /\
  networkCalls (snd (executeWithRetry (client_get "/conversations/1" None)
                       defaultRetryConfig outageWorld))
    = (networkCalls outageWorld + 4)%nat /\
  sleeps (snd (executeWithRetry (client_get "/conversations/1" None)
                 defaultRetryConfig outageWorld))
    = (sleeps outageWorld + 3)%nat.
Proof.
  apply (gives_up_after_four_failures
           (mkRequest "get" "/conversations/1" None JUndefined)
           [reply 500 [] JNull; reply 500 [] JNull; reply 503 [] JNull;
            reply 500 [] JNull]
           [reply 200 [] (JStr "late")] outageWorld);
    reflexivity.
Defined.

(* ================================================================== *)
(** * A client that cannot authenticate *)

(** While the client holds no valid token and has no way to get one,
    an attempt fails before anything goes on the wire. *)
Lemma clientRequest_unauthenticated (request : Config.t) (w : World) :
  tokenIsValid w = false ->
  staticToken (config w) = false ->
  credentialsMissing (config w) = true ->
  exists a : ApiError.t,
    clientRequest request w =
      (Rejected (ThrownApi a),
       record (Normalized (ThrownError "Failed to authenticate with Help Scout API"))
         (logger Error "API error" (logger Error "Authentication failed" w))) /\
    ApiError.code a = UPSTREAM_ERROR /\
    ApiError.message a
    = "Help Scout API error: Failed to authenticate with Help Scout API".
Proof.
  intros Hv Hs Hm.
  unfold clientRequest, then_, bind, onRequest, bind, ensureAuthenticated.
  rewrite Hv. rewrite (authenticate_without_credentials w Hs Hm).
  eexists. split; [reflexivity|]. split; reflexivity.
Qed.

Lemma waitBeforeRetry_clock (retryConfig : RetryConfig) (k : Z) (e : Thrown)
    (w : World) :
  now w <= now (snd (waitBeforeRetry retryConfig k e w)) /\
  tokenRequests (snd (waitBeforeRetry retryConfig k e w)) = tokenRequests w /\
  client (snd (waitBeforeRetry retryConfig k e w)) = client w /\
  config (snd (waitBeforeRetry retryConfig k e w)) = config w.
Proof.
  unfold waitBeforeRetry, calculateRetryDelay, bind, effect.
  assert (Hel : forall d t, t <= elapse d t).
  { intros [q|] t; cbn; lia. }
  destruct (error_response e) as [response|].
  - destruct (Response.status response =? 429).
    + split; [cbn -[elapse]; apply Hel | cbn; repeat split].
    + cbn -[elapse]. destruct (randoms w);
        (split; [cbn -[elapse]; apply Hel | cbn; repeat split]).
  - cbn -[elapse]. destruct (randoms w);
      (split; [cbn -[elapse]; apply Hel | cbn; repeat split]).
Qed.

(** X11.  A client that holds no valid token, has no personal access
    token and lacks the client id or the client secret cannot send
    anything: a request under the retry executor makes its four attempts
    and sleeps three times between them although none can succeed, puts
    nothing on the wire and asks the token endpoint for nothing, and
    fails with an [UPSTREAM_ERROR] whose message is 'Help Scout API
    error: Failed to authenticate with Help Scout API'. *)
Theorem unauthenticated_client_fails_offline :
  forall (request : Config.t) (w : World),
    tokenIsValid w = false ->
    staticToken (config w) = false ->
    credentialsMissing (config w) = true ->
    exists a : ApiError.t,
      fst (executeWithRetry (clientRequest request) defaultRetryConfig w)
      = Rejected (ThrownApi a) /\
      ApiError.code a = UPSTREAM_ERROR /\
      ApiError.message a
      = "Help Scout API error: Failed to authenticate with Help Scout API" /\
      networkCalls (snd (executeWithRetry (clientRequest request) defaultRetryConfig w))
      = networkCalls w /\
      tokenRequests (snd (executeWithRetry (clientRequest request) defaultRetryConfig w))
      = tokenRequests w /\
      sleeps (snd (executeWithRetry (clientRequest request) defaultRetryConfig w))
      = (sleeps w + 3)%nat /\
      normalizations (snd (executeWithRetry (clientRequest request) defaultRetryConfig w))
      = (normalizations w + 4)%nat.
Proof.
  intros request w Hv Hs Hm.
  pose (Stuck := fun (s : World) (k : nat) =>
          tokenIsValid s = false /\ config s = config w /\
          networkCalls s = networkCalls w /\ tokenRequests s = tokenRequests w /\
          sleeps s = (sleeps w + k)%nat /\
          normalizations s = (normalizations w + k)%nat).
  assert (Hstep : forall s k, Stuck s k ->
            exists a,
              clientRequest request s = (Rejected (ThrownApi a), snd (clientRequest request s)) /\
              ApiError.code a = UPSTREAM_ERROR /\
              ApiError.message a
              = "Help Scout API error: Failed to authenticate with Help Scout API" /\
              tokenIsValid (snd (clientRequest request s)) = false /\
              config (snd (clientRequest request s)) = config w /\
              networkCalls (snd (clientRequest request s)) = networkCalls w /\
              tokenRequests (snd (clientRequest request s)) = tokenRequests w /\
              sleeps (snd (clientRequest request s)) = (sleeps w + k)%nat /\
              normalizations (snd (clientRequest request s))
              = (normalizations w + k + 1)%nat).
  { intros s k (S1 & S2 & S3 & S4 & S5 & S6).
    destruct (clientRequest_unauthenticated request s S1)
      as (a & Heq & Hcode & Hmsg); [rewrite S2; exact Hs | rewrite S2; exact Hm |].
    exists a. rewrite Heq. cbn [snd].
    split; [reflexivity|]. split; [exact Hcode|]. split; [exact Hmsg|].
    split; [exact S1|]. split; [exact S2|].
    unfold networkCalls, tokenRequests, sleeps, normalizations, count in *. cbn.
    repeat split; lia. }
  enough (Hall :
    let out := executeWithRetry (clientRequest request) defaultRetryConfig w in
    exists a,
      fst out = Rejected (ThrownApi a) /\
      ApiError.code a = UPSTREAM_ERROR /\
      ApiError.message a
      = "Help Scout API error: Failed to authenticate with Help Scout API" /\
      networkCalls (snd out) = networkCalls w /\
      tokenRequests (snd out) = tokenRequests w /\
      sleeps (snd out) = (sleeps w + 3)%nat /\
      normalizations (snd out) = (normalizations w + 4)%nat) by exact Hall.
  cbn zeta.
  apply (executeWithRetry_rule (clientRequest request) defaultRetryConfig
           (fun k s => Stuck s (Z.to_nat k))
           (fun r s =>
              exists a,
                r = Rejected (ThrownApi a) /\
                ApiError.code a = UPSTREAM_ERROR /\
                ApiError.message a
                = "Help Scout API error: Failed to authenticate with Help Scout API" /\
                networkCalls s = networkCalls w /\
                tokenRequests s = tokenRequests w /\
                sleeps s = (sleeps w + 3)%nat /\
                normalizations s = (normalizations w + 4)%nat)).
  - intros k s r s1 Hinv Hk Hop.
    destruct (Hstep s _ Hinv) as (a & Heq & _). rewrite Hop in Heq. discriminate Heq.
  - intros k s e s1 Hinv Hk Hop Hwhy.
    pose proof (Hstep s _ Hinv) as Hst. rewrite Hop in Hst. cbn [snd] in Hst.
    destruct Hst as (a & Heq & Hcode & Hmsg & _ & _ & N & T & S' & M).
    inversion Heq; subst e.
    destruct Hwhy as [Hlast | Hno]; [|discriminate Hno].
    cbn in Hlast. subst k.
    change (Z.to_nat 3) with 3%nat in *.
    exists a. repeat split; try assumption. lia.
  - intros k s e s1 Hinv Hk Hop _.
    pose proof (Hstep s _ Hinv) as Hst. rewrite Hop in Hst. cbn [snd] in Hst.
    destruct Hst as (a & Heq & _ & _ & V & C & N & T & S' & M).
    inversion Heq; subst e.
    destruct (waitBeforeRetry_clock defaultRetryConfig k (ThrownApi a) s1)
      as (Hnow & T' & K' & C').
    pose proof (waitBeforeRetry_Delta defaultRetryConfig k (ThrownApi a) s1)
      as (_ & _ & D3 & D4 & D5).
    unfold Stuck. split.
    { unfold tokenIsValid in *. rewrite K'.
      apply andb_false_iff in V. apply andb_false_iff.
      destruct V as [V | V]; [left; exact V | right].
      apply Z.ltb_ge in V. apply Z.ltb_ge. lia. }
    split; [congruence|]. split; [lia|]. split; [congruence|].
    split; [rewrite D4, S'; lia | rewrite D5, M; lia].
  - intros s _ Hneg. cbn in Hneg. lia.
  - unfold Stuck. cbn. repeat split; try assumption; lia.
Qed.

Lemma unauthenticated_client_fails_offline_witness :
  exists a : ApiError.t,
    fst (executeWithRetry (client_get "/mailboxes" None) defaultRetryConfig noCredentials)
    = Rejected (ThrownApi a) /\
    ApiError.code a = UPSTREAM_ERROR /\
    ApiError.message a
    = "Help Scout API error: Failed to authenticate with Help Scout API" /\
    networkCalls (snd (executeWithRetry (client_get "/mailboxes" None)
                         defaultRetryConfig noCredentials))
    = networkCalls noCredentials /\
    tokenRequests (snd (executeWithRetry (client_get "/mailboxes" None)
                          defaultRetryConfig noCredentials))
    = tokenRequests noCredentials /\
    sleeps (snd (executeWithRetry (client_get "/mailboxes" None)
                   defaultRetryConfig noCredentials))
    = (sleeps noCredentials + 3)%nat /\
    normalizations (snd (executeWithRetry (client_get "/mailboxes" None)
                           defaultRetryConfig noCredentials))
    = (normalizations noCredentials + 4)%nat.
Proof.
  apply (unauthenticated_client_fails_offline
           (mkRequest "get" "/mailboxes" None JUndefined) noCredentials);
    reflexivity.
Defined.

(* ================================================================== *)
(** * A first reply below 500 *)

(** When the request interceptor can authenticate and the upstream
    service answers the first request with a status below 500, that
    answer settles the call: one request, no sleep, no normalisation. *)
Lemma executeWithRetry_first_reply (request : Config.t) (r : Response.t)
    (rest : list Reply) (w : World) :
  fst (ensureAuthenticated w) = Resolved tt ->
  api w = Answer r :: rest ->
  Response.status r < 500 ->
  exists w1 : World,
    executeWithRetry (clientRequest request) defaultRetryConfig w = (Resolved r, w1) /\
    api w1 = rest /\ Delta 1 0 0 w w1 /\ Untouched w w1.
Proof.
  intros Hauth Hapi Hr.
  destruct (clientRequest_takes_reply request (Answer r) rest w Hauth Hapi)
    as [Hrest Hout].
  rewrite (validateStatus_below_500 r Hr) in Hout.
  pose proof (clientRequest_spec request w) as Hspec.
  pose proof (clientRequest_frame request w) as (U & _).
  destruct (clientRequest request w) as [x w1] eqn:Hop. cbn [fst snd] in *. subst x.
  exists w1.
  destruct (executeWithRetry_resolved_at_once (clientRequest request)
              defaultRetryConfig w w1 r ltac:(cbn; lia) Hop) as [Heq _].
  split; [exact Heq|]. split; [exact Hrest|]. split; [exact Hspec | exact U].
Qed.

(** X12.  [put] and [patch] with a first reply below 500, the request
    interceptor being able to authenticate: the call resolves after one
    request and no sleep, to nothing ([undefined]) when the status is 204
    and to the body of the reply otherwise, be the status 200 or 404. *)
Theorem put_patch_first_reply :
  forall (endpoint : string) (data : JsValue) (r : Response.t)
         (rest : list Reply) (w : World),
    fst (ensureAuthenticated w) = Resolved tt ->
    api w = Answer r :: rest ->
    Response.status r < 500 ->
    let result := if Response.status r =? 204 then JUndefined else Response.data r in
    (fst (put endpoint data w) = Resolved result /\
     networkCalls (snd (put endpoint data w)) = Datatypes.S (networkCalls w) /\
     sleeps (snd (put endpoint data w)) = sleeps w /\
     api (snd (put endpoint data w)) = rest) /\
    (fst (patch endpoint data w) = Resolved result /\
     networkCalls (snd (patch endpoint data w)) = Datatypes.S (networkCalls w) /\
     sleeps (snd (patch endpoint data w)) = sleeps w /\
     api (snd (patch endpoint data w)) = rest).
Proof.
  intros endpoint data r rest w Hauth Hapi Hr result. subst result.
  split.
  - destruct (executeWithRetry_first_reply (mkRequest "put" endpoint None data)
                r rest w Hauth Hapi Hr) as (w1 & Heq & Hrest & (_ & _ & D3 & D4 & _) & _).
    unfold put, bind, client_put. rewrite Heq.
    destruct (Response.status r =? 204); cbn; repeat split; try assumption; lia.
  - destruct (executeWithRetry_first_reply (mkRequest "patch" endpoint None data)
                r rest w Hauth Hapi Hr) as (w1 & Heq & Hrest & (_ & _ & D3 & D4 & _) & _).
    unfold patch, bind, client_patch. rewrite Heq.
    destruct (Response.status r =? 204); cbn; repeat split; try assumption; lia.
Qed.

Lemma put_patch_first_reply_witness :
  fst (put "/conversations/1" JNull notFoundWorld)
    = Resolved (JObj [("message", JStr "Not Found")]) /\
  networkCalls (snd (put "/conversations/1" JNull notFoundWorld))
    = Datatypes.S (networkCalls notFoundWorld).
Proof.
  destruct (put_patch_first_reply "/conversations/1" JNull
              {| Response.status := 404; Response.headers := [];
                 Response.data := JObj [("message", JStr "Not Found")] |}
              [] notFoundWorld) as [(H1 & H2 & _) _].
  - reflexivity.
  - reflexivity.
  - cbn. lia.
  - split; [exact H1 | exact H2].
Defined.

Lemma assoc_setProperty_same (name : string) (v : JsValue)
    (fields : list (string * JsValue)) :
  assoc name (setProperty name v fields) = Some v.
Proof.
  induction fields as [|[k x] fields IH]; cbn.
  - rewrite String.eqb_refl. reflexivity.
  - destruct (String.eqb_spec k name) as [->|Hne]; cbn.
    + rewrite String.eqb_refl. reflexivity.
    + destruct (String.eqb_spec name k) as [->|_]; [contradiction | exact IH].
Qed.

Lemma assoc_setProperty_other (name key : string) (v : JsValue)
    (fields : list (string * JsValue)) :
  key <> name ->
  assoc key (setProperty name v fields) = assoc key fields.
Proof.
  intros Hne. induction fields as [|[k x] fields IH]; cbn.
  - destruct (String.eqb_spec key name); [contradiction | reflexivity].
  - destruct (String.eqb_spec k name) as [->|Hk]; cbn.
    + destruct (String.eqb_spec key name); [contradiction | reflexivity].
    + destruct (String.eqb_spec key k); [reflexivity | exact IH].
Qed.

(** X13.  [post] with a first reply below 500 that carries a non-empty
    [resource-id] header, the request interceptor being able to
    authenticate: the call resolves after one request to an object whose
    [id] is the header read as a decimal number, whatever [id] the body
    had, and whose other properties are those of the body. *)
Theorem post_folds_resource_id :
  forall (endpoint : string) (data : JsValue) (r : Response.t)
         (rest : list Reply) (w : World) (resourceId : string),
    fst (ensureAuthenticated w) = Resolved tt ->
    api w = Answer r :: rest ->
    Response.status r < 500 ->
    assoc "resource-id" (Response.headers r) = Some resourceId ->
    resourceId <> "" ->
    exists created : JsValue,
      fst (post endpoint data w) = Resolved created /\
      prop created "id" = JNum (parseInt resourceId) /\
      (forall key, key <> "id" ->
          prop created key
          = or_default (assoc key (ownProperties (Response.data r))) JUndefined) /\
      networkCalls (snd (post endpoint data w)) = Datatypes.S (networkCalls w).
Proof.
  intros endpoint data r rest w resourceId Hauth Hapi Hr Hh Hne.
  destruct (executeWithRetry_first_reply (mkRequest "post" endpoint None data)
              r rest w Hauth Hapi Hr) as (w1 & Heq & Hrest & (_ & _ & D3 & _) & _).
  unfold post, bind, client_post. rewrite Heq, Hh.
  assert (Hnonempty : nonempty (Some resourceId) = true).
  { cbn. destruct (String.eqb_spec resourceId ""); [contradiction | reflexivity]. }
  rewrite Hnonempty. cbn [or_default].
  eexists. split; [reflexivity|]. split; [|split].
  - cbn [prop]. rewrite assoc_setProperty_same. reflexivity.
  - intros key Hkey. cbn [prop]. rewrite assoc_setProperty_other by exact Hkey.
    destruct (assoc key (ownProperties (Response.data r))); reflexivity.
  - cbn. unfold networkCalls, count in *. cbn. lia.
Qed.

Lemma post_folds_resource_id_witness :
  exists created : JsValue,
    fst (post "/conversations" JNull createdWorld) = Resolved created /\
    prop created "id" = JNum (parseInt "4711") /\
    (forall key, key <> "id" ->
        prop created key
        = or_default (assoc key (ownProperties (JObj [("subject", JStr "Hello")])))
            JUndefined) /\
    networkCalls (snd (post "/conversations" JNull createdWorld))
    = Datatypes.S (networkCalls createdWorld).
Proof.
  apply (post_folds_resource_id "/conversations" JNull
           {| Response.status := 201; Response.headers := [("resource-id", "4711")];
              Response.data := JObj [("subject", JStr "Hello")] |}
           [] createdWorld "4711").
  - reflexivity.
  - reflexivity.
  - cbn. lia.
  - reflexivity.
  - intro H. discriminate H.
Defined.

(* ================================================================== *)
(** * The connection test *)
(** X14.  [testConnection] never fails, whatever the state of the world:
    it resolves to [true] exactly when its read of ['/mailboxes'] with
    [{ page: 1, size: 1 }] resolves, and to [false] when that read is
    rejected. *)
Theorem testConnection_never_rejects :
  forall w : World,
    exists b : bool,
      fst (testConnection w) = Resolved b /\
      (b = true <->
       exists v,
         fst (get "/mailboxes"
                (Some [("page", JNum (Num.of_Z 1)); ("size", JNum (Num.of_Z 1))])
                None w) = Resolved v).
Proof.
  intros w. unfold testConnection, try_catch, bind.
  destruct (get "/mailboxes"
              (Some [("page", JNum (Num.of_Z 1)); ("size", JNum (Num.of_Z 1))])
              None w) as [[v|e] w1]; cbn.
  - exists true. split; [reflexivity|]. split; [intros _; exists v; reflexivity | reflexivity].
  - exists false. split; [reflexivity|].
    split; [discriminate | intros [v Hv]; discriminate Hv].
Qed.

(** X15.  With nothing usable in the cache and a request interceptor
    that can authenticate, [testConnection] answers [true] for any first
    reply whose status is below 500, a 401 or a 404 as well as a 200,
    after a single request. *)
Theorem testConnection_true_below_500 :
  forall (r : Response.t) (rest : list Reply) (w : World),
    truthy (fst (cache_get "GET:/mailboxes"
                   (Some [("page", JNum (Num.of_Z 1)); ("size", JNum (Num.of_Z 1))]) w))
    = false ->
    fst (ensureAuthenticated w) = Resolved tt ->
    api w = Answer r :: rest ->
    Response.status r < 500 ->
    fst (testConnection w) = Resolved true /\
    networkCalls (snd (testConnection w)) = Datatypes.S (networkCalls w).
Proof.
  intros r rest w Hmiss Hauth Hapi Hr.
  unfold testConnection, try_catch, bind, get.
  change ("GET:" ++ "/mailboxes")%string with "GET:/mailboxes".
  destruct (cache_get "GET:/mailboxes"
              (Some [("page", JNum (Num.of_Z 1)); ("size", JNum (Num.of_Z 1))]) w)
    as [cachedResult w0] eqn:Hc.
  cbn [fst] in Hmiss. rewrite Hmiss.
  assert (Hw0 : w0 = record (CacheRead "GET:/mailboxes"
                               (Some [("page", JNum (Num.of_Z 1));
                                      ("size", JNum (Num.of_Z 1))])) w).
  { unfold cache_get in Hc. inversion Hc. reflexivity. }
  assert (Hauth0 : fst (ensureAuthenticated w0) = Resolved tt).
  { rewrite Hw0, ensureAuthenticated_record. exact Hauth. }
  assert (Hapi0 : api w0 = Answer r :: rest) by (rewrite Hw0; exact Hapi).
  destruct (executeWithRetry_first_reply
              (mkRequest "get" "/mailboxes"
                 (Some [("page", JNum (Num.of_Z 1)); ("size", JNum (Num.of_Z 1))])
                 JUndefined) r rest w0 Hauth0 Hapi0 Hr)
    as (w1 & Heq & _ & (_ & _ & D3 & _) & _).
  unfold bind, client_get. rewrite Heq. cbn.
  split; [reflexivity|].
  rewrite Hw0 in D3. unfold networkCalls, count in *. cbn in *. lia.
Qed.

Lemma testConnection_true_below_500_witness :
  fst (testConnection unauthorizedWorld) = Resolved true /\
  networkCalls (snd (testConnection unauthorizedWorld))
  = Datatypes.S (networkCalls unauthorizedWorld).
Proof.
  apply (testConnection_true_below_500
           {| Response.status := 401; Response.headers := [];
              Response.data := JObj [("error", JStr "invalid_token")] |}
           [reply 200 [] (JStr "ok")] unauthorizedWorld).
  - reflexivity.
  - reflexivity.
  - reflexivity.
  - cbn. lia.
Defined.

(** X16.  When the cache holds a truthy value for the mailbox read,
    [testConnection] answers [true] from the cache alone: it does not
    authenticate and puts nothing on the wire, so it says nothing about
    the connection. *)
Theorem testConnection_answers_from_cache :
  forall w : World,
    truthy (fst (cache_get "GET:/mailboxes"
                   (Some [("page", JNum (Num.of_Z 1)); ("size", JNum (Num.of_Z 1))]) w))
    = true ->
    testConnection w =
      (Resolved true,
       record (CacheRead "GET:/mailboxes"
                 (Some [("page", JNum (Num.of_Z 1)); ("size", JNum (Num.of_Z 1))])) w).
Proof.
  intros w Hhit. unfold testConnection, try_catch, bind.
  rewrite (get_hit "/mailboxes" _ None w Hhit). reflexivity.
Qed.

Lemma testConnection_answers_from_cache_witness :
  testConnection
    (with_cache [{| entryKey := "GET:/mailboxes";
                    entryParams := Some [("page", JNum (Num.of_Z 1));
                                         ("size", JNum (Num.of_Z 1))];
                    entryValue := JObj []; entryExpires := 1700000300000 |}]
       noCredentials)
  = (Resolved true,
     record (CacheRead "GET:/mailboxes"
               (Some [("page", JNum (Num.of_Z 1)); ("size", JNum (Num.of_Z 1))]))
       (with_cache [{| entryKey := "GET:/mailboxes";
                       entryParams := Some [("page", JNum (Num.of_Z 1));
                                            ("size", JNum (Num.of_Z 1))];
                       entryValue := JObj []; entryExpires := 1700000300000 |}]
          noCredentials)).
Proof.
  apply testConnection_answers_from_cache. reflexivity.
Defined.

(* ================================================================== *)
(** * What [get] writes to the cache *)

(** X17.  [get] calls [cache.set] at most once, and only after a miss
    whose request succeeded: then it stores the body it returns under the
    key and parameters it looked up, with the caller's [ttl] when one is
    given (zero included) and the default for the endpoint otherwise.  A
    hit writes nothing, and so does a call that fails. *)
Theorem get_cache_writes :
  forall (endpoint : string) (params : Params) (cacheOptions : option (option Z))
         (w : World),
    let ttl := match cacheOptions with
               | Some (Some t) => t
               | _ => getDefaultCacheTtl endpoint
               end in
    match fst (get endpoint params cacheOptions w) with
    | Resolved v =>
        if truthy (fst (cache_get ("GET:" ++ endpoint) params w))
        then cacheWrites (snd (get endpoint params cacheOptions w)) = cacheWrites w
        else cacheWrites (snd (get endpoint params cacheOptions w))
             = (cacheWrites w ++ [(("GET:" ++ endpoint)%string, params, v, ttl)])%list
    | Rejected _ =>
        cacheWrites (snd (get endpoint params cacheOptions w)) = cacheWrites w /\
        cache (snd (get endpoint params cacheOptions w)) = cache w
    end.
Proof.
  intros endpoint params cacheOptions w ttl. subst ttl.
  unfold get, cache_get. cbn [fst snd].
  destruct (truthy (cache_lookup (cache w) ("GET:" ++ endpoint) params (now w))).
  - cbn. reflexivity.
  - unfold bind, client_get.
    destruct (executeWithRetry_client_frame
                (mkRequest "get" endpoint params JUndefined) defaultRetryConfig
                (record (CacheRead ("GET:" ++ endpoint) params) w))
      as (_ & C & CW & _); [cbn; lia|].
    destruct (executeWithRetry
                (clientRequest (mkRequest "get" endpoint params JUndefined))
                defaultRetryConfig (record (CacheRead ("GET:" ++ endpoint) params) w))
      as [[r|e] w1]; cbn [fst snd] in *.
    + destruct cacheOptions as [[t|]|]; cbn;
        unfold cacheWrites in *; cbn; rewrite CW; reflexivity.
    + split; [exact CW | exact C].
Qed.

(* ================================================================== *)
(** * What goes on the wire *)

Lemma onResponseError_sent (e : Thrown) (w : World) :
  sentRequests (snd (onResponseError e w)) = sentRequests w.
Proof.
  unfold onResponseError, bind, effect, throw.
  destruct (transformError_cases e (logger Error "API error" w)) as (a & Heq & _).
  rewrite Heq. cbn. destruct (status_is e 401); reflexivity.
Qed.

(** The request interceptor of a client that has to authenticate and has
    a personal access token. *)
Lemma onRequest_static (request : Config.t) (w : World) (token : string) :
  apiKey (config w) = Some ("Bearer " ++ token)%string ->
  tokenIsValid w = false ->
  exists (prepared : Config.t) (w1 : World),
    onRequest request w = (Resolved prepared, w1) /\
    sentRequests w1 = sentRequests w /\
    Config.method prepared = Config.method request /\
    Config.url prepared = Config.url request /\
    Config.params prepared = Config.params request /\
    Config.data prepared = Config.data request /\
    Config.metadata prepared <> None /\
    Config.Authorization prepared
    = if (token =? "")%string then Config.Authorization request
      else Some ("Bearer " ++ token)%string.
Proof.
  intros Hkey Hv.
  unfold onRequest, bind, ensureAuthenticated. rewrite Hv.
  unfold authenticate, try_catch. rewrite Hkey.
  destruct token as [|c token]; cbn;
    destruct (randoms w); cbn; do 2 eexists;
    (split; [reflexivity|]); repeat split; discriminate.
Qed.

(** X18.  A client with a personal access token that has to authenticate
    puts exactly one request on the wire per attempt: the caller's
    method, path, parameters and body, with tracing metadata attached and
    an [Authorization] header that is the configured key itself
    (['Bearer '] and the token).  When the key is the bare prefix
    ['Bearer '] the token is empty and the request goes out with no
    [Authorization] header of the client's. *)
Theorem request_carries_configured_key :
  forall (request : Config.t) (w : World) (token : string),
    apiKey (config w) = Some ("Bearer " ++ token)%string ->
    tokenIsValid w = false ->
    exists sent : Config.t,
      sentRequests (snd (clientRequest request w)) = (sentRequests w ++ [sent])%list /\
      Config.method sent = Config.method request /\
      Config.url sent = Config.url request /\
      Config.params sent = Config.params request /\
      Config.data sent = Config.data request /\
      Config.metadata sent <> None /\
      Config.Authorization sent
      = if (token =? "")%string then Config.Authorization request
        else apiKey (config w).
Proof.
  intros request w token Hkey Hv.
  destruct (onRequest_static request w token Hkey Hv)
    as (prepared & w1 & Hreq & Hsent & Hm & Hu & Hp & Hd & Hmeta & Hauth).
  exists prepared.
  split.
  - unfold clientRequest, then_, bind. rewrite Hreq.
    pose proof (dispatchRequest_frame prepared w1) as (_ & _ & _ & _ & T & _).
    destruct (dispatchRequest prepared w1) as [[r|e] w2]; cbn [fst snd] in *.
    + unfold onResponse, bind, effect, ret. cbn.
      unfold sentRequests in *. cbn. rewrite T. cbn. rewrite Hsent. reflexivity.
    + rewrite onResponseError_sent.
      unfold sentRequests in *. rewrite T. cbn. rewrite Hsent. reflexivity.
  - rewrite Hkey. repeat split; assumption.
Qed.

Lemma request_carries_configured_key_witness :
  exists sent : Config.t,
    sentRequests (snd (clientRequest (mkRequest "get" "/mailboxes" None JUndefined)
                         notFoundWorld))
    = (sentRequests notFoundWorld ++ [sent])%list /\
    Config.method sent = Some "get" /\
    Config.url sent = Some "/mailboxes" /\
    Config.params sent = None /\
    Config.data sent = JUndefined /\
    Config.metadata sent <> None /\
    Config.Authorization sent = Some "Bearer pat-123".
Proof.
  apply (request_carries_configured_key (mkRequest "get" "/mailboxes" None JUndefined)
           notFoundWorld "pat-123"); reflexivity.
Defined.

(* ================================================================== *)
(** * Further properties of the connection pool *)

Lemma length_markDestroyed (ref : nat) (store : list Agent) :
  List.length (markDestroyed ref store) = List.length store.
Proof.
  revert ref. induction store as [|a store IH]; intros [|ref]; cbn; try reflexivity.
  rewrite IH. reflexivity.
Qed.

Lemma nth_error_markDestroyed_same (ref : nat) (store : list Agent) :
  nth_error (markDestroyed ref store) ref =
  option_map (fun a => {| secure := secure a; options := options a; destroyed := true |})
    (nth_error store ref).
Proof.
  revert ref. induction store as [|a store IH]; intros [|ref]; cbn; try reflexivity.
  apply IH.
Qed.

Lemma nth_error_markDestroyed_other (ref other : nat) (store : list Agent) :
  ref <> other ->
  nth_error (markDestroyed ref store) other = nth_error store other.
Proof.
  revert ref other. induction store as [|a store IH]; intros [|ref] [|other] Hne; cbn;
    try reflexivity; try contradiction.
  apply IH. intros ->. apply Hne. reflexivity.
Qed.

Lemma markDestroyed_idempotent (ref : nat) (store : list Agent) :
  markDestroyed ref (markDestroyed ref store) = markDestroyed ref store.
Proof.
  revert ref. induction store as [|a store IH]; intros [|ref]; cbn; try reflexivity.
  rewrite IH. reflexivity.
Qed.

Lemma markDestroyed_comm (i j : nat) (store : list Agent) :
  markDestroyed i (markDestroyed j store) = markDestroyed j (markDestroyed i store).
Proof.
  revert i j. induction store as [|a store IH]; intros [|i] [|j]; cbn; try reflexivity.
  rewrite IH. reflexivity.
Qed.

(** Destroying two agents: both end up destroyed, whichever they are. *)
Lemma destroyed_after_both (i j ref : nat) (store : list Agent) :
  (ref < List.length store)%nat -> ref = i \/ ref = j ->
  option_map destroyed (nth_error (markDestroyed j (markDestroyed i store)) ref)
  = Some true.
Proof.
  intros Hlt [-> | ->].
  - rewrite markDestroyed_comm, nth_error_markDestroyed_same.
    destruct (nth_error (markDestroyed j store) i) eqn:Hn; [reflexivity|].
    apply nth_error_None in Hn. rewrite length_markDestroyed in Hn. lia.
  - rewrite nth_error_markDestroyed_same.
    destruct (nth_error (markDestroyed i store) j) eqn:Hn; [reflexivity|].
    apply nth_error_None in Hn. rewrite length_markDestroyed in Hn. lia.
Qed.

(** The agents and the fields a new client starts with. *)
Lemma constructor_agents :
  forall (poolConfig : option PartialPoolConfig) (w0 : World),
    let w := constructor poolConfig w0 in
    let given := or_default poolConfig emptyPoolConfig in
    let opts := {|
      maxSockets := or_default (maxSockets' given) 50;
      maxFreeSockets := or_default (maxFreeSockets' given) 10;
      timeout := or_default (timeout' given) 30000;
      keepAlive := or_default (keepAlive' given) true;
      keepAliveMsecs := or_default (keepAliveMsecs' given) 1000 |} in
    nth_error (agents w) (httpAgent (client w))
      = Some {| secure := false; options := opts; destroyed := false |} /\
    nth_error (agents w) (httpsAgent (client w))
      = Some {| secure := true; options := opts; destroyed := false |} /\
    httpAgent (client w) <> httpsAgent (client w) /\
    axiosHttpAgent (client w) = httpAgent (client w) /\
    axiosHttpsAgent (client w) = httpsAgent (client w) /\
    (forall ref, (ref < List.length (agents w0))%nat ->
                 nth_error (agents w) ref = nth_error (agents w0) ref) /\
    accessToken (client w) = None /\
    tokenIsValid w = false.
Proof.
  intros poolConfig w0. cbn zeta.
  unfold constructor, newAgent, spread.
  cbn [client with_agents record with_client agents httpAgent httpsAgent
       axiosHttpAgent axiosHttpsAgent logger Runtime_World fst snd accessToken
       maxSockets maxFreeSockets timeout keepAlive keepAliveMsecs DEFAULT_POOL_CONFIG].
  split; [rewrite nth_error_app1 by (rewrite length_app; cbn; lia);
          apply nth_error_snoc|].
  split; [apply nth_error_snoc|].
  split; [rewrite length_app; cbn; lia|].
  split; [reflexivity|]. split; [reflexivity|].
  split; [intros ref Hlt; rewrite !nth_error_app1 by (rewrite ?length_app; cbn; lia);
          reflexivity|].
  split; reflexivity.
Qed.

(** X19.  [new HelpScoutClient(poolConfig)] adds two agents to the
    store, a plain one and a secure one, both alive and both with the
    same options: each field given in [poolConfig], and the default for
    each field left out.  The axios instance is given these two agents,
    the agents that were in the store stay as they were, and the client
    starts without a token, so that its first request authenticates. *)
Theorem constructor_builds_pool :
  forall (poolConfig : option PartialPoolConfig) (w0 : World),
    let w := constructor poolConfig w0 in
    let given := or_default poolConfig emptyPoolConfig in
    let opts := {|
      maxSockets := or_default (maxSockets' given) 50;
      maxFreeSockets := or_default (maxFreeSockets' given) 10;
      timeout := or_default (timeout' given) 30000;
      keepAlive := or_default (keepAlive' given) true;
      keepAliveMsecs := or_default (keepAliveMsecs' given) 1000 |} in
    nth_error (agents w) (httpAgent (client w))
      = Some {| secure := false; options := opts; destroyed := false |} /\
    nth_error (agents w) (httpsAgent (client w))
      = Some {| secure := true; options := opts; destroyed := false |} /\
    httpAgent (client w) <> httpsAgent (client w) /\
    axiosHttpAgent (client w) = httpAgent (client w) /\
    axiosHttpsAgent (client w) = httpsAgent (client w) /\
    (forall ref, (ref < List.length (agents w0))%nat ->
                 nth_error (agents w) ref = nth_error (agents w0) ref) /\
    accessToken (client w) = None /\
    tokenIsValid w = false.
Proof.
  intros poolConfig w0. cbn zeta.
  pose proof (constructor_agents poolConfig w0) as H. cbn zeta in H. exact H.
Qed.

(** X20.  [clearIdleConnections] on a freshly constructed client,
    whatever pool configuration it was constructed with: the two agents
    the client had are destroyed, and they are the ones the axios
    instance goes on using; the client's fields get two new, live agents
    with the default options, which are the options of construction
    exactly when every field given to the constructor had its default
    value; the token and its expiry are the same as before. *)
Theorem clearIdleConnections_after_construction :
  forall (poolConfig : option PartialPoolConfig) (w0 : World),
    let w := constructor poolConfig w0 in
    let w' := clearIdleConnections w in
    agentDestroyed w' (httpAgent (client w)) = Some true /\
    agentDestroyed w' (httpsAgent (client w)) = Some true /\
    axiosHttpAgent (client w') = httpAgent (client w) /\
    axiosHttpsAgent (client w') = httpsAgent (client w) /\
    agentDestroyed w' (httpAgent (client w')) = Some false /\
    agentDestroyed w' (httpsAgent (client w')) = Some false /\
    agentOptions w' (httpAgent (client w')) = Some DEFAULT_POOL_CONFIG /\
    agentOptions w' (httpsAgent (client w')) = Some DEFAULT_POOL_CONFIG /\
    (agentOptions w' (httpAgent (client w')) = agentOptions w (httpAgent (client w))
     <-> spread DEFAULT_POOL_CONFIG (or_default poolConfig emptyPoolConfig)
         = DEFAULT_POOL_CONFIG) /\
    accessToken (client w') = accessToken (client w) /\
    tokenExpiresAt (client w') = tokenExpiresAt (client w).
Proof.
  intros poolConfig w0. cbn zeta.
  destruct (constructor_agents poolConfig w0)
    as (Hhttp & Hhttps & Hne & Hax1 & Hax2 & _ & _ & _).
  cbn zeta in *.
  remember (constructor poolConfig w0) as w eqn:Hw. clear Hw.
  assert (Hlt1 : (httpAgent (client w) < List.length (agents w))%nat)
    by (apply nth_error_Some; rewrite Hhttp; discriminate).
  assert (Hlt2 : (httpsAgent (client w) < List.length (agents w))%nat)
    by (apply nth_error_Some; rewrite Hhttps; discriminate).
  assert (Hopts : agentOptions w (httpAgent (client w))
                  = Some (spread DEFAULT_POOL_CONFIG (or_default poolConfig emptyPoolConfig))).
  { unfold agentOptions. rewrite Hhttp. reflexivity. }
  destruct (clearIdleConnections_agents w) as (A1 & A2 & A3 & A4). cbn zeta in *.
  assert (Hold : forall ref, (ref < List.length (agents w))%nat ->
             nth_error (agents (clearIdleConnections w)) ref
             = nth_error (markDestroyed (httpsAgent (client w))
                            (markDestroyed (httpAgent (client w)) (agents w))) ref).
  { intros ref Hlt. unfold clearIdleConnections, newAgent, destroy.
    cbn [client with_agents record with_client agents httpAgent httpsAgent
         axiosHttpAgent axiosHttpsAgent logger Runtime_World fst snd].
    rewrite nth_error_app1 by (rewrite length_app, !length_markDestroyed; cbn; lia).
    rewrite nth_error_app1 by (rewrite !length_markDestroyed; lia).
    reflexivity. }
  assert (Hnew : forall ref,
             ref = httpAgent (client (clearIdleConnections w))
             \/ ref = httpsAgent (client (clearIdleConnections w)) ->
             agentDestroyed (clearIdleConnections w) ref = Some false).
  { unfold agentDestroyed, clearIdleConnections, newAgent, destroy.
    cbn [client with_agents record with_client agents httpAgent httpsAgent
         axiosHttpAgent axiosHttpsAgent logger Runtime_World fst snd].
    intros ref [-> | ->].
    - rewrite nth_error_app1 by (rewrite length_app; cbn; lia).
      rewrite nth_error_snoc. reflexivity.
    - rewrite nth_error_snoc. reflexivity. }
  split.
  { unfold agentDestroyed. rewrite Hold by exact Hlt1.
    apply destroyed_after_both; [exact Hlt1 | left; reflexivity]. }
  split.
  { unfold agentDestroyed. rewrite Hold by exact Hlt2.
    apply destroyed_after_both; [exact Hlt2 | right; reflexivity]. }
  split; [rewrite A3; exact Hax1|]. split; [rewrite A4; exact Hax2|].
  split; [apply Hnew; left; reflexivity|].
  split; [apply Hnew; right; reflexivity|].
  split; [exact A1|]. split; [exact A2|].
  split.
  { rewrite A1, Hopts. split.
    - intros H. congruence.
    - intros H. rewrite H. reflexivity. }
  split; reflexivity.
Qed.

(** X21.  [closePool] never fails; it destroys the two agents the client
    holds and no other, creates none, leaves the client's fields as they
    are, and sleeps exactly once, for 100 ms.  Closing a second time
    changes nothing in the agent store. *)
Theorem closePool_destroys_agents :
  forall w : World,
    (httpAgent (client w) < List.length (agents w))%nat ->
    (httpsAgent (client w) < List.length (agents w))%nat ->
    fst (closePool w) = Resolved tt /\
    agentDestroyed (snd (closePool w)) (httpAgent (client w)) = Some true /\
    agentDestroyed (snd (closePool w)) (httpsAgent (client w)) = Some true /\
    List.length (agents (snd (closePool w))) = List.length (agents w) /\
    (forall ref,
        ref <> httpAgent (client w) -> ref <> httpsAgent (client w) ->
        nth_error (agents (snd (closePool w))) ref = nth_error (agents w) ref) /\
    client (snd (closePool w)) = client w /\
    delaysSlept (snd (closePool w)) = (delaysSlept w ++ [Num.of_Z 100])%list /\
    agents (snd (closePool (snd (closePool w)))) = agents (snd (closePool w)).
Proof.
  intros w H1 H2.
  assert (Hag : forall s, agents (snd (closePool s))
                = markDestroyed (httpsAgent (client s))
                    (markDestroyed (httpAgent (client s)) (agents s)))
    by reflexivity.
  assert (Hcl : forall s, client (snd (closePool s)) = client s) by reflexivity.
  split; [reflexivity|].
  split; [unfold agentDestroyed; rewrite Hag;
          apply destroyed_after_both; [exact H1 | left; reflexivity]|].
  split; [unfold agentDestroyed; rewrite Hag;
          apply destroyed_after_both; [exact H2 | right; reflexivity]|].
  split; [rewrite Hag, !length_markDestroyed; reflexivity|].
  split.
  { intros ref N1 N2. rewrite Hag.
    rewrite !nth_error_markDestroyed_other by (intros E; symmetry in E; contradiction).
    reflexivity. }
  split; [reflexivity|].
  split; [reflexivity|].
  rewrite (Hag (snd (closePool w))), Hcl, Hag.
  rewrite (markDestroyed_comm (httpAgent (client w)) (httpsAgent (client w))
             (markDestroyed (httpAgent (client w)) (agents w))).
  rewrite !markDestroyed_idempotent. reflexivity.
Qed.

Lemma closePool_destroys_agents_witness :
  agentDestroyed (snd (closePool customPoolWorld)) (httpAgent (client customPoolWorld))
    = Some true /\
  agentDestroyed (snd (closePool customPoolWorld)) (httpsAgent (client customPoolWorld))
    = Some true.
Proof.
  destruct (closePool_destroys_agents customPoolWorld) as (_ & H1 & H2 & _).
  - vm_compute. lia.
  - vm_compute. lia.
  - split; [exact H1 | exact H2].
Defined.

(* ================================================================== *)
(** * The backoff schedule of the default policy *)

Lemma onResponseError_randoms (e : Thrown) (w : World) :
  randoms (snd (onResponseError e w)) = randoms w.
Proof.
  unfold onResponseError, bind, effect, throw.
  destruct (transformError_cases e (logger Error "API error" w)) as (a & Heq & _).
  rewrite Heq. cbn. destruct (status_is e 401); reflexivity.
Qed.

(** One request draws at most one random number, for its request id. *)
Lemma clientRequest_randoms (request : Config.t) (w : World) :
  randoms (snd (clientRequest request w)) = randoms w \/
  randoms (snd (clientRequest request w)) = tl (randoms w).
Proof.
  unfold clientRequest, then_, bind, onRequest, bind.
  pose proof (ensureAuthenticated_frame w) as (_ & _ & _ & _ & R1 & _).
  destruct (ensureAuthenticated w) as [[[]|e] w1]; cbn [fst snd] in *.
  - right.
    assert (Hr : randoms (snd (random w1)) = tl (randoms w1)).
    { cbn. destruct (randoms w1) eqn:Hd; cbn; [exact Hd | reflexivity]. }
    destruct (random w1) as [draw w2]. cbn [snd] in Hr.
    match goal with
    | |- context [dispatchRequest ?p ?wd] =>
        assert (Hd : randoms (snd (dispatchRequest p wd)) = randoms w2);
        [ unfold dispatchRequest; cbn;
          destruct (api w2) as [|[r|c m] rest];
          [ reflexivity
          | destruct (validateStatus (Response.status r)); reflexivity
          | reflexivity ]
        | destruct (dispatchRequest p wd) as [[r|e] w3] ]
    end; cbn [fst snd] in *.
    + unfold onResponse, bind, effect, ret. cbn. congruence.
    + rewrite onResponseError_randoms. congruence.
  - left. rewrite onResponseError_randoms. exact R1.
Qed.

Lemma unitDraws_tl (draws : list Q) : unitDraws draws -> unitDraws (tl draws).
Proof.
  unfold unitDraws. intros H. destruct draws; [exact H | inversion H; assumption].
Qed.

Lemma unitDraws_random (w : World) :
  unitDraws (randoms w) ->
  (0 <= fst (random w))%Q /\ (fst (random w) < 1)%Q /\
  randoms (snd (random w)) = tl (randoms w).
Proof.
  unfold unitDraws. intros H. cbn.
  destruct (randoms w) as [|r rest] eqn:Hd; cbn.
  - repeat split; [discriminate | exact Hd].
  - inversion H as [|? ? [H0 H1] ?]; subst. repeat split; assumption.
Qed.

(** The delay of attempt [i] under the default policy stays in its band:
    the cap of ten seconds is out of reach for the three retries. *)
Lemma backoffDelay_band (r : Q) (i : nat) :
  (0 <= r)%Q -> (r < 1)%Q -> (i < 3)%nat ->
  (1000 * 2 ^ Z.of_nat i <= backoffDelay r (Z.of_nat i) 1000 10000)%Q /\
  (backoffDelay r (Z.of_nat i) 1000 10000 <= 1100 * 2 ^ Z.of_nat i)%Q.
Proof.
  intros Hr0 Hr1 Hi.
  destruct (backoffDelay_spec r (Z.of_nat i) 1000 10000 Hr0 Hr1 ltac:(discriminate))
    as (Hj0 & Hj1 & Heq & _).
  cbn zeta in *. rewrite Heq.
  set (e := (1000 * 2 ^ Z.of_nat i)%Q) in *.
  set (j := (r * (1 # 10) * e)%Q) in *.
  assert (He : (e <= 4000)%Q).
  { unfold e. destruct i as [|[|[|i]]]; [| | | lia]; vm_compute; discriminate. }
  split.
  - apply Q.min_glb.
    + rewrite <- (Qplus_0_r e) at 1. apply Qplus_le_r. exact Hj0.
    + eapply Qle_trans; [exact He | discriminate].
  - eapply Qle_trans; [apply Q.le_min_l|].
    eapply Qle_trans; [apply Qplus_le_r; exact Hj1|].
    unfold e. apply Qle_lteq. right. ring.
Qed.

Lemma banded_snoc (delays : list Q) :
  forall (i : nat) (d : Q),
    banded i delays ->
    (1000 * 2 ^ Z.of_nat (i + List.length delays) <= d)%Q ->
    (d <= 1100 * 2 ^ Z.of_nat (i + List.length delays))%Q ->
    banded i (delays ++ [d]).
Proof.
  induction delays as [|x delays IH]; intros i d Hb Hlo Hhi; cbn in *.
  - rewrite Nat.add_0_r in *. repeat split; assumption.
  - destruct Hb as (B1 & B2 & B3). repeat split; try assumption.
    apply IH; [exact B3 | |];
      replace (Datatypes.S i + List.length delays)%nat
        with (i + Datatypes.S (List.length delays))%nat by lia; assumption.
Qed.

(** X22.  The backoff schedule.  As long as [Math.random] answers in
    the interval from 0 to 1, the sleeps of a request under the retry
    executor with the default policy follow the exponential schedule:
    the first lasts between 1000 and 1100 ms, the second between 2000 and
    2200 ms, the third between 4000 and 4400 ms, and there is no fourth;
    the cap of ten seconds never comes into play. *)
Theorem default_backoff_schedule :
  forall (request : Config.t) (w : World),
    unitDraws (randoms w) ->
    exists delays : list Q,
      delaysSlept (snd (executeWithRetry (clientRequest request) defaultRetryConfig w))
      = (delaysSlept w ++ map Num.Finite delays)%list /\
      (List.length delays <= 3)%nat /\
      banded 0 delays.
Proof.
  intros request w Hunit.
  pose (Sched := fun (s : World) (n : nat -> Prop) =>
          unitDraws (randoms s) /\
          exists delays : list Q,
            delaysSlept s = (delaysSlept w ++ map Num.Finite delays)%list /\
            n (List.length delays) /\ banded 0 delays).
  assert (Hstep : forall (s : World) (n : nat -> Prop),
             Sched s n -> Sched (snd (clientRequest request s)) n).
  { intros s n (U & delays & D & L & B). split.
    - destruct (clientRequest_randoms request s) as [-> | ->];
        [exact U | apply unitDraws_tl; exact U].
    - pose proof (clientRequest_frame request s) as (_ & _ & _ & P & _).
      destruct (Appends_request _ _ P) as (D' & _).
      exists delays. split; [congruence|]. split; assumption. }
  enough (Hall : Sched (snd (executeWithRetry (clientRequest request) defaultRetryConfig w))
                   (fun n => (n <= 3)%nat)).
  { destruct Hall as (_ & delays & D & L & B). exists delays. repeat split; assumption. }
  apply (executeWithRetry_rule (clientRequest request) defaultRetryConfig
           (fun k s => Sched s (fun n => n = Z.to_nat k))
           (fun _ s => Sched s (fun n => (n <= 3)%nat))).
  - intros k s r s1 Hinv Hk Hop.
    pose proof (Hstep s _ Hinv) as Hs. rewrite Hop in Hs. cbn [snd] in Hs.
    destruct Hs as (U & delays & D & L & B). split; [exact U|].
    exists delays. repeat split; try assumption. cbn in Hk. lia.
  - intros k s e s1 Hinv Hk Hop _.
    pose proof (Hstep s _ Hinv) as Hs. rewrite Hop in Hs. cbn [snd] in Hs.
    destruct Hs as (U & delays & D & L & B). split; [exact U|].
    exists delays. repeat split; try assumption. cbn in Hk. lia.
  - intros k s e s1 Hinv Hk Hop _.
    pose proof (Hstep s _ Hinv) as Hs. rewrite Hop in Hs. cbn [snd] in Hs.
    pose proof (clientRequest_frame request s) as (_ & _ & _ & _ & _ & E).
    rewrite Hop in E. cbn [fst] in E. destruct E as (a & -> & _).
    destruct Hs as (U & delays & D & L & B).
    destruct (unitDraws_random s1 U) as (R0 & R1 & Rtl).
    pose proof (waitBeforeRetry_backoff defaultRetryConfig k (ThrownApi a) s1 eq_refl)
      as Hd.
    assert (Hrand : randoms (snd (waitBeforeRetry defaultRetryConfig k (ThrownApi a) s1))
                    = tl (randoms s1)).
    { unfold waitBeforeRetry, calculateRetryDelay, bind, effect. cbn.
      destruct (randoms s1) eqn:Hr; cbn; [exact Hr | reflexivity]. }
    split; [rewrite Hrand; apply unitDraws_tl; exact U|].
    exists (delays ++ [backoffDelay (fst (random s1)) k 1000 10000])%list.
    split; [|split].
    + rewrite Hd, D, map_app, <- app_assoc. reflexivity.
    + rewrite length_app. cbn. lia.
    + cbn in Hk.
      destruct (backoffDelay_band (fst (random s1)) (Z.to_nat k) R0 R1 ltac:(lia))
        as [Hlo Hhi].
      rewrite Z2Nat.id in Hlo, Hhi by lia.
      apply banded_snoc; [exact B | |]; cbn [Nat.add]; rewrite L;
        rewrite Z2Nat.id by lia; assumption.
  - intros s _ Hneg. cbn in Hneg. lia.
  - split; [exact Hunit|]. exists []. cbn. rewrite app_nil_r. repeat split.
Qed.

Lemma default_backoff_schedule_witness :
  exists delays : list Q,
    delaysSlept (snd (executeWithRetry (client_get "/conversations/1" None)
                        defaultRetryConfig outageWorld))
    = (delaysSlept outageWorld ++ map Num.Finite delays)%list /\
    (List.length delays <= 3)%nat /\
    banded 0 delays.
Proof.
  apply (default_backoff_schedule (mkRequest "get" "/conversations/1" None JUndefined)
           outageWorld).
  unfold unitDraws, outageWorld, worldWith. cbn.
  repeat constructor; discriminate.
Defined.
